(** * Touch-gesture and swipe-physics core of ionic-angular

    A shallow embedding of the sliding list item ([ItemSliding]), the
    scroll engine ([ScrollView]), the pan gesture controller ([PanGesture])
    and the radio group ([RadioGroup]), with the properties of the
    specification stated over it.

    JavaScript numbers are modelled as exact rationals extended with the
    three non-finite values a division can produce; binary64 rounding and
    the sign of zero are not modelled. *)

From Stdlib Require Import ZArith QArith Qabs Qround Lqa Lia List String Bool.
Import ListNotations.
Local Open Scope Q_scope.

(* ================================================================== *)
(** * JavaScript numbers *)

Module JsNum.

Definition Qltb (a b : Q) : bool := negb (Qle_bool b a).

(** [Math.max] and [Math.min] on finite numbers. *)
Definition Math_max (a b : Q) : Q := if Qltb a b then b else a.
Definition Math_min (a b : Q) : Q := if Qltb b a then b else a.

Inductive num : Type :=
| Fin (q : Q)
| PInf
| NInf
| NaN.

Definition is_finite (n : num) : bool :=
  match n with Fin _ => true | _ => false end.

(** [a / b] on finite operands: a zero divisor gives an infinity of the
    sign of the dividend, and [0 / 0] gives [NaN]. *)
Definition div (a b : Q) : num :=
  if Qeq_bool b 0 then
    if Qeq_bool a 0 then NaN
    else if Qltb 0 a then PInf else NInf
  else Fin (a / b).

(** Arithmetic on all numbers. *)
Definition add (a b : num) : num :=
  match a, b with
  | NaN, _ | _, NaN => NaN
  | Fin x, Fin y => Fin (x + y)
  | PInf, NInf | NInf, PInf => NaN
  | PInf, _ | _, PInf => PInf
  | NInf, _ | _, NInf => NInf
  end.

Definition neg (a : num) : num :=
  match a with
  | Fin x => Fin (- x)
  | PInf => NInf
  | NInf => PInf
  | NaN => NaN
  end.

Definition sub (a b : num) : num := add a (neg b).

(** -1, 0 or 1 for a number that is not [NaN]. *)
Definition sign (a : num) : Z :=
  match a with
  | Fin x => if Qltb 0 x then 1%Z else if Qltb x 0 then (-1)%Z else 0%Z
  | PInf => 1%Z
  | NInf => (-1)%Z
  | NaN => 0%Z
  end.

Definition mul (a b : num) : num :=
  match a, b with
  | NaN, _ | _, NaN => NaN
  | Fin x, Fin y => Fin (x * y)
  | _, _ =>
    match (sign a * sign b)%Z with
    | Z0 => NaN
    | Zpos _ => PInf
    | Zneg _ => NInf
    end
  end.

Definition divn (a b : num) : num :=
  match a, b with
  | NaN, _ | _, NaN => NaN
  | Fin x, Fin y => div x y
  | Fin x, _ => Fin 0
  | _, Fin y =>
    match (sign a * (if Qltb y 0 then -1 else 1))%Z with
    | Zneg _ => NInf
    | _ => PInf
    end
  | _, _ => NaN
  end.

(** [a < b]; every comparison with [NaN] is false. *)
Definition lt (a b : num) : bool :=
  match a, b with
  | NaN, _ | _, NaN => false
  | Fin x, Fin y => Qltb x y
  | NInf, NInf | PInf, _ | _, NInf => false
  | NInf, _ | _, PInf => true
  end.

Definition gt (a b : num) : bool := lt b a.

(** [a === b] and [a !== b]. *)
Definition strict_eq (a b : num) : bool :=
  match a, b with
  | Fin x, Fin y => Qeq_bool x y
  | PInf, PInf | NInf, NInf => true
  | _, _ => false
  end.

Definition strict_neq (a b : num) : bool := negb (strict_eq a b).

(** [Math.min], [Math.max], [Math.abs], [Math.floor]. *)
Definition min (a b : num) : num :=
  match a, b with
  | NaN, _ | _, NaN => NaN
  | _, _ => if lt b a then b else a
  end.

Definition max (a b : num) : num :=
  match a, b with
  | NaN, _ | _, NaN => NaN
  | _, _ => if lt a b then b else a
  end.

Definition abs (a : num) : num :=
  match a with
  | Fin x => Fin (Qabs x)
  | PInf | NInf => PInf
  | NaN => NaN
  end.

Definition floor (a : num) : num :=
  match a with
  | Fin x => Fin (inject_Z (Qfloor x))
  | _ => a
  end.

(** Truthiness: [0] and [NaN] are falsy. *)
Definition truthy (a : num) : bool :=
  match a with
  | Fin x => negb (Qeq_bool x 0)
  | PInf | NInf => true
  | NaN => false
  end.

(** [a || 0]. *)
Definition or_zero (a : num) : num := if truthy a then a else Fin 0.

End JsNum.

(* ================================================================== *)
(** * Methods that may throw *)

Module Js.

Inductive JsError : Type :=
| TypeError (what : string).

(** A call either returns a value or throws; both leave a state behind. *)
Inductive outcome (S A : Type) : Type :=
| Ok (a : A) (s : S)
| Throw (e : JsError) (s : S).

Arguments Ok {S A} a s.
Arguments Throw {S A} e s.

Definition M (S A : Type) : Type := S -> outcome S A.

Definition ret {S A : Type} (a : A) : M S A := fun s => Ok a s.

Definition bind {S A B : Type} (c : M S A) (k : A -> M S B) : M S B :=
  fun s =>
    match c s with
    | Ok a s' => k a s'
    | Throw e s' => Throw e s'
    end.

Definition get {S : Type} : M S S := fun s => Ok s s.
Definition modify {S : Type} (f : S -> S) : M S unit := fun s => Ok tt (f s).
Definition throw {S A : Type} (e : JsError) : M S A := fun s => Throw e s.

Definition state_of {S A : Type} (o : outcome S A) : S :=
  match o with Ok _ s => s | Throw _ s => s end.

Definition throws {S A : Type} (o : outcome S A) : bool :=
  match o with Ok _ _ => false | Throw _ _ => true end.

Fixpoint for_each {S A : Type} (l : list A) (body : A -> M S unit) : M S unit :=
  match l with
  | [] => ret tt
  | a :: l' => bind (body a) (fun _ => for_each l' body)
  end.

Declare Scope js_scope.
Delimit Scope js_scope with js.
Notation "x <- c ;; k" := (bind c (fun x => k))
  (at level 61, c at next level, right associativity) : js_scope.
Notation "c ;; k" := (bind c (fun _ => k))
  (at level 61, right associativity) : js_scope.

End Js.

(* ================================================================== *)
(** * Sliding list item (components/item/item-sliding) *)

Module Sliding.
Import JsNum Js.

Definition SWIPE_MARGIN : Q := 30.
Definition ELASTIC_FACTOR : Q := 55 # 100.

(** The [SlidingState] bit mask and the [ItemSideFlags] values. *)
Definition Disabled : Z := 2.
Definition Enabled : Z := 4.
Definition Right : Z := 8.
Definition Left : Z := 16.
Definition SwipeRight : Z := 32.
Definition SwipeLeft : Z := 64.

Definition SideNone : Z := 0.
Definition SideLeft : Z := 1.
Definition SideRight : Z := 2.
Definition SideBoth : Z := 3.

(** The fields of the component.  An option panel is represented by the
    [offsetWidth] its [width()] reads. *)
Record ItemSliding : Type := mkItemSliding {
  _openAmount : Q;
  _startX : Q;
  _optsWidthRightSide : Q;
  _optsWidthLeftSide : Q;
  _timer : option positive;
  _optsDirty : bool;
  _state : Z;
  _sides : Z;
  _rightOptions : option Q;
  _leftOptions : option Q
}.

Inductive Emitted : Type :=
| IonDrag
| IonSwipeRight
| IonSwipeLeft.

(** What the component touches outside itself: the clock and the pending
    [setTimeout] table (handle, deadline in ms), the number of queued
    animation-frame callbacks of [calculateOptsWidth], the two inline styles
    of the item, and the events emitted so far (latest first). *)
Record Page : Type := mkPage {
  clock : nat;
  timeouts : list (positive * nat);
  nextHandle : positive;
  rafQueue : nat;
  transition : string;
  transform : option Q;
  dragObservers : nat;
  emitted : list Emitted
}.

Definition World : Type := (ItemSliding * Page)%type.

Definition set_openAmount (v : Q) (i : ItemSliding) : ItemSliding :=
  mkItemSliding v (_startX i) (_optsWidthRightSide i) (_optsWidthLeftSide i)
    (_timer i) (_optsDirty i) (_state i) (_sides i) (_rightOptions i) (_leftOptions i).
Definition set_startX (v : Q) (i : ItemSliding) : ItemSliding :=
  mkItemSliding (_openAmount i) v (_optsWidthRightSide i) (_optsWidthLeftSide i)
    (_timer i) (_optsDirty i) (_state i) (_sides i) (_rightOptions i) (_leftOptions i).
Definition set_optsWidths (r l : Q) (i : ItemSliding) : ItemSliding :=
  mkItemSliding (_openAmount i) (_startX i) r l
    (_timer i) (_optsDirty i) (_state i) (_sides i) (_rightOptions i) (_leftOptions i).
Definition set_timer (v : option positive) (i : ItemSliding) : ItemSliding :=
  mkItemSliding (_openAmount i) (_startX i) (_optsWidthRightSide i) (_optsWidthLeftSide i)
    v (_optsDirty i) (_state i) (_sides i) (_rightOptions i) (_leftOptions i).
Definition set_optsDirty (v : bool) (i : ItemSliding) : ItemSliding :=
  mkItemSliding (_openAmount i) (_startX i) (_optsWidthRightSide i) (_optsWidthLeftSide i)
    (_timer i) v (_state i) (_sides i) (_rightOptions i) (_leftOptions i).
Definition set_state (v : Z) (i : ItemSliding) : ItemSliding :=
  mkItemSliding (_openAmount i) (_startX i) (_optsWidthRightSide i) (_optsWidthLeftSide i)
    (_timer i) (_optsDirty i) v (_sides i) (_rightOptions i) (_leftOptions i).

Definition set_clock (v : nat) (p : Page) : Page :=
  mkPage v (timeouts p) (nextHandle p) (rafQueue p) (transition p) (transform p)
    (dragObservers p) (emitted p).
Definition set_timeouts (v : list (positive * nat)) (p : Page) : Page :=
  mkPage (clock p) v (nextHandle p) (rafQueue p) (transition p) (transform p)
    (dragObservers p) (emitted p).
Definition set_nextHandle (v : positive) (p : Page) : Page :=
  mkPage (clock p) (timeouts p) v (rafQueue p) (transition p) (transform p)
    (dragObservers p) (emitted p).
Definition set_rafQueue (v : nat) (p : Page) : Page :=
  mkPage (clock p) (timeouts p) (nextHandle p) v (transition p) (transform p)
    (dragObservers p) (emitted p).
Definition set_transition (v : string) (p : Page) : Page :=
  mkPage (clock p) (timeouts p) (nextHandle p) (rafQueue p) v (transform p)
    (dragObservers p) (emitted p).
Definition set_transform (v : option Q) (p : Page) : Page :=
  mkPage (clock p) (timeouts p) (nextHandle p) (rafQueue p) (transition p) v
    (dragObservers p) (emitted p).
Definition emit (e : Emitted) (p : Page) : Page :=
  mkPage (clock p) (timeouts p) (nextHandle p) (rafQueue p) (transition p) (transform p)
    (dragObservers p) (e :: emitted p).

(** ** The timer primitives of util/dom *)

(** [nativeTimeout(fn, ms)]: the only callback the component ever passes is
    the auto-disable closure, so the table keeps handle and deadline. *)
Definition nativeTimeout (ms : nat) (p : Page) : positive * Page :=
  let h := nextHandle p in
  (h, set_nextHandle (Pos.succ h)
        (set_timeouts (timeouts p ++ [(h, (clock p + ms)%nat)]) p)).

Definition clearNativeTimeout (h : positive) (p : Page) : Page :=
  set_timeouts (filter (fun e => negb (Pos.eqb (fst e) h)) (timeouts p)) p.

(** ** Methods *)

Definition _setState (state : Z) (i : ItemSliding) : ItemSliding :=
  if Z.eqb state (_state i) then i else set_state state i.

(** [if (this._timer) { clearNativeTimeout(this._timer); this._timer = null; }] *)
Definition cancelTimer (w : World) : World :=
  match _timer (fst w) with
  | Some h => (set_timer None (fst w), clearNativeTimeout h (snd w))
  | None => w
  end.

(** The closure armed by [_setOpenAmount]:
    [this._setState(Disabled); this._timer = null]. *)
Definition disableCallback (i : ItemSliding) : ItemSliding :=
  set_timer None (_setState Disabled i).

Definition _setOpenAmount (openAmount : Q) (isFinal : bool) (w : World) : World :=
  let '(i, p) := cancelTimer w in
  let i := set_openAmount openAmount i in
  let '(i, p) :=
    if isFinal then (i, set_transition "" p)
    else if Qltb 0 openAmount then
      let state :=
        if Qle_bool (_optsWidthRightSide i + SWIPE_MARGIN) openAmount
        then Z.lor Right SwipeRight else Right in
      (_setState state i, p)
    else if Qltb openAmount 0 then
      let state :=
        if Qle_bool openAmount (- _optsWidthLeftSide i - SWIPE_MARGIN)
        then Z.lor Left SwipeLeft else Left in
      (_setState state i, p)
    else (i, p) in
  if Qeq_bool openAmount 0 then
    let '(h, p) := nativeTimeout 600 p in
    (set_timer (Some h) i, set_transform None p)
  else
    let p := set_transform (Some (- openAmount)) p in
    (i, if (0 <? dragObservers p)%nat then emit IonDrag p else p).

Definition getOpenAmount (w : World) : Q := _openAmount (fst w).

Definition getSlidingPercent (w : World) : num :=
  let openAmount := _openAmount (fst w) in
  if Qltb 0 openAmount then div openAmount (_optsWidthRightSide (fst w))
  else if Qltb openAmount 0 then div openAmount (_optsWidthLeftSide (fst w))
  else Fin 0.

Definition startSliding (startX : Q) (w : World) : World :=
  let '(i, p) := cancelTimer w in
  let i :=
    if Qeq_bool (_openAmount i) 0
    then _setState Enabled (set_optsDirty true i) else i in
  (set_startX (startX + _openAmount i) i, set_transition "none" p).

(** [calculateOptsWidth] only queues an animation-frame callback. *)
Definition calculateOptsWidth (w : World) : World :=
  (fst w, set_rafQueue (S (rafQueue (snd w))) (snd w)).

(** The queued callback. *)
Definition optsWidthCallback (i : ItemSliding) : ItemSliding :=
  if negb (_optsDirty i) then i
  else
    let r := match _rightOptions i with Some wd => wd | None => 0 end in
    let l := match _leftOptions i with Some wd => wd | None => 0 end in
    set_optsDirty false (set_optsWidths r l i).

(** The [switch (this._sides)] of [moveSliding]. *)
Definition clampSides (sides : Z) (openAmount : Q) : Q :=
  if Z.eqb sides SideRight then Math_max 0 openAmount
  else if Z.eqb sides SideLeft then Math_min 0 openAmount
  else openAmount.

(** The elastic resistance applied by [moveSliding]. *)
Definition elastic (right left openAmount : Q) : Q :=
  if Qltb right openAmount then
    let optsWidth := right in
    optsWidth + (openAmount - optsWidth) * ELASTIC_FACTOR
  else if Qltb openAmount (- left) then
    let optsWidth := - left in
    optsWidth + (openAmount - optsWidth) * ELASTIC_FACTOR
  else openAmount.

(** [moveSliding] returns [undefined] ([None]) on the tick that finds the
    widths stale. *)
Definition moveSliding (x : Q) (w : World) : option Q * World :=
  if _optsDirty (fst w) then (None, calculateOptsWidth w)
  else
    let openAmount := _startX (fst w) - x in
    let openAmount := clampSides (_sides (fst w)) openAmount in
    let openAmount :=
      elastic (_optsWidthRightSide (fst w)) (_optsWidthLeftSide (fst w)) openAmount in
    (Some openAmount, _setOpenAmount openAmount false w).

(** [fireSwipeEvent] reads [ionSwipe] of the panel the swipe bit names;
    on a row without that panel the read throws. *)
Definition fireSwipeEvent (w : World) : outcome World unit :=
  if negb (Z.eqb (Z.land (_state (fst w)) SwipeRight) 0) then
    match _rightOptions (fst w) with
    | Some _ => Ok tt (fst w, emit IonSwipeRight (snd w))
    | None => Throw (TypeError "ionSwipe") w
    end
  else if negb (Z.eqb (Z.land (_state (fst w)) SwipeLeft) 0) then
    match _leftOptions (fst w) with
    | Some _ => Ok tt (fst w, emit IonSwipeLeft (snd w))
    | None => Throw (TypeError "ionSwipe") w
    end
  else Ok tt w.

(** The three signals of [endSliding]. *)
Definition isResetDirection (openAmount velocity : Q) : bool :=
  Bool.eqb (Qltb 0 openAmount) (negb (Qltb velocity 0)).
Definition isMovingFast (velocity : Q) : bool :=
  Qltb (3 # 10) (Qabs velocity).
Definition isOnCloseZone (openAmount restingPoint : Q) : bool :=
  Qltb (Qabs openAmount) (Qabs (restingPoint / 2)).

(** [swipeShouldReset] lives in util/util, which is not part of the
    sources at hand: it is a parameter of [endSliding]. *)
Definition endSliding (swipeShouldReset : bool -> bool -> bool -> bool)
  (velocity : Q) (w : World) : outcome World Q :=
  let openAmount := _openAmount (fst w) in
  let restingPoint :=
    if Qltb 0 openAmount
    then _optsWidthRightSide (fst w) else - _optsWidthLeftSide (fst w) in
  let restingPoint :=
    if swipeShouldReset (isResetDirection openAmount velocity)
         (isMovingFast velocity) (isOnCloseZone openAmount restingPoint)
    then 0 else restingPoint in
  match fireSwipeEvent (_setOpenAmount restingPoint true w) with
  | Ok _ w' => Ok restingPoint w'
  | Throw e w' => Throw e w'
  end.

Definition close (w : World) : World := _setOpenAmount 0 true w.

(** One policy for [swipeShouldReset], used to exercise [endSliding]: a
    slow drag is reset when it ends in the close zone, a fast one when it
    moves in the reset direction.  It has the two rows the specification
    documents: released at rest, a row past the halfway point stays open
    and one short of it closes. *)
Definition samplePolicy (resetDirection movingFast onCloseZone : bool) : bool :=
  (negb movingFast && onCloseZone) || (resetDirection && movingFast).

(** The state the constructor leaves, on a freshly loaded page. *)
Definition constructed : ItemSliding :=
  mkItemSliding 0 0 0 0 None true Disabled SideNone None None.

Definition loaded : Page := mkPage 0 [] 1 0 "" None 0 [].

(** An [ItemOptions] panel: its [side] input and the [offsetWidth] of its
    element. *)
Record ItemOptions : Type := mkItemOptions {
  side : option string;
  offsetWidth : Q
}.

Definition getSides (o : ItemOptions) : Z :=
  match side o with
  | Some sd => if String.eqb sd "left" then SideLeft else SideRight
  | None => SideRight
  end.

Definition width (o : ItemOptions) : Q := offsetWidth o.

Definition set_sides (v : Z) (i : ItemSliding) : ItemSliding :=
  mkItemSliding (_openAmount i) (_startX i) (_optsWidthRightSide i)
    (_optsWidthLeftSide i) (_timer i) (_optsDirty i) (_state i) v
    (_rightOptions i) (_leftOptions i).

(** One turn of the loop of the [_itemOptions] setter, with [sides]
    accumulated in the field it ends up in. *)
Definition set_panel (o : ItemOptions) (i : ItemSliding) : ItemSliding :=
  let i' :=
    if Z.eqb (getSides o) SideLeft
    then mkItemSliding (_openAmount i) (_startX i) (_optsWidthRightSide i)
           (_optsWidthLeftSide i) (_timer i) (_optsDirty i) (_state i)
           (_sides i) (_rightOptions i) (Some (width o))
    else mkItemSliding (_openAmount i) (_startX i) (_optsWidthRightSide i)
           (_optsWidthLeftSide i) (_timer i) (_optsDirty i) (_state i)
           (_sides i) (Some (width o)) (_leftOptions i) in
  set_sides (Z.lor (_sides i') (getSides o)) i'.

Definition _itemOptions (itemOptions : list ItemOptions) (i : ItemSliding) : ItemSliding :=
  set_optsDirty true (fold_left (fun acc o => set_panel o acc) itemOptions (set_sides 0 i)).

(** ** The passage of time *)

(** An expired timeout leaves the table and runs its callback. *)
Definition expire (w : World) (e : positive * nat) : World :=
  if (snd e <=? clock (snd w))%nat
  then (disableCallback (fst w), clearNativeTimeout (fst e) (snd w))
  else w.

(** [dt] milliseconds pass without any call into the component. *)
Definition advance (dt : nat) (w : World) : World :=
  let p := set_clock (clock (snd w) + dt)%nat (snd w) in
  fold_left expire (timeouts p) (fst w, p).

(** The next animation frame runs the queued width computations. *)
Definition animationFrame (w : World) : World :=
  (Nat.iter (rafQueue (snd w)) optsWidthCallback (fst w), set_rafQueue 0 (snd w)).

(** The component owns at most one pending timeout, the one [_timer]
    names; this holds initially and every method preserves it. *)
Definition timer_owned (w : World) : Prop :=
  match _timer (fst w) with
  | Some h => exists d, timeouts (snd w) = [(h, d)]
  | None => timeouts (snd w) = []
  end.

(** A row whose only option panel has no width, dragged 20px to the left:
    the first move finds the widths stale, the next frame computes them,
    the second move opens the row. *)
Definition zero_width_drag : World :=
  let w := (_itemOptions [mkItemOptions None 0] constructed, loaded) in
  let w := startSliding 100 w in
  let w := snd (moveSliding 100 w) in
  let w := animationFrame w in
  snd (moveSliding 80 w).

End Sliding.

(* ================================================================== *)
(** * Scroll view (util/scroll-view) *)

Module Scroll.
Import JsNum Js.
Local Open Scope js_scope.

Definition MIN_VELOCITY_START_DECELERATION : Q := 4.
Definition MIN_VELOCITY_CONTINUE_DECELERATION : Q := 12 # 100.
Definition DECELERATION_FRICTION : Q := 97 # 100.
Definition FRAME_MS : Q := 1000 / 60.

(** The inline [transform] style: [''] or [translate3d(x px, y px, z px)]. *)
Inductive Transform : Type :=
| NoTransform
| Translate3d (x y z : num).

(** The scrolled DOM node. *)
Record Element : Type := mkElement {
  scrollTop : num;
  scrollLeft : num;
  styleTransform : Transform;
  scrollHeight : num;
  parentOffsetHeight : num
}.

(** The fields of the scroll event record that the modelled methods
    touch. *)
Record ScrollEvent : Type := mkScrollEvent {
  ev_timeStamp : num;
  ev_scrollTop : num;
  ev_velocityY : num;
  ev_velocityX : num
}.

(** What the three subjects emit, with the record as it was then. *)
Inductive Notification : Type :=
| ScrollStartN (e : ScrollEvent)
| ScrollN (e : ScrollEvent)
| ScrollEndN (e : ScrollEvent).

(** The [max] variable of the [enableJsScroll] closure. *)
Inductive MaxVar : Type :=
| MaxUndefined
| MaxNull
| MaxNum (n : num).

Definition max_num (m : MaxVar) : num :=
  match m with
  | MaxUndefined => NaN
  | MaxNull => Fin 0
  | MaxNum n => n
  end.

Definition max_truthy (m : MaxVar) : bool :=
  match m with
  | MaxNum n => truthy n
  | _ => false
  end.

(** The write-phase callbacks the view hands to the DOM controller. *)
Inductive WriteTask : Type :=
| WDecelerate.

(** [_el] tells whether [this._el] still refers to [node]; the closures of
    [enableJsScroll] keep their own reference [ele] to the node.  [reads]
    holds the handles of the queued [jsScrollDecelerate] read callbacks,
    [writes] the queued write callbacks, [notified] the notifications so
    far, latest first, and [completions] counts the calls of the [done]
    callbacks of [scrollTo] (for an omitted [done], the resolutions of the
    returned promises). *)
Record ScrollView : Type := mkScrollView {
  isScrolling : bool;
  _t : num;
  _l : num;
  _js : bool;
  _el : bool;
  node : Element;
  ev : ScrollEvent;
  max : MaxVar;
  rafCancel : option positive;
  contentTop : num;
  contentBottom : num;
  reads : list positive;
  writes : list WriteTask;
  nextTask : positive;
  notified : list Notification;
  completions : nat
}.

Definition set_isScrolling (v : bool) (s : ScrollView) : ScrollView :=
  mkScrollView v (_t s) (_l s) (_js s) (_el s) (node s) (ev s) (max s) (rafCancel s)
    (contentTop s) (contentBottom s) (reads s) (writes s) (nextTask s) (notified s) (completions s).
Definition set_t (v : num) (s : ScrollView) : ScrollView :=
  mkScrollView (isScrolling s) v (_l s) (_js s) (_el s) (node s) (ev s) (max s)
    (rafCancel s) (contentTop s) (contentBottom s) (reads s) (writes s) (nextTask s)
    (notified s) (completions s).
Definition set_l (v : num) (s : ScrollView) : ScrollView :=
  mkScrollView (isScrolling s) (_t s) v (_js s) (_el s) (node s) (ev s) (max s)
    (rafCancel s) (contentTop s) (contentBottom s) (reads s) (writes s) (nextTask s)
    (notified s) (completions s).
Definition set_el (v : bool) (s : ScrollView) : ScrollView :=
  mkScrollView (isScrolling s) (_t s) (_l s) (_js s) v (node s) (ev s) (max s)
    (rafCancel s) (contentTop s) (contentBottom s) (reads s) (writes s) (nextTask s)
    (notified s) (completions s).
Definition set_node (v : Element) (s : ScrollView) : ScrollView :=
  mkScrollView (isScrolling s) (_t s) (_l s) (_js s) (_el s) v (ev s) (max s)
    (rafCancel s) (contentTop s) (contentBottom s) (reads s) (writes s) (nextTask s)
    (notified s) (completions s).
Definition set_ev (v : ScrollEvent) (s : ScrollView) : ScrollView :=
  mkScrollView (isScrolling s) (_t s) (_l s) (_js s) (_el s) (node s) v (max s)
    (rafCancel s) (contentTop s) (contentBottom s) (reads s) (writes s) (nextTask s)
    (notified s) (completions s).
Definition set_max (v : MaxVar) (s : ScrollView) : ScrollView :=
  mkScrollView (isScrolling s) (_t s) (_l s) (_js s) (_el s) (node s) (ev s) v
    (rafCancel s) (contentTop s) (contentBottom s) (reads s) (writes s) (nextTask s)
    (notified s) (completions s).
Definition set_rafCancel (v : option positive) (s : ScrollView) : ScrollView :=
  mkScrollView (isScrolling s) (_t s) (_l s) (_js s) (_el s) (node s) (ev s) (max s)
    v (contentTop s) (contentBottom s) (reads s) (writes s) (nextTask s) (notified s)
    (completions s).
Definition set_reads (v : list positive) (s : ScrollView) : ScrollView :=
  mkScrollView (isScrolling s) (_t s) (_l s) (_js s) (_el s) (node s) (ev s) (max s)
    (rafCancel s) (contentTop s) (contentBottom s) v (writes s) (nextTask s)
    (notified s) (completions s).
Definition set_writes (v : list WriteTask) (s : ScrollView) : ScrollView :=
  mkScrollView (isScrolling s) (_t s) (_l s) (_js s) (_el s) (node s) (ev s) (max s)
    (rafCancel s) (contentTop s) (contentBottom s) (reads s) v (nextTask s)
    (notified s) (completions s).
Definition set_nextTask (v : positive) (s : ScrollView) : ScrollView :=
  mkScrollView (isScrolling s) (_t s) (_l s) (_js s) (_el s) (node s) (ev s) (max s)
    (rafCancel s) (contentTop s) (contentBottom s) (reads s) (writes s) v
    (notified s) (completions s).
Definition set_completions (v : nat) (s : ScrollView) : ScrollView :=
  mkScrollView (isScrolling s) (_t s) (_l s) (_js s) (_el s) (node s) (ev s) (max s)
    (rafCancel s) (contentTop s) (contentBottom s) (reads s) (writes s) (nextTask s)
    (notified s) v.
Definition notify (n : Notification) (s : ScrollView) : ScrollView :=
  mkScrollView (isScrolling s) (_t s) (_l s) (_js s) (_el s) (node s) (ev s) (max s)
    (rafCancel s) (contentTop s) (contentBottom s) (reads s) (writes s) (nextTask s)
    (n :: notified s) (completions s).

Definition set_scrollTop (v : num) (e : Element) : Element :=
  mkElement v (scrollLeft e) (styleTransform e) (scrollHeight e) (parentOffsetHeight e).
Definition set_scrollLeft (v : num) (e : Element) : Element :=
  mkElement (scrollTop e) v (styleTransform e) (scrollHeight e) (parentOffsetHeight e).
Definition set_styleTransform (v : Transform) (e : Element) : Element :=
  mkElement (scrollTop e) (scrollLeft e) v (scrollHeight e) (parentOffsetHeight e).

Definition set_ev_timeStamp (v : num) (e : ScrollEvent) : ScrollEvent :=
  mkScrollEvent v (ev_scrollTop e) (ev_velocityY e) (ev_velocityX e).
Definition set_ev_scrollTop (v : num) (e : ScrollEvent) : ScrollEvent :=
  mkScrollEvent (ev_timeStamp e) v (ev_velocityY e) (ev_velocityX e).
Definition set_ev_velocityY (v : num) (e : ScrollEvent) : ScrollEvent :=
  mkScrollEvent (ev_timeStamp e) (ev_scrollTop e) v (ev_velocityX e).
Definition set_ev_velocityX (v : num) (e : ScrollEvent) : ScrollEvent :=
  mkScrollEvent (ev_timeStamp e) (ev_scrollTop e) (ev_velocityY e) v.

(** Reading a property of [this._el] throws when it is [null]. *)
Definition the_element (property : string) : M ScrollView Element :=
  fun s => if _el s then Ok (node s) s else Throw (TypeError property) s.

(** ** Offsets *)

Definition getTop : M ScrollView num :=
  s <- get ;;
  if _js s then ret (_t s)
  else
    e <- the_element "scrollTop" ;;
    modify (set_t (scrollTop e)) ;;
    ret (scrollTop e).

Definition getLeft : M ScrollView num :=
  s <- get ;;
  if _js s then ret (Fin 0)
  else
    e <- the_element "scrollLeft" ;;
    modify (set_l (scrollLeft e)) ;;
    ret (scrollLeft e).

Definition setTop (top : num) : M ScrollView unit :=
  modify (set_t top) ;;
  s <- get ;;
  if _js s then
    e <- the_element "style" ;;
    modify (set_node
      (set_styleTransform
         (Translate3d (mul (_l s) (Fin (-1))) (mul top (Fin (-1))) (Fin 0)) e))
  else
    e <- the_element "scrollTop" ;;
    modify (set_node (set_scrollTop top e)).

Definition setLeft (left : num) : M ScrollView unit :=
  modify (set_l left) ;;
  s <- get ;;
  if _js s then
    e <- the_element "style" ;;
    modify (set_node
      (set_styleTransform
         (Translate3d (mul left (Fin (-1))) (mul (_t s) (Fin (-1))) (Fin 0)) e))
  else
    e <- the_element "scrollLeft" ;;
    modify (set_node (set_scrollLeft left e)).

Definition stop : M ScrollView unit := modify (set_isScrolling false).

(** [destroy], as far as the modelled fields go: [stop()] and
    [this._el = null]. *)
Definition destroy : M ScrollView unit :=
  stop ;; modify (set_el false).

(** ** The DOM controller queue *)

Definition dom_read : M ScrollView positive :=
  s <- get ;;
  modify (fun s => set_nextTask (Pos.succ (nextTask s))
                     (set_reads (reads s ++ [nextTask s]) s)) ;;
  ret (nextTask s).

Definition dom_write (t : WriteTask) : M ScrollView unit :=
  modify (fun s => set_writes (writes s ++ [t]) s).

Definition dom_cancel (h : option positive) : M ScrollView unit :=
  match h with
  | Some h =>
    modify (fun s => set_reads (filter (fun r => negb (Pos.eqb r h)) (reads s)) s)
  | None => ret tt
  end.

(** ** Synthetic scrolling: deceleration *)

(** [setMax] reads the layout through the closure's own [ele]. *)
Definition setMax : M ScrollView unit :=
  modify (fun s =>
    if max_truthy (max s) then s
    else set_max
           (MaxNum (add (add (sub (scrollHeight (node s)) (parentOffsetHeight (node s)))
                           (contentTop s))
                      (contentBottom s))) s).

(** The read-phase part of [jsScrollDecelerate(timeStamp)]. *)
Definition jsScrollDecelerate (timeStamp : num) : M ScrollView unit :=
  modify (fun s => set_ev (set_ev_timeStamp timeStamp (ev s)) s) ;;
  s <- get ;;
  if truthy (ev_velocityY (ev s)) then
    modify (fun s =>
      set_ev (set_ev_velocityY
                (mul (ev_velocityY (ev s)) (Fin DECELERATION_FRICTION)) (ev s)) s) ;;
    setMax ;;
    modify (fun s =>
      set_t (min (JsNum.max (add (_t s) (ev_velocityY (ev s))) (Fin 0))
               (max_num (max s))) s) ;;
    modify (fun s => set_ev (set_ev_scrollTop (_t s) (ev s)) s) ;;
    modify (fun s => notify (ScrollN (ev s)) s) ;;
    dom_write WDecelerate
  else ret tt.

(** The write-phase callback it queues. *)
Definition decelerateWrite : M ScrollView unit :=
  s <- get ;;
  setTop (_t s) ;;
  s <- get ;;
  if gt (_t s) (Fin 0) && lt (_t s) (max_num (max s))
     && gt (abs (ev_velocityY (ev s))) (Fin MIN_VELOCITY_CONTINUE_DECELERATION)
  then
    h <- dom_read ;;
    modify (set_rafCancel (Some h))
  else
    modify (set_isScrolling false) ;;
    modify (fun s =>
      set_ev (set_ev_velocityY (Fin 0) (set_ev_velocityX (Fin 0) (ev s))) s) ;;
    modify (fun s => notify (ScrollEndN (ev s)) s).

Definition run_write (t : WriteTask) : M ScrollView unit :=
  match t with
  | WDecelerate => decelerateWrite
  end.

(** Modelled from the spec: the deferred-write scheduler (DomController) is
    not under src/.  One display frame runs the queued read callbacks with
    the frame's time stamp and then the batched write phase; a read queued
    during the write phase waits for the next frame. *)
Definition frame (timeStamp : num) : M ScrollView unit :=
  s <- get ;;
  modify (set_reads []) ;;
  for_each (reads s) (fun _ => jsScrollDecelerate timeStamp) ;;
  s <- get ;;
  modify (set_writes []) ;;
  for_each (writes s) run_write.

(** Frames [k], [k+1], ... are run for as long as a read callback is
    queued; [fuel] bounds their number.  The result is the number of frames
    run, or [None] when the fuel did not suffice. *)
Fixpoint decelerate (clk : nat -> num) (k fuel : nat) : M ScrollView (option nat) :=
  fun s =>
    match reads s with
    | [] => Ok (Some k) s
    | _ :: _ =>
      match fuel with
      | O => Ok None s
      | S fuel' =>
        match frame (clk k) s with
        | Ok _ s' => decelerate clk (S k) fuel' s'
        | Throw e s' => Throw e s'
        end
      end
    end.

(** ** The deceleration loop as a whole *)

(** The bound that [setMax] settles on. *)
Definition settled_max (s : ScrollView) : num :=
  max_num (max (state_of (setMax s))).

(** The state at the start of a deceleration frame: synthetic mode, the
    node attached, one read callback queued and no write, a finite offset
    [t], velocity [v] and bound [m]. *)
Definition decelerating (s : ScrollView) (t v m : Q) : Prop :=
  _js s = true /\ _el s = true /\
  _t s = Fin t /\ ev_velocityY (ev s) = Fin v /\
  settled_max s = Fin m /\
  (exists h, reads s = [h]) /\ writes s = [].

Definition scroll_ends (l : list Notification) : nat :=
  List.length (filter (fun n => match n with ScrollEndN _ => true | _ => false end) l).

(** The test of the write-phase callback. *)
Definition continues (t' v' m : Q) : bool :=
  Qltb 0 t' && Qltb t' m && Qltb (12 # 100) (Qabs v').

(** Powers of the friction constant. *)
Fixpoint friction_pow (n : nat) : Q :=
  match n with
  | O => 1
  | S k => (97 # 100) * friction_pow k
  end.

(** The offset and the velocity [j] frames on, as the specification
    gives them: each frame multiplies the velocity by 0.97, moves the
    offset by the new velocity and clamps it into [[0, m]]. *)
Fixpoint after_frames (m t v : Q) (j : nat) : Q * Q :=
  match j with
  | O => (t, v)
  | S j' =>
    let v' := v * (97 # 100) in
    after_frames m (Math_min (Math_max (t + v') 0) m) v' j'
  end.

(** A view in the middle of a fling: offset 200 of 1000, velocity 5 per
    frame, the first deceleration frame queued by [jsScrollTouchEnd]. *)
Definition flung : ScrollView :=
  mkScrollView true (Fin 200) (Fin 0) true true
    (mkElement (Fin 0) (Fin 0) NoTransform (Fin 1600) (Fin 600))
    (mkScrollEvent (Fin 0) (Fin 200) (Fin 5) (Fin 0))
    (MaxNum (Fin 1000)) (Some 1%positive) (Fin 0) (Fin 0) [1%positive] [] 2 [] 0.

Definition frame_clock (k : nat) : num :=
  Fin (inject_Z (Z.of_nat k) * FRAME_MS).

(** ** Animated [scrollTo] *)

(** The optional [done] argument. *)
Inductive DoneArg : Type :=
| DoneOmitted
| DoneNull
| DoneCallback.

(** The variables of one [scrollTo] closure. *)
Record Animation : Type := mkAnimation {
  x : num;
  y : num;
  duration : num;
  fromY : num;
  fromX : num;
  maxAttempts : num;
  startTime : num;
  attempts : nat;
  done : DoneArg
}.

Definition set_startTime (v : num) (a : Animation) : Animation :=
  mkAnimation (x a) (y a) (duration a) (fromY a) (fromX a) (maxAttempts a) v
    (attempts a) (done a).
Definition set_attempts (v : nat) (a : Animation) : Animation :=
  mkAnimation (x a) (y a) (duration a) (fromY a) (fromX a) (maxAttempts a)
    (startTime a) v (done a).

(** [done()]: calling [null] throws. *)
Definition call_done (d : DoneArg) : M ScrollView unit :=
  match d with
  | DoneNull => throw (TypeError "done is not a function")
  | _ => modify (fun s => set_completions (S (completions s)) s)
  end.

(** [self._el.style[CSS.transform] = ''] *)
Definition clear_transform : M ScrollView unit :=
  e <- the_element "style" ;;
  modify (set_node (set_styleTransform NoTransform e)).

(** One call of the closure [step(timeStamp)].  The boolean tells whether
    it asked for another frame with [nativeRaf(step)]. *)
Definition step (timeStamp : num) (a : Animation) : M ScrollView (Animation * bool) :=
  let a := set_attempts (S (attempts a)) a in
  s <- get ;;
  if negb (_el s) || negb (isScrolling s)
     || gt (Fin (inject_Z (Z.of_nat (attempts a)))) (maxAttempts a)
  then
    modify (set_isScrolling false) ;;
    clear_transform ;;
    call_done (done a) ;;
    ret (a, false)
  else
    let time := min (Fin 1) (divn (sub timeStamp (startTime a)) (duration a)) in
    let time := sub time (Fin 1) in
    let easedT := add (mul (mul time time) time) (Fin 1) in
    (if strict_neq (fromY a) (y a)
     then setTop (add (mul easedT (sub (y a) (fromY a))) (fromY a))
     else ret tt) ;;
    (if strict_neq (fromX a) (x a)
     then setLeft (floor (add (mul easedT (sub (x a) (fromX a))) (fromX a)))
     else ret tt) ;;
    if lt easedT (Fin 1) then ret (a, true)
    else
      modify (set_isScrolling false) ;;
      clear_transform ;;
      call_done (done a) ;;
      ret (a, false).

(** [scrollTo(x, y, duration, done)] up to the point where it waits for
    its first frame.  [None] is the early return for a missing element. *)
Definition scrollTo (x y duration : num) (done : DoneArg) :
  M ScrollView (option Animation) :=
  s <- get ;;
  if negb (_el s) then
    call_done done ;;
    ret None
  else
    let x := or_zero x in
    let y := or_zero y in
    let fromY := scrollTop (node s) in
    let fromX := scrollLeft (node s) in
    let maxAttempts := add (divn duration (Fin 16)) (Fin 100) in
    modify (set_isScrolling true) ;;
    ret (Some (mkAnimation x y duration fromY fromX maxAttempts NaN 0 done)).

(** The callback handed to [rafFrames]: [startTime = timeStamp; step(timeStamp)]. *)
Definition first_step (timeStamp : num) (a : Animation) : M ScrollView (Animation * bool) :=
  step timeStamp (set_startTime timeStamp a).

(** A view in synthetic mode over a node, as [init] leaves it. *)
Definition js_view (e : Element) : ScrollView :=
  mkScrollView false (Fin 0) (Fin 0) true true e
    (mkScrollEvent (Fin 0) (Fin 0) (Fin 0) (Fin 0))
    MaxUndefined None (Fin 0) (Fin 0) [] [] 1 [] 0.

(** A view in native mode over a node. *)
Definition native_view (e : Element) : ScrollView :=
  mkScrollView false (Fin 0) (Fin 0) false true e
    (mkScrollEvent (Fin 0) (Fin 0) (Fin 0) (Fin 0))
    MaxUndefined None (Fin 0) (Fin 0) [] [] 1 [] 0.

(** A scrollable node of height 1600 in a viewport of 600. *)
Definition page_node : Element :=
  mkElement (Fin 0) (Fin 0) NoTransform (Fin 1600) (Fin 600).

(** [scrollTo(0, 100, 300)] starts, runs its first frame, the view is
    destroyed, and the next frame arrives. *)
Definition torn_down_mid_animation : M ScrollView (option (Animation * bool)) :=
  started <- scrollTo (Fin 0) (Fin 100) (Fin 300) DoneOmitted ;;
  match started with
  | None => ret None
  | Some a =>
    r <- first_step (Fin 0) a ;;
    if snd r then
      destroy ;;
      r' <- step (Fin (16 # 1)) (fst r) ;;
      ret (Some r')
    else ret (Some r)
  end.

End Scroll.

(* ================================================================== *)
(** * Pan gesture controller (gestures/drag-gesture) *)

Module Pan.
Import JsNum Js.
Local Open Scope js_scope.

(** A pointer event, reduced to the coordinate [pointerCoord] reads. *)
Record PointerEvent : Type := mkPointerEvent {
  px : Q;
  py : Q
}.

(** The recognizer the controller drives ([PanRecognizer]). *)
Class Recognizer (D : Type) : Type := {
  recognizer_new : string -> Q -> Q -> D;
  recognizer_start : PointerEvent -> D -> D;
  recognizer_detect : PointerEvent -> D -> bool * D;
  recognizer_pan : D -> Z
}.

(** The capture arbitration the controller asks ([GestureDelegate]). *)
Class GestureDelegate (G : Type) : Type := {
  gesture_start : G -> bool * G;
  gesture_capture : G -> bool * G;
  gesture_release : G -> G;
  gesture_destroy : G -> G
}.

(** Calls the controller makes on its hooks and collaborators. *)
Inductive Call : Type :=
| OnDragStart (ev : PointerEvent)
| OnDragMove (ev : PointerEvent)
| OnDragEnd (ev : PointerEvent)
| NotCaptured (ev : PointerEvent)
| TryToCapture
| GestureStart (granted : bool)
| GestureCapture (granted : bool)
| GestureRelease
| PointerEventsStop
| DebouncerWrite (ev : PointerEvent)
| DebouncerCancel.

Definition is_capture_attempt (c : Call) : bool :=
  match c with TryToCapture => true | _ => false end.

Definition capture_attempts (l : list Call) : nat :=
  List.length (filter is_capture_attempt l).

(** What [pointerDown] returns. *)
Inductive DownResult : Type :=
| ReturnsUndefined
| ReturnsFalse
| ReturnsTrue.

(** The controller.  [debouncer] tells whether a DOM controller was
    given; [pointerEvents] is the object [listen()] obtains, with whether
    its move and up listeners are attached; [calls] is the log, in order. *)
Record PanGesture (D G : Type) : Type := mkPanGesture {
  started : bool;
  captured : bool;
  isListening : bool;
  debouncer : bool;
  gestute : option G;
  detector : option D;
  pointerEvents : option bool;
  calls : list Call
}.

Arguments mkPanGesture {D G}.
Arguments started {D G}.
Arguments captured {D G}.
Arguments isListening {D G}.
Arguments debouncer {D G}.
Arguments gestute {D G}.
Arguments detector {D G}.
Arguments pointerEvents {D G}.
Arguments calls {D G}.

(** The options of the constructor. *)
Record Options (G : Type) : Type := mkOptions {
  threshold : option Q;
  maxAngle : option Q;
  direction : option string;
  domController : bool;
  gesture : option G
}.

Arguments mkOptions {G}.
Arguments threshold {G}.
Arguments maxAngle {G}.
Arguments direction {G}.
Arguments domController {G}.
Arguments gesture {G}.

Section Controller.

Context {D G : Type} `{Recognizer D} `{GestureDelegate G}.

(** The overridable predicate [canStart(ev)]. *)
Variable canStart : PointerEvent -> bool.

Local Abbreviation State := (PanGesture D G).

Definition set_started (v : bool) (s : State) : State :=
  mkPanGesture v (captured s) (isListening s) (debouncer s) (gestute s)
    (detector s) (pointerEvents s) (calls s).
Definition set_captured (v : bool) (s : State) : State :=
  mkPanGesture (started s) v (isListening s) (debouncer s) (gestute s)
    (detector s) (pointerEvents s) (calls s).
Definition set_isListening (v : bool) (s : State) : State :=
  mkPanGesture (started s) (captured s) v (debouncer s) (gestute s)
    (detector s) (pointerEvents s) (calls s).
Definition set_gestute (v : option G) (s : State) : State :=
  mkPanGesture (started s) (captured s) (isListening s) (debouncer s) v
    (detector s) (pointerEvents s) (calls s).
Definition set_detector (v : option D) (s : State) : State :=
  mkPanGesture (started s) (captured s) (isListening s) (debouncer s) (gestute s)
    v (pointerEvents s) (calls s).
Definition set_pointerEvents (v : option bool) (s : State) : State :=
  mkPanGesture (started s) (captured s) (isListening s) (debouncer s) (gestute s)
    (detector s) v (calls s).
Definition log (c : Call) (s : State) : State :=
  mkPanGesture (started s) (captured s) (isListening s) (debouncer s) (gestute s)
    (detector s) (pointerEvents s) (calls s ++ [c]).

(** [defaults(opts, {threshold: 20, maxAngle: 40, direction: 'x', ...})]
    and the rest of the constructor. *)
Definition construct (opts : Options G) : State :=
  let thr := match threshold opts with Some v => v | None => 20 end in
  let ang := match maxAngle opts with Some v => v | None => 40 end in
  let dir := match direction opts with Some v => v | None => "x"%string end in
  mkPanGesture false false false (domController opts) (gesture opts)
    (if Qltb 0 thr then Some (recognizer_new dir thr ang) else None)
    None [].

Definition listen (s : State) : State :=
  if isListening s then s
  else set_isListening true (set_pointerEvents (Some false) s).

(** [this.gestute.release()], which throws without a delegate. *)
Definition gestute_release : M State unit :=
  s <- get ;;
  match gestute s with
  | Some g => modify (fun s => log GestureRelease (set_gestute (Some (gesture_release g)) s))
  | None => throw (TypeError "release")
  end.

(** [this.gestute && this.gestute.release()] *)
Definition gestute_release_if_any : M State unit :=
  s <- get ;;
  match gestute s with
  | Some _ => gestute_release
  | None => ret tt
  end.

Definition tryToCapture (ev : PointerEvent) : M State bool :=
  modify (log TryToCapture) ;;
  s <- get ;;
  let granted :=
    match gestute s with
    | Some g => Some (gesture_capture g)
    | None => None
    end in
  match granted with
  | Some (false, g') =>
    modify (fun s => log (GestureCapture false) (set_gestute (Some g') s)) ;;
    ret false
  | Some (true, g') =>
    modify (fun s => log (GestureCapture true) (set_gestute (Some g') s)) ;;
    modify (log (OnDragStart ev)) ;;
    modify (set_captured true) ;;
    ret true
  | None =>
    modify (log (OnDragStart ev)) ;;
    modify (set_captured true) ;;
    ret true
  end.

Definition abort (ev : PointerEvent) : M State unit :=
  modify (set_started false) ;;
  modify (set_captured false) ;;
  gestute_release ;;
  s <- get ;;
  match pointerEvents s with
  | Some _ =>
    modify (fun s => log PointerEventsStop (set_pointerEvents (Some false) s)) ;;
    modify (log (NotCaptured ev))
  | None => throw (TypeError "stop")
  end.

Definition pointerDown (ev : PointerEvent) : M State DownResult :=
  s <- get ;;
  if started s then ret ReturnsUndefined
  else if negb (canStart ev) then ret ReturnsFalse
  else
    granted <-
      match gestute s with
      | Some g =>
        gestute_release ;;
        s <- get ;;
        match gestute s with
        | Some g =>
          let '(ok, g') := gesture_start g in
          modify (fun s => log (GestureStart ok) (set_gestute (Some g') s)) ;;
          ret ok
        | None => ret true
        end
      | None => ret true
      end ;;
    if negb granted then ret ReturnsFalse
    else
      modify (set_started true) ;;
      modify (set_captured false) ;;
      s <- get ;;
      match detector s with
      | Some d =>
        modify (set_detector (Some (recognizer_start ev d))) ;;
        ret ReturnsTrue
      | None =>
        ok <- tryToCapture ev ;;
        if negb ok then
          modify (set_started false) ;;
          modify (set_captured false) ;;
          gestute_release ;;
          ret ReturnsFalse
        else ret ReturnsTrue
      end.

Definition pointerMove (ev : PointerEvent) : M State unit :=
  s <- get ;;
  if captured s then
    if debouncer s then modify (log (DebouncerWrite ev))
    else throw (TypeError "write")
  else
    match detector s with
    | None => throw (TypeError "detect")
    | Some d =>
      let '(detected, d') := recognizer_detect ev d in
      modify (set_detector (Some d')) ;;
      if detected then
        if negb (Z.eqb (recognizer_pan d') 0) then
          ok <- tryToCapture ev ;;
          if negb ok then abort ev else ret tt
        else ret tt
      else ret tt
    end.

Definition pointerUp (ev : PointerEvent) : M State unit :=
  s <- get ;;
  (if debouncer s then modify (log DebouncerCancel)
   else throw (TypeError "cancel")) ;;
  gestute_release_if_any ;;
  s <- get ;;
  modify (log (if captured s then OnDragEnd ev else NotCaptured ev)) ;;
  modify (set_captured false) ;;
  modify (set_started false).

(** ** The pointer event source *)

Inductive PointerInput : Type :=
| Down (ev : PointerEvent)
| Move (ev : PointerEvent)
| Up (ev : PointerEvent).

(** Modelled from the spec: the pointer event source (util/ui-event-manager)
    is not under src/.  Within one pointer interaction it delivers a down,
    then moves, then an up; moves and the up reach the controller only
    while the listeners of the interaction are attached, which they are from
    an accepted [pointerDown] until the up or until the controller calls
    [stop()] on it. *)
Definition deliver (i : PointerInput) : M State unit :=
  s <- get ;;
  match pointerEvents s, i with
  | Some _, Down ev =>
    r <- pointerDown ev ;;
    match r with
    | ReturnsTrue => modify (set_pointerEvents (Some true))
    | _ => ret tt
    end
  | Some true, Move ev => pointerMove ev
  | Some true, Up ev =>
    modify (set_pointerEvents (Some false)) ;;
    pointerUp ev
  | _, _ => ret tt
  end.

End Controller.

(** ** Collaborators to run the controller with *)

(** Modelled from the spec: the capture-arbitration collaborator
    (gestures/gesture-controller) is not under src/.  A request is refused
    while the gesture is disabled or another consumer holds the capture; at
    most one consumer holds it at a time. *)
Record Arbiter : Type := mkArbiter {
  disabled : bool;
  heldByOther : bool;
  requested : bool;
  held : bool
}.

Definition arbiter_start (a : Arbiter) : bool * Arbiter :=
  if disabled a || heldByOther a
  then (false, mkArbiter (disabled a) (heldByOther a) false (held a))
  else (true, mkArbiter (disabled a) (heldByOther a) true (held a)).

Definition arbiter_capture (a : Arbiter) : bool * Arbiter :=
  if disabled a || heldByOther a
  then (false, mkArbiter (disabled a) (heldByOther a) false (held a))
  else (true, mkArbiter (disabled a) (heldByOther a) false true).

Definition arbiter_release (a : Arbiter) : Arbiter :=
  mkArbiter (disabled a) (heldByOther a) false false.

#[export] Instance Arbiter_delegate : GestureDelegate Arbiter := {
  gesture_start := arbiter_start;
  gesture_capture := arbiter_capture;
  gesture_release := arbiter_release;
  gesture_destroy := arbiter_release
}.

(** A one-axis recognizer to exercise the controller with: it commits once
    the horizontal displacement reaches the threshold and reports its
    sign. *)
Record AxisRecognizer : Type := mkAxisRecognizer {
  thresholdPx : Q;
  startX : Q;
  dirty : bool;
  panDirection : Z
}.

Definition axis_detect (ev : PointerEvent) (d : AxisRecognizer) : bool * AxisRecognizer :=
  if negb (dirty d) then (false, d)
  else
    let deltaX := px ev - startX d in
    if Qle_bool (thresholdPx d) (Qabs deltaX)
    then (true, mkAxisRecognizer (thresholdPx d) (startX d) false
                  (if Qltb 0 deltaX then 1 else -1))
    else (false, d).

#[export] Instance AxisRecognizer_recognizer : Recognizer AxisRecognizer := {
  recognizer_new := fun _ thr _ => mkAxisRecognizer thr 0 false 0;
  recognizer_start := fun ev d => mkAxisRecognizer (thresholdPx d) (px ev) true 0;
  recognizer_detect := axis_detect;
  recognizer_pan := panDirection
}.

Definition always (ev : PointerEvent) : bool := true.

(** A listening controller with the default threshold and a free gesture,
    and one whose gesture is disabled. *)
Definition idle_controller : PanGesture AxisRecognizer Arbiter :=
  listen (construct (mkOptions None None None true
                       (Some (mkArbiter false false false false)))).

Definition disabled_gesture : PanGesture AxisRecognizer Arbiter :=
  listen (construct (mkOptions None None None true
                       (Some (mkArbiter true false false false)))).

(** Another consumer takes the capture. *)
Definition rival_captures (s : PanGesture AxisRecognizer Arbiter) :
  PanGesture AxisRecognizer Arbiter :=
  match gestute s with
  | Some a => set_gestute (Some (mkArbiter (disabled a) true (requested a) (held a))) s
  | None => s
  end.

(** A pointer goes down at x = 0 on [idle_controller], then a rival takes
    the capture. *)
Definition contended : PanGesture AxisRecognizer Arbiter :=
  rival_captures (state_of (deliver always (Down (mkPointerEvent 0 0)) idle_controller)).

End Pan.

(* ================================================================== *)
(** * Radio group (components/radio/radio-group, radio-button) *)

Module Radio.

(** The values a radio button or group may carry. *)
Inductive JsValue : Type :=
| VUndefined
| VNull
| VBool (b : bool)
| VNum (n : Q)
| VStr (s : string).

(** A radio button.  [_item] is the ['item-radio-checked'] class of the
    enclosing item, for a button placed inside one. *)
Record RadioButton : Type := mkRadioButton {
  id : string;
  _value : JsValue;
  _checked : bool;
  _disabled : bool;
  _item : option bool
}.

(** The group: its buttons in registration order, its value, and the
    [aria-activedescendant] attribute of its element. *)
Record RadioGroup : Type := mkRadioGroup {
  _btns : list RadioButton;
  value : JsValue;
  activedescendant : option string;
  _init : bool
}.

Section Group.

(** The helpers of util/util, which is not part of the sources at hand. *)
Variable isBlank : JsValue -> bool.
Variable isCheckedProperty : JsValue -> JsValue -> bool.
Variable isTrueProperty : JsValue -> bool.

(** [get value()] of a button. *)
Definition rb_value (rb : RadioButton) : JsValue :=
  if isBlank (_value rb) then VStr (id rb) else _value rb.

(** [set checked(isChecked)] of a button. *)
Definition set_checked (isChecked : JsValue) (rb : RadioButton) : RadioButton :=
  let c := isTrueProperty isChecked in
  mkRadioButton (id rb) (_value rb) c (_disabled rb)
    (match _item rb with Some _ => Some c | None => None end).

(** The [forEach] of [_update]: [hasChecked] is the closure variable,
    [active] the attribute [_setActive] writes. *)
Fixpoint update_buttons (v : JsValue) (hasChecked : bool) (active : option string)
  (btns : list RadioButton) : list RadioButton * option string :=
  match btns with
  | [] => ([], active)
  | radioButton :: rest =>
    let radioButton :=
      set_checked (VBool (isCheckedProperty v (rb_value radioButton) && negb hasChecked))
        radioButton in
    if _checked radioButton then
      let '(rest', active') := update_buttons v true (Some (id radioButton)) rest in
      (radioButton :: rest', active')
    else
      let '(rest', active') := update_buttons v hasChecked active rest in
      (radioButton :: rest', active')
  end.

Definition _update (g : RadioGroup) : RadioGroup :=
  let '(btns, active) := update_buttons (value g) false (activedescendant g) (_btns g) in
  mkRadioGroup btns (value g) active (_init g).

End Group.

Definition checked_count (btns : list RadioButton) : nat :=
  List.length (filter _checked btns).

(** Stand-ins for the helpers, to run the group with: blank is undefined
    or null, two values match when they are the same string, number or
    boolean, and a value is a true property when it is [true] or the string
    ["true"]. *)
Definition sample_isBlank (v : JsValue) : bool :=
  match v with VUndefined | VNull => true | _ => false end.

Definition sample_isCheckedProperty (a b : JsValue) : bool :=
  match a, b with
  | VStr x, VStr y => String.eqb x y
  | VNum x, VNum y => Qeq_bool x y
  | VBool x, VBool y => Bool.eqb x y
  | VUndefined, VUndefined | VNull, VNull => true
  | _, _ => false
  end.

Definition sample_isTrueProperty (v : JsValue) : bool :=
  match v with
  | VBool b => b
  | VStr s => String.eqb s "true"
  | _ => false
  end.

(** Three buttons, the last two with the same value, in a group with that
    value. *)
Definition twin_buttons : RadioGroup :=
  mkRadioGroup
    [mkRadioButton "rb-0-0" (VStr "cord") true false None;
     mkRadioButton "rb-0-1" (VStr "hudson") false false None;
     mkRadioButton "rb-0-2" (VStr "hudson") true false None]
    (VStr "hudson") None true.

End Radio.

(* ================================================================== *)
(** * A sliding item driven by its callers *)

Module SlidingSession.
Import JsNum Js Sliding.

(** What reaches the component from outside: the drag gesture calls
    [startSliding], [moveSliding] and [endSliding], the list or the
    application calls [close], time passes, and animation frames run.  An
    [endSliding] that throws leaves the row as it was at the throw. *)
Inductive Op : Type :=
| OpStart (startX : Q)
| OpMove (x : Q)
| OpEnd (velocity : Q)
| OpClose
| OpWait (ms : nat)
| OpFrame.

Definition apply_op (policy : bool -> bool -> bool -> bool) (w : World) (o : Op) : World :=
  match o with
  | OpStart startX => startSliding startX w
  | OpMove x => snd (moveSliding x w)
  | OpEnd velocity => state_of (endSliding policy velocity w)
  | OpClose => close w
  | OpWait ms => advance ms w
  | OpFrame => animationFrame w
  end.

Definition run (policy : bool -> bool -> bool -> bool) (ops : list Op) (w : World) : World :=
  fold_left (apply_op policy) ops w.

(** Whether some panel of the list is on the given side. *)
Definition has_side (sd : Z) (itemOptions : list ItemOptions) : bool :=
  existsb (fun o => Z.eqb (getSides o) sd) itemOptions.

(** The swipe events among the emitted ones. *)
Definition swipe_of_state (state : Z) : list Emitted :=
  if negb (Z.eqb (Z.land state SwipeRight) 0) then [IonSwipeRight]
  else if negb (Z.eqb (Z.land state SwipeLeft) 0) then [IonSwipeLeft]
  else [].

(** Whether the state carries the swipe bit of a panel the row does not
    have, the one [fireSwipeEvent] would read [ionSwipe] of. *)
Definition swipe_panel_missing (i : ItemSliding) : bool :=
  if negb (Z.eqb (Z.land (_state i) SwipeRight) 0) then
    match _rightOptions i with Some _ => false | None => true end
  else if negb (Z.eqb (Z.land (_state i) SwipeLeft) 0) then
    match _leftOptions i with Some _ => false | None => true end
  else false.

(** A row without option panels, dragged 100 px to the left: the first
    move finds the widths stale, the next frame computes them as 0, and
    the second move leaves the amount 55 and the state Right with the
    swipe bit. *)
Definition panelless_swipe : World :=
  let w := startSliding 100 (constructed, loaded) in
  let w := snd (moveSliding 100 w) in
  let w := animationFrame w in
  snd (moveSliding 0 w).

(** A pending auto-disable timeout means the row is closed. *)
Definition closed_while_pending (w : World) : Prop :=
  _timer (fst w) <> None -> _openAmount (fst w) == 0.

End SlidingSession.

(* ================================================================== *)
(** * A [scrollTo] animation over its frames *)

Module ScrollAnimation.
Import JsNum Js Scroll.
Local Open Scope js_scope.

(** Steps [k], [k+1], ... of the closure, each at the time stamp of its
    frame, for as long as the step asks for another frame; [fuel] bounds
    their number.  The result is the number of the last step and the
    closure after it, or [None] when the fuel did not suffice. *)
Fixpoint run_steps (clk : nat -> num) (k fuel : nat) (a : Animation) :
  M ScrollView (option (nat * Animation)) :=
  match fuel with
  | O => ret None
  | S fuel' =>
    r <- step (clk k) a ;;
    if snd r then run_steps clk (S k) fuel' (fst r)
    else ret (Some (S k, fst r))
  end.

(** The animation from the frame [rafFrames] waits for. *)
Definition animate (clk : nat -> num) (fuel : nat) (a : Animation) :
  M ScrollView (option (nat * Animation)) :=
  run_steps clk 0%nat fuel (set_startTime (clk 0%nat) a).

(** The fraction of the duration elapsed, capped at 1, and the cubic
    ease-out of it, as [step] computes them on finite numbers. *)
Definition elapsed_fraction (timeStamp startTime duration : Q) : Q :=
  Math_min 1 ((timeStamp + - startTime) / duration).

Definition easeOutCubic (time : Q) : Q :=
  (time - 1) * (time - 1) * (time - 1) + 1.

(** The largest number of steps the attempt budget allows. *)
Definition step_budget (maxAttempts : Q) : nat :=
  S (Z.to_nat (Qfloor maxAttempts)).

(** [scrollTo(0, 100, 300)] on a native view at the top of the page, at
    the start of its first frame at time 0. *)
Definition sample_animation : Animation :=
  mkAnimation (Fin 0) (Fin 100) (Fin 300) (Fin 0) (Fin 0)
    (Fin (300 / 16 + 100)) (Fin 0) 0 DoneOmitted.

Definition animating : ScrollView := set_isScrolling true (native_view page_node).

End ScrollAnimation.

(* ================================================================== *)
(** * Pointer interactions on the pan controller *)

Module PanSession.
Import JsNum Js Pan.
Local Open Scope js_scope.

Definition is_drag_start (c : Call) : bool :=
  match c with OnDragStart _ => true | _ => false end.

Definition is_drag_end (c : Call) : bool :=
  match c with OnDragEnd _ => true | _ => false end.

Definition count_calls (p : Call -> bool) (l : list Call) : nat :=
  List.length (filter p l).

(** Whether the delegate holds a grant after a call: a granted [start()]
    or [capture()] gives one, [release()] returns it. *)
Definition grant_after (holding : bool) (c : Call) : bool :=
  match c with
  | GestureStart true | GestureCapture true => true
  | GestureRelease => false
  | _ => holding
  end.

Definition outstanding (l : list Call) : bool := fold_left grant_after l false.

Arguments count_calls : simpl never.
Arguments outstanding : simpl never.

Section Session.

Context {D G : Type} `{Recognizer D} `{GestureDelegate G}.

Variable canStart : PointerEvent -> bool.

(** The pointer inputs of a run, delivered in order; a throwing handler
    ends the run. *)
Definition deliver_all (inputs : list PointerInput) : M (PanGesture D G) unit :=
  for_each inputs (deliver canStart).

(** What holds of a listening controller between two pointer inputs. *)
Definition between_inputs (s : PanGesture D G) : Prop :=
  debouncer s = true /\
  pointerEvents s = Some (started s) /\
  (captured s = true -> started s = true) /\
  (started s = true -> captured s = false -> detector s <> None) /\
  count_calls is_drag_start (calls s)
    = (count_calls is_drag_end (calls s) + (if captured s then 1 else 0))%nat /\
  (started s = false -> outstanding (calls s) = false) /\
  (gestute s = None -> outstanding (calls s) = false).

End Session.

End PanSession.

(* ================================================================== *)
(** * The radio group in use: clicks, form writes and initialisation *)

Module RadioSession.
Import Radio.

(** A group with what it has emitted on [ionChange], oldest first, and the
    number of calls of [onTouched]. *)
Record GroupWorld : Type := mkGroupWorld {
  group : RadioGroup;
  ionChange : list JsValue;
  touched : nat
}.

Definition set_value (v : JsValue) (g : RadioGroup) : RadioGroup :=
  mkRadioGroup (_btns g) v (activedescendant g) (_init g).
Definition set_init (v : bool) (g : RadioGroup) : RadioGroup :=
  mkRadioGroup (_btns g) (value g) (activedescendant g) v.
Definition set_btns (v : list RadioButton) (g : RadioGroup) : RadioGroup :=
  mkRadioGroup v (value g) (activedescendant g) (_init g).

(** [_setActive(radioButton)] *)
Definition _setActive (rb : RadioButton) (g : RadioGroup) : RadioGroup :=
  mkRadioGroup (_btns g) (value g) (Some (id rb)) (_init g).

(** The list with its [i]-th element replaced, unchanged when there is
    none. *)
Fixpoint replace_nth {A : Type} (i : nat) (x : A) (l : list A) : list A :=
  match l, i with
  | [], _ => []
  | _ :: l', O => x :: l'
  | a :: l', S i' => a :: replace_nth i' x l'
  end.

Section Session.

Variable isBlank : JsValue -> bool.
Variable isCheckedProperty : JsValue -> JsValue -> bool.
Variable isTrueProperty : JsValue -> bool.
Variable isPresent : JsValue -> bool.

Local Abbreviation update := (_update isBlank isCheckedProperty isTrueProperty).

(** [onChange(val)] as the class defines it, used when no form control
    has registered its own. *)
Definition onChange (val : JsValue) (w : GroupWorld) : GroupWorld :=
  let g := update (set_value val (group w)) in
  mkGroupWorld g (ionChange w ++ [val]) (S (touched w)).

Definition writeValue (val : JsValue) (w : GroupWorld) : GroupWorld :=
  let g := set_value val (group w) in
  let w :=
    if _init g
    then mkGroupWorld (update g) (ionChange w ++ [val]) (S (touched w))
    else mkGroupWorld g (ionChange w) (touched w) in
  mkGroupWorld (set_init true (group w)) (ionChange w) (touched w).

(** [ngAfterContentInit()] *)
Definition ngAfterContentInit (g : RadioGroup) : RadioGroup :=
  match find _checked (_btns g) with
  | Some activeButton => _setActive activeButton g
  | None => g
  end.

(** [ngOnInit()] of a button registered with the group [g]. *)
Definition ngOnInit (g : RadioGroup) (rb : RadioButton) : RadioButton :=
  if isPresent (value g)
  then set_checked isTrueProperty
         (VBool (isCheckedProperty (value g) (rb_value isBlank rb))) rb
  else rb.

(** [_click(ev)] on the [i]-th registered button: the button checks
    itself and emits its value on [ionSelect], to which the group
    subscribed in [add] with a call of [onChange]. *)
Definition _click (i : nat) (w : GroupWorld) : GroupWorld :=
  match nth_error (_btns (group w)) i with
  | None => w
  | Some rb =>
    let rb := set_checked isTrueProperty (VBool true) rb in
    let g := set_btns (replace_nth i rb (_btns (group w))) (group w) in
    onChange (rb_value isBlank rb) (mkGroupWorld g (ionChange w) (touched w))
  end.

(** Successive form writes. *)
Definition write_all (vals : list JsValue) (w : GroupWorld) : GroupWorld :=
  fold_left (fun w val => writeValue val w) vals w.

End Session.

(** A group bound to a form: not yet written to, no button checked. *)
Definition fresh_group : GroupWorld :=
  mkGroupWorld
    (mkRadioGroup
       [mkRadioButton "rb-0-0" (VStr "cord") false false None;
        mkRadioButton "rb-0-1" (VStr "hudson") false false None;
        mkRadioButton "rb-0-2" (VStr "hudson") false false None]
       VUndefined None false)
    [] 0.

Definition sample_isPresent (v : JsValue) : bool :=
  match v with VUndefined | VNull => false | _ => true end.

End RadioSession.

(* ================================================================== *)
(** * Icon (components/icon/icon) *)

Module Icon.
Import Js.
Local Open Scope js_scope.

(** What an input of the directive may be bound to. *)
Inductive JsString : Type :=
| SUndefined
| SNull
| SStr (s : string).

(** The conversion string concatenation and [RegExp.test] apply. *)
Definition to_string (v : JsString) : string :=
  match v with
  | SUndefined => "undefined"
  | SNull => "null"
  | SStr s => s
  end.

Definition truthy (v : JsString) : bool :=
  match v with
  | SStr s => negb (String.eqb s "")
  | _ => false
  end.

(** [v === s] for a string literal [s]. *)
Definition is_literal (v : JsString) (s : string) : bool :=
  match v with
  | SStr t => String.eqb t s
  | _ => false
  end.

(** [s.indexOf(sub) < 0] *)
Definition lacks (sub s : string) : bool :=
  match String.index 0 sub s with
  | Some _ => false
  | None => true
  end.

(** [s.split('-', 2)[0]] *)
Definition first_segment (s : string) : string :=
  match String.index 0 "-" s with
  | Some n => String.substring 0 n s
  | None => s
  end.

(** [s.replace(pattern, by)] for a string pattern: the first occurrence. *)
Definition replace (pattern by_ s : string) : string :=
  match String.index 0 pattern s with
  | Some n =>
    String.append (String.substring 0 n s)
      (String.append by_
         (String.substring (n + String.length pattern)
            (String.length s - (n + String.length pattern)) s))
  | None => s
  end.

(** [/^md-|^ios-|^logo-/.test(val)] *)
Definition has_mode_prefix (val : JsString) : bool :=
  let s := to_string val in
  String.prefix "md-" s || String.prefix "ios-" s || String.prefix "logo-" s.

(** Calls the directive makes on the renderer, through [Ion]. *)
Inductive RenderCall : Type :=
| SetElementClass (className : string) (isAdd : bool)
| SetElementAttribute (attributeName attributeValue : string).

Record Icon : Type := mkIcon {
  _iconMode : JsString;
  _isActive : bool;
  _name : JsString;
  _ios : JsString;
  _md : JsString;
  _css : string;
  _hidden : bool;
  rendered : list RenderCall
}.

Definition set__isActive (v : bool) (i : Icon) : Icon :=
  mkIcon (_iconMode i) v (_name i) (_ios i) (_md i) (_css i) (_hidden i) (rendered i).
Definition set__name (v : JsString) (i : Icon) : Icon :=
  mkIcon (_iconMode i) (_isActive i) v (_ios i) (_md i) (_css i) (_hidden i) (rendered i).
Definition set__ios (v : JsString) (i : Icon) : Icon :=
  mkIcon (_iconMode i) (_isActive i) (_name i) v (_md i) (_css i) (_hidden i) (rendered i).
Definition set__md (v : JsString) (i : Icon) : Icon :=
  mkIcon (_iconMode i) (_isActive i) (_name i) (_ios i) v (_css i) (_hidden i) (rendered i).
Definition set__css (v : string) (i : Icon) : Icon :=
  mkIcon (_iconMode i) (_isActive i) (_name i) (_ios i) (_md i) v (_hidden i) (rendered i).
Definition set__hidden (v : bool) (i : Icon) : Icon :=
  mkIcon (_iconMode i) (_isActive i) (_name i) (_ios i) (_md i) (_css i) v (rendered i).
Definition render (c : RenderCall) (i : Icon) : Icon :=
  mkIcon (_iconMode i) (_isActive i) (_name i) (_ios i) (_md i) (_css i) (_hidden i)
    (rendered i ++ [c]).

(** The constructor, with what [config.get('iconMode')] gave. *)
Definition construct (iconMode : JsString) : Icon :=
  mkIcon iconMode true (SStr "") (SStr "") (SStr "") "" false [].

Definition update : M Icon unit :=
  i <- get ;;
  let name :=
    if truthy (_ios i) && is_literal (_iconMode i) "ios" then _ios i
    else if truthy (_md i) && is_literal (_iconMode i) "md" then _md i
    else _name i in
  match name with
  | SNull => modify (set__hidden true)
  | SUndefined =>
    modify (set__hidden false) ;;
    throw (TypeError "split")
  | SStr name =>
    modify (set__hidden false) ;;
    let iconMode := first_segment name in
    let name :=
      if String.eqb iconMode "ios" && negb (_isActive i)
         && lacks "logo-" name && lacks "-outline" name
      then String.append name "-outline"
      else name in
    let css := String.append "ion-" name in
    if String.eqb (_css i) css then ret tt
    else
      (if negb (String.eqb (_css i) "")
       then modify (render (SetElementClass (_css i) false))
       else ret tt) ;;
      modify (set__css css) ;;
      modify (render (SetElementClass css true)) ;;
      let label := replace "-" " " (replace "md-" "" (replace "ios-" "" name)) in
      modify (render (SetElementAttribute "aria-label" label))
  end.

Definition ngOnDestroy : M Icon unit :=
  i <- get ;;
  if negb (String.eqb (_css i) "")
  then modify (render (SetElementClass (_css i) false))
  else ret tt.

Section Inputs.

(** [isTrueProperty] of util/util, which is not part of the sources at
    hand. *)
Variable isTrueProperty : JsString -> bool.

(** The input setters. *)
Inductive Input : Type :=
| Name (val : JsString)
| Ios (val : JsString)
| Md (val : JsString)
| IsActive (val : JsString).

Definition set_input (inp : Input) : M Icon unit :=
  match inp with
  | Name val =>
    i <- get ;;
    (if negb (has_mode_prefix val)
     then modify (set__name
                    (SStr (String.append (to_string (_iconMode i))
                             (String.append "-" (to_string val)))))
     else modify (set__name val)) ;;
    update
  | Ios val => modify (set__ios val) ;; update
  | Md val => modify (set__md val) ;; update
  | IsActive val => modify (set__isActive (isTrueProperty val)) ;; update
  end.

Definition set_inputs (inputs : list Input) : M Icon unit :=
  for_each inputs set_input.

End Inputs.

(** The class list of the element after a series of renderer calls:
    adding a class that is present and removing one that is absent change
    nothing. *)
Definition apply_render (classes : list string) (c : RenderCall) : list string :=
  match c with
  | SetElementClass className true =>
    if existsb (String.eqb className) classes then classes
    else classes ++ [className]
  | SetElementClass className false =>
    filter (fun c => negb (String.eqb c className)) classes
  | SetElementAttribute _ _ => classes
  end.

Definition classes_of (calls : list RenderCall) : list string :=
  fold_left apply_render calls [].

Arguments classes_of : simpl never.

(** What holds of an icon between two input changes. *)
Definition settled (i : Icon) : Prop :=
  _hidden i = false /\
  (exists s, _name i = SStr s) /\
  classes_of (rendered i) = (if String.eqb (_css i) "" then [] else [_css i]) /\
  (_css i = ""%string \/ String.prefix "ion-" (_css i) = true).

Definition sample_isTrueProperty (v : JsString) : bool :=
  match v with
  | SStr s => String.eqb s "true"
  | _ => false
  end.

End Icon.

(* ================================================================== *)
(** * Synthetic scrolling: the touch handlers of [enableJsScroll] *)

Module ScrollTouch.
Import JsNum Js Scroll.
Local Open Scope js_scope.

(** The view with the rest of what the touch handlers use: the samples
    of the [positions] array of the closure, oldest first, each the
    pointer's y and the event's time stamp (the code keeps them flat, two
    entries per sample); the [startY] and [deltaY] fields of the event
    record; and the number of [setTop(self._t)] callbacks handed to the
    DOM controller for the write phase. *)
Record TouchView : Type := mkTouchView {
  view : ScrollView;
  positions : list (num * num);
  ev_startY : num;
  ev_deltaY : num;
  topWrites : nat
}.

Definition set_view (v : ScrollView) (w : TouchView) : TouchView :=
  mkTouchView v (positions w) (ev_startY w) (ev_deltaY w) (topWrites w).
Definition set_positions (v : list (num * num)) (w : TouchView) : TouchView :=
  mkTouchView (view w) v (ev_startY w) (ev_deltaY w) (topWrites w).
Definition set_ev_startY (v : num) (w : TouchView) : TouchView :=
  mkTouchView (view w) (positions w) v (ev_deltaY w) (topWrites w).
Definition set_ev_deltaY (v : num) (w : TouchView) : TouchView :=
  mkTouchView (view w) (positions w) (ev_startY w) v (topWrites w).
Definition set_topWrites (v : nat) (w : TouchView) : TouchView :=
  mkTouchView (view w) (positions w) (ev_startY w) (ev_deltaY w) v.

(** A method of the view, run on the view inside. *)
Definition lift {A : Type} (c : M ScrollView A) : M TouchView A :=
  fun w =>
    match c (view w) with
    | Ok a s => Ok a (set_view s w)
    | Throw e s => Throw e (set_view s w)
    end.

Definition push (y timeStamp : num) : M TouchView unit :=
  modify (fun w => set_positions (positions w ++ [(y, timeStamp)]) w).

(** The latest sample, if any. *)
Definition latest (ps : list (num * num)) : option (num * num) :=
  match rev ps with
  | p :: _ => Some p
  | [] => None
  end.

(** The y and the time stamp of sample [k]; reading past the end of the
    array gives [undefined], which is [NaN] in arithmetic and false in
    every comparison. *)
Definition sample_y (ps : list (num * num)) (k : nat) : num :=
  match nth_error ps k with
  | Some p => fst p
  | None => NaN
  end.

Definition sample_time (ps : list (num * num)) (k : nat) : num :=
  match nth_error ps k with
  | Some p => snd p
  | None => NaN
  end.

(** The loop [for (i = endPos; i > 0 && positions[i] > timeRange; i -= 2)
    startPos = i], on sample numbers: [k] is the sample [i] points to. *)
Fixpoint scan (timeRange : num) (ps : list (num * num)) (k startPos : nat) : nat :=
  match k with
  | O => if gt (sample_time ps 0) timeRange then 0%nat else startPos
  | S k' =>
    if gt (sample_time ps k) timeRange
    then scan timeRange ps k' k
    else startPos
  end.

Definition jsScrollTouchStart (y timeStamp : num) : M TouchView unit :=
  modify (set_positions []) ;;
  lift (modify (set_max MaxNull)) ;;
  w <- get ;;
  lift (dom_cancel (rafCancel (view w))) ;;
  push y timeStamp.

Definition jsScrollTouchMove (y timeStamp : num) : M TouchView unit :=
  w <- get ;;
  match latest (positions w) with
  | None => ret tt
  | Some previous =>
    lift (modify (fun s => set_ev (set_ev_timeStamp timeStamp (ev s)) s)) ;;
    lift setMax ;;
    lift (modify (fun s => set_t (sub (_t s) (sub y (fst previous))) s)) ;;
    lift (modify (fun s =>
      set_t (min (JsNum.max (_t s) (Fin 0)) (max_num (max s))) s)) ;;
    push y timeStamp ;;
    w <- get ;;
    (if negb (isScrolling (view w)) then
       modify (fun w => set_ev_startY (_t (view w)) w) ;;
       modify (set_ev_deltaY (Fin 0)) ;;
       lift (modify (fun s => set_ev (set_ev_velocityY (Fin 0) (ev s)) s)) ;;
       lift (modify (set_isScrolling true)) ;;
       lift (modify (fun s => notify (ScrollStartN (ev s)) s))
     else ret tt) ;;
    modify (fun w => set_topWrites (S (topWrites w)) w)
  end.

Definition end_scroll : M ScrollView unit :=
  modify (set_isScrolling false) ;;
  modify (fun s =>
    set_ev (set_ev_velocityY (Fin 0) (set_ev_velocityX (Fin 0) (ev s))) s) ;;
  modify (fun s => notify (ScrollEndN (ev s)) s).

Definition jsScrollTouchEnd (y timeStamp : num) : M TouchView unit :=
  w <- get ;;
  lift (dom_cancel (rafCancel (view w))) ;;
  if Nat.eqb (List.length (positions w)) 0 && isScrolling (view w)
  then lift end_scroll
  else
    push y timeStamp ;;
    w <- get ;;
    let ps := positions w in
    let endPos := (List.length ps - 1)%nat in
    let timeRange := sub timeStamp (Fin 100) in
    let startPos := scan timeRange ps endPos endPos in
    (if negb (Nat.eqb startPos endPos) then
       let timeOffset := sub (sample_time ps endPos) (sample_time ps startPos) in
       let movedTop := sub (sample_y ps startPos) (sample_y ps endPos) in
       lift (modify (fun s =>
         set_ev (set_ev_velocityY (mul (divn movedTop timeOffset) (Fin FRAME_MS))
                   (ev s)) s)) ;;
       w <- get ;;
       if gt (abs (ev_velocityY (ev (view w)))) (Fin MIN_VELOCITY_START_DECELERATION)
       then
         lift setMax ;;
         h <- lift dom_read ;;
         lift (modify (set_rafCancel (Some h)))
       else ret tt
     else
       lift (modify (set_isScrolling false)) ;;
       lift (modify (fun s => set_ev (set_ev_velocityY (Fin 0) (ev s)) s)) ;;
       lift (modify (fun s => notify (ScrollEndN (ev s)) s))) ;;
    modify (set_positions []).

(** The write phase runs the queued [setTop(self._t)] callbacks. *)
Fixpoint run_top_writes (n : nat) : M ScrollView unit :=
  match n with
  | O => ret tt
  | S n' => (s <- get ;; setTop (_t s)) ;; run_top_writes n'
  end.

Definition write_phase : M TouchView unit :=
  w <- get ;;
  modify (set_topWrites 0) ;;
  lift (run_top_writes (topWrites w)).

(** The bound [setMax] computes from the layout. *)
Definition layout_max (s : ScrollView) : num :=
  add (add (sub (scrollHeight (node s)) (parentOffsetHeight (node s)))
         (contentTop s))
    (contentBottom s).

Definition scroll_starts (l : list Notification) : nat :=
  List.length (filter (fun n => match n with ScrollStartN _ => true | _ => false end) l).

(** A drag: the touch start and the moves that follow it, each a
    pointer y and a time stamp. *)
Definition drag (y0 t0 : Q) (moves : list (Q * Q)) : M TouchView unit :=
  jsScrollTouchStart (Fin y0) (Fin t0) ;;
  for_each moves (fun p => jsScrollTouchMove (Fin (fst p)) (Fin (snd p))).

(** The synthetic view over [page_node] at rest, as [init] leaves it. *)
Definition at_rest : TouchView :=
  mkTouchView (js_view page_node) [] (Fin 0) (Fin 0) 0.

(** A slow drag of 12 px over 48 ms on [at_rest]. *)
Definition dragged_slowly : TouchView :=
  state_of (drag 300 0 [(290, 16); (289, 32); (288, 48)] at_rest).

(** Content 500 px high in a viewport of 600: the bound [setMax]
    computes is -100. *)
Definition short_node : Element :=
  mkElement (Fin 0) (Fin 0) NoTransform (Fin 500) (Fin 600).

(** A quick drag of 200 px over 32 ms on such a view, released. *)
Definition flung_short : ScrollView :=
  view (state_of
          ((drag 300 0 [(200, 16)] ;; jsScrollTouchEnd (Fin 100) (Fin 32))
             (mkTouchView (js_view short_node) [] (Fin 0) (Fin 0) 0))).

(** Three samples, the first of them older than the other two. *)
Definition paused_samples : list (num * num) :=
  [(Fin 300, Fin 0); (Fin 290, Fin 160); (Fin 280, Fin 176)].

End ScrollTouch.

(* ================================================================== *)
(** * Properties of the sliding item *)

Module SlidingFacts.
Import JsNum Js Sliding.

Lemma Qltb_true (a b : Q) : Qltb a b = true <-> a < b.
Proof.
  unfold Qltb. rewrite negb_true_iff.
  split; intro H.
  - apply Qnot_le_lt. intro L. apply Qle_bool_iff in L. congruence.
  - destruct (Qle_bool b a) eqn:E; trivial.
    apply Qle_bool_iff in E. apply Qlt_not_le in H. contradiction.
Qed.

Lemma Qltb_false (a b : Q) : Qltb a b = false <-> b <= a.
Proof.
  unfold Qltb. rewrite negb_false_iff. apply Qle_bool_iff.
Qed.

Lemma Qltb_spec (a b : Q) : BoolSpec (a < b) (b <= a) (Qltb a b).
Proof.
  destruct (Qltb a b) eqn:E; constructor.
  - now apply Qltb_true.
  - now apply Qltb_false.
Qed.

Lemma Qeq_bool_spec (a b : Q) : BoolSpec (a == b) (~ a == b) (Qeq_bool a b).
Proof.
  destruct (Qeq_bool a b) eqn:E; constructor.
  - now apply Qeq_bool_iff.
  - now apply Qeq_bool_neq.
Qed.

Lemma Math_max_0_spec (a : Q) :
  0 <= Math_max 0 a /\ (0 <= a -> Math_max 0 a == a) /\ (a <= 0 -> Math_max 0 a == 0).
Proof.
  unfold Math_max. destruct (Qltb_spec 0 a); repeat split; intros; lra.
Qed.

Lemma Math_min_0_spec (a : Q) :
  Math_min 0 a <= 0 /\ (a <= 0 -> Math_min 0 a == a) /\ (0 <= a -> Math_min 0 a == 0).
Proof.
  unfold Math_min. destruct (Qltb_spec a 0); repeat split; intros; lra.
Qed.

Lemma _setState_state (st : Z) (i : ItemSliding) : _state (_setState st i) = st.
Proof.
  unfold _setState. destruct (Z.eqb_spec st (_state i)); cbn; congruence.
Qed.

Lemma _setState_fields (st : Z) (i : ItemSliding) :
  _openAmount (_setState st i) = _openAmount i /\
  _timer (_setState st i) = _timer i /\
  _optsWidthRightSide (_setState st i) = _optsWidthRightSide i /\
  _optsWidthLeftSide (_setState st i) = _optsWidthLeftSide i.
Proof.
  unfold _setState. destruct (Z.eqb st (_state i)); cbn; auto.
Qed.

(** [_setOpenAmount] stores exactly the amount it is given. *)
Lemma _setOpenAmount_stores (a : Q) (f : bool) (w : World) :
  _openAmount (fst (_setOpenAmount a f w)) = a.
Proof.
  unfold _setOpenAmount.
  destruct (cancelTimer w) as [i p].
  destruct f; cbn.
  - destruct (Qeq_bool a 0); cbn; trivial.
  - destruct (Qltb 0 a); [|destruct (Qltb a 0)];
      destruct (Qeq_bool a 0); cbn;
      rewrite ?(proj1 (_setState_fields _ _)); trivial.
Qed.

(** C1. With fresh panel widths, [moveSliding x] takes [startX - x],
    clamps it to be non-negative with only a right panel and non-positive
    with only a left panel (no clamp with both), and an excess [d] beyond
    the panel width is stored and returned as [width + d * 0.55], negated
    on the left side; inside the panel range the amount is kept as is. *)
Theorem moveSliding_clamp_elastic :
  forall (x : Q) (w : World),
    _optsDirty (fst w) = false ->
    0 <= _optsWidthRightSide (fst w) ->
    0 <= _optsWidthLeftSide (fst w) ->
    let raw := _startX (fst w) - x in
    let clamped := clampSides (_sides (fst w)) raw in
    let right := _optsWidthRightSide (fst w) in
    let left := _optsWidthLeftSide (fst w) in
    exists r : Q,
      fst (moveSliding x w) = Some r /\
      _openAmount (fst (snd (moveSliding x w))) = r /\
      (_sides (fst w) = SideRight ->
         0 <= clamped /\ (0 <= raw -> clamped == raw) /\ (raw <= 0 -> clamped == 0)) /\
      (_sides (fst w) = SideLeft ->
         clamped <= 0 /\ (raw <= 0 -> clamped == raw) /\ (0 <= raw -> clamped == 0)) /\
      (_sides (fst w) = SideBoth -> clamped = raw) /\
      (forall d, 0 < d -> clamped == right + d -> r == right + d * (55 # 100)) /\
      (forall d, 0 < d -> clamped == - left - d -> r == - (left + d * (55 # 100))) /\
      (- left <= clamped <= right -> r == clamped).
Proof.
  intros x w Hfresh Hr Hl raw clamped right left.
  exists (elastic right left clamped).
  unfold moveSliding. rewrite Hfresh. cbn [fst snd].
  split; [reflexivity|]. split; [apply _setOpenAmount_stores|].
  split; [|split; [|split]].
  - intro Hs. unfold clamped, clampSides. rewrite Hs. cbn.
    apply Math_max_0_spec.
  - intro Hs. unfold clamped, clampSides. rewrite Hs. cbn.
    apply Math_min_0_spec.
  - intro Hs. unfold clamped, clampSides. rewrite Hs. reflexivity.
  - unfold elastic, ELASTIC_FACTOR. fold right in Hr. fold left in Hl.
    clearbody clamped right left.
    repeat split.
    + intros d Hd Hc.
      destruct (Qltb_spec right clamped); [lra|].
      destruct (Qltb_spec clamped (- left)); lra.
    + intros d Hd Hc.
      destruct (Qltb_spec right clamped); [lra|].
      destruct (Qltb_spec clamped (- left)); lra.
    + intros [H1 H2].
      destruct (Qltb_spec right clamped); [lra|].
      destruct (Qltb_spec clamped (- left)); lra.
Qed.

Lemma moveSliding_clamp_elastic_witness :
  exists r : Q,
    fst (moveSliding 0 (mkItemSliding 0 100 80 0 None false Enabled SideRight
                          (Some 80) None, loaded)) = Some r /\
    r == 91.
Proof.
  destruct (moveSliding_clamp_elastic 0
              (mkItemSliding 0 100 80 0 None false Enabled SideRight (Some 80) None,
               loaded))
    as (r & Hret & _ & _ & _ & _ & Hex & _).
  - reflexivity.
  - cbn. lra.
  - cbn. lra.
  - exists r. split; [exact Hret|].
    rewrite (Hex 20); [reflexivity | reflexivity | reflexivity].
Defined.

Lemma fireSwipeEvent_item (w : World) :
  fst (state_of (fireSwipeEvent w)) = fst w.
Proof.
  unfold fireSwipeEvent.
  destruct (negb _); [destruct (_rightOptions (fst w)); reflexivity|].
  destruct (negb _); [destruct (_leftOptions (fst w)); reflexivity|reflexivity].
Qed.

Lemma endSliding_state (policy : bool -> bool -> bool -> bool) (velocity : Q)
  (w : World) :
  exists restingPoint : Q,
    state_of (endSliding policy velocity w)
    = state_of (fireSwipeEvent (_setOpenAmount restingPoint true w)).
Proof.
  unfold endSliding.
  match goal with
  | |- context [fireSwipeEvent (_setOpenAmount ?r true w)] => exists r
  end.
  destruct (fireSwipeEvent _); reflexivity.
Qed.

(** The three signals, as the comparisons they stand for. *)
Lemma isResetDirection_spec (openAmount velocity : Q) :
  isResetDirection openAmount velocity = true <->
  (0 < openAmount <-> ~ velocity < 0).
Proof.
  unfold isResetDirection.
  destruct (Qltb_spec 0 openAmount) as [Ho|Ho];
    destruct (Qltb_spec velocity 0) as [Hv|Hv]; cbn;
    split; intro H; try reflexivity; try discriminate.
  - exfalso. apply (proj1 H Ho). exact Hv.
  - split; [intros _ Hlt; lra|intros _; exact Ho].
  - split; [intro Hlt; lra|intro Hn; exfalso; apply Hn; exact Hv].
  - exfalso. apply Qle_not_lt in Ho. apply Ho. apply (proj2 H). lra.
Qed.

Lemma isMovingFast_spec (velocity : Q) :
  isMovingFast velocity = true <-> 3 # 10 < Qabs velocity.
Proof. unfold isMovingFast. apply Qltb_true. Qed.

Lemma isOnCloseZone_spec (openAmount restingPoint : Q) :
  isOnCloseZone openAmount restingPoint = true <->
  Qabs openAmount < Qabs (restingPoint / 2).
Proof. unfold isOnCloseZone. apply Qltb_true. Qed.

Lemma bool_of_iff (b : bool) (P : Prop) :
  (b = true <-> P) -> (P -> b = true) /\ (~ P -> b = false).
Proof.
  intros [H1 H2]. split; [exact H2|].
  intro Hn. destruct b; [exfalso; apply Hn, H1; reflexivity|reflexivity].
Qed.

(** What [fireSwipeEvent] does after the resting point is stored. *)
Lemma endSliding_outcome (policy : bool -> bool -> bool -> bool) (velocity : Q)
  (w : World) :
  let openAmount := _openAmount (fst w) in
  let full :=
    if Qltb 0 openAmount
    then _optsWidthRightSide (fst w) else - _optsWidthLeftSide (fst w) in
  let restingPoint :=
    if policy (isResetDirection openAmount velocity) (isMovingFast velocity)
         (isOnCloseZone openAmount full)
    then 0 else full in
  let stored := _setOpenAmount restingPoint true w in
  _state (fst stored) = _state (fst w) /\
  _rightOptions (fst stored) = _rightOptions (fst w) /\
  _leftOptions (fst stored) = _leftOptions (fst w) /\
  _openAmount (fst stored) = restingPoint /\
  endSliding policy velocity w
  = match fireSwipeEvent stored with
    | Ok _ w' => Ok restingPoint w'
    | Throw e w' => Throw e w'
    end.
Proof.
  intros openAmount full restingPoint stored.
  assert (Hst : _state (fst stored) = _state (fst w) /\
                _rightOptions (fst stored) = _rightOptions (fst w) /\
                _leftOptions (fst stored) = _leftOptions (fst w)).
  { unfold stored, _setOpenAmount, cancelTimer, nativeTimeout.
    destruct w as [[oa sx wr wl tm od st sd ro lo] p]. cbn.
    destruct tm; cbn; destruct (Qeq_bool restingPoint 0); cbn; repeat split. }
  destruct Hst as (H1 & H2 & H3).
  split; [exact H1|]. split; [exact H2|]. split; [exact H3|].
  split; [apply _setOpenAmount_stores|reflexivity].
Qed.

Section EndSliding.

Variable swipeShouldReset : bool -> bool -> bool -> bool.

(** C2. [endSliding] takes the full panel width of the open side, the
    right width for a positive open amount and minus the left width
    otherwise, and decides between it and 0 by the policy applied to three
    signals: whether the sign of the open amount agrees with the velocity
    not being negative, whether |velocity| > 0.3, and whether the open
    amount is short of half the full width.  The resting point is stored as
    the open amount and is what the call returns; it returns unless the
    state carries a swipe bit for a panel the row does not have.  Released
    at rest at 0.6 of the right panel width the signals are (true, false,
    false) and the item settles fully open; at 0.3 they are (true, false,
    true) and it settles closed.  The policy function is not part of the
    sources at hand, so its two rows enter as hypotheses. *)
Theorem endSliding_resting_point :
  forall (velocity : Q) (w : World),
    let openAmount := _openAmount (fst w) in
    let right := _optsWidthRightSide (fst w) in
    let left := _optsWidthLeftSide (fst w) in
    let settled := endSliding swipeShouldReset velocity w in
    exists (full : Q) (resetDirection movingFast onCloseZone : bool),
      (0 < openAmount -> full = right) /\
      (~ 0 < openAmount -> full = - left) /\
      (resetDirection = true <-> (0 < openAmount <-> ~ velocity < 0)) /\
      (movingFast = true <-> 3 # 10 < Qabs velocity) /\
      (onCloseZone = true <-> Qabs openAmount < Qabs (full / 2)) /\
      let restingPoint :=
        if swipeShouldReset resetDirection movingFast onCloseZone then 0 else full in
      _openAmount (fst (state_of settled)) = restingPoint /\
      (forall r w', settled = Ok r w' -> r = restingPoint) /\
      ((Z.land (_state (fst w)) SwipeRight <> 0%Z -> _rightOptions (fst w) <> None) ->
       (Z.land (_state (fst w)) SwipeRight = 0%Z ->
        Z.land (_state (fst w)) SwipeLeft <> 0%Z -> _leftOptions (fst w) <> None) ->
       exists w', settled = Ok restingPoint w') /\
      (forall panelWidth : Q,
          0 < panelWidth -> right == panelWidth -> velocity == 0 ->
          (openAmount == panelWidth * (6 # 10) ->
           (resetDirection = true /\ movingFast = false /\ onCloseZone = false) /\
           (swipeShouldReset true false false = false -> restingPoint == panelWidth)) /\
          (openAmount == panelWidth * (3 # 10) ->
           (resetDirection = true /\ movingFast = false /\ onCloseZone = true) /\
           (swipeShouldReset true false true = true -> restingPoint == 0))).
Proof.
  intros velocity w openAmount right left settled.
  destruct (endSliding_outcome swipeShouldReset velocity w)
    as (Hst & Hro & Hlo & Hstored & Hend).
  fold openAmount in Hst, Hro, Hlo, Hstored, Hend.
  set (full := if Qltb 0 openAmount
               then _optsWidthRightSide (fst w) else - _optsWidthLeftSide (fst w)) in *.
  exists full, (isResetDirection openAmount velocity), (isMovingFast velocity),
    (isOnCloseZone openAmount full).
  assert (Hfull : 0 < openAmount -> full = right).
  { intro Hpos. unfold full. now rewrite (proj2 (Qltb_true _ _) Hpos). }
  split; [exact Hfull|]. split.
  { intro Hn. unfold full. rewrite (proj2 (Qltb_false _ _)); [reflexivity|].
    apply Qnot_lt_le. exact Hn. }
  split; [apply isResetDirection_spec|].
  split; [apply isMovingFast_spec|].
  split; [apply isOnCloseZone_spec|].
  cbv zeta.
  set (restingPoint := if swipeShouldReset (isResetDirection openAmount velocity)
                            (isMovingFast velocity) (isOnCloseZone openAmount full)
                       then 0 else full) in *.
  set (stored := _setOpenAmount restingPoint true w) in *.
  split; [|split; [|split]].
  - unfold settled. rewrite Hend.
    rewrite <- Hstored, <- (fireSwipeEvent_item stored).
    destruct (fireSwipeEvent stored); reflexivity.
  - intros r w' Hok. unfold settled in Hok. rewrite Hend in Hok.
    destruct (fireSwipeEvent stored); inversion Hok. reflexivity.
  - intros Hright Hleft. unfold settled. rewrite Hend.
    unfold fireSwipeEvent. rewrite Hst, Hro, Hlo.
    destruct (Z.eqb (Z.land (_state (fst w)) SwipeRight) 0) eqn:Er; cbn [negb].
    + apply Z.eqb_eq in Er.
      destruct (Z.eqb (Z.land (_state (fst w)) SwipeLeft) 0) eqn:El; cbn [negb].
      * eexists. reflexivity.
      * apply Z.eqb_neq in El.
        destruct (_leftOptions (fst w)) eqn:Ep;
          [eexists; reflexivity|exfalso; apply (Hleft Er El); reflexivity].
    + apply Z.eqb_neq in Er.
      destruct (_rightOptions (fst w)) eqn:Ep;
        [eexists; reflexivity|exfalso; apply (Hright Er); reflexivity].
  - intros pw Hpw Hr Hv.
    assert (Hslow : isMovingFast velocity = false).
    { apply (bool_of_iff _ _ (isMovingFast_spec velocity)).
      intro Hfast. rewrite Hv in Hfast. cbn in Hfast. lra. }
    assert (Hdir : 0 < openAmount -> isResetDirection openAmount velocity = true).
    { intro Hpos. apply isResetDirection_spec.
      split; [intros _ Hlt; lra|intros _; exact Hpos]. }
    assert (Hhalf : 0 < openAmount -> Qabs (full / 2) == pw * (1 # 2)).
    { intro Hpos. rewrite (Hfull Hpos).
      assert (E : right / 2 == pw * (1 # 2)) by (rewrite Hr; field).
      rewrite E. apply Qabs_pos. lra. }
    split; intros Hoa.
    + assert (Hpos : 0 < openAmount) by (clearbody openAmount; lra).
      assert (Hzone : isOnCloseZone openAmount full = false).
      { apply (bool_of_iff _ _ (isOnCloseZone_spec openAmount full)).
        rewrite (Hhalf Hpos), (Qabs_pos openAmount); clearbody openAmount; lra. }
      split; [split; [exact (Hdir Hpos)|split; [exact Hslow|exact Hzone]]|].
      intro Hrow. unfold restingPoint.
      rewrite (Hdir Hpos), Hslow, Hzone, Hrow, (Hfull Hpos). exact Hr.
    + assert (Hpos : 0 < openAmount) by (clearbody openAmount; lra).
      assert (Hzone : isOnCloseZone openAmount full = true).
      { apply isOnCloseZone_spec.
        rewrite (Hhalf Hpos), (Qabs_pos openAmount); clearbody openAmount; lra. }
      split; [split; [exact (Hdir Hpos)|split; [exact Hslow|exact Hzone]]|].
      intro Hrow. unfold restingPoint.
      rewrite (Hdir Hpos), Hslow, Hzone, Hrow. reflexivity.
Qed.

End EndSliding.

(** A row with a 100 px panel on the right, released at rest at 60 px and
    at 30 px. *)
Lemma endSliding_resting_point_witness :
  (exists r w',
      endSliding samplePolicy 0
        (mkItemSliding 60 0 100 0 None false Right SideRight (Some 100) None, loaded)
      = Ok r w' /\ r == 100) /\
  (exists r w',
      endSliding samplePolicy 0
        (mkItemSliding 30 0 100 0 None false Right SideRight (Some 100) None, loaded)
      = Ok r w' /\ r == 0).
Proof.
  split.
  - destruct (endSliding_resting_point samplePolicy 0
                (mkItemSliding 60 0 100 0 None false Right SideRight (Some 100) None,
                 loaded))
      as (full & rd & mf & oc & _ & _ & _ & _ & _ & _ & _ & Hret & Hex).
    destruct Hret as (w' & Hok); [intro Hbit; exfalso; apply Hbit; reflexivity
                                 |intros _ Hbit; exfalso; apply Hbit; reflexivity|].
    destruct (Hex 100) as [Hopen _]; [reflexivity|reflexivity|reflexivity|].
    destruct Hopen as [_ Hopen]; [reflexivity|].
    eexists. exists w'. split; [exact Hok|]. apply Hopen. reflexivity.
  - destruct (endSliding_resting_point samplePolicy 0
                (mkItemSliding 30 0 100 0 None false Right SideRight (Some 100) None,
                 loaded))
      as (full & rd & mf & oc & _ & _ & _ & _ & _ & _ & _ & Hret & Hex).
    destruct Hret as (w' & Hok); [intro Hbit; exfalso; apply Hbit; reflexivity
                                 |intros _ Hbit; exfalso; apply Hbit; reflexivity|].
    destruct (Hex 100) as [_ Hclosed]; [reflexivity|reflexivity|reflexivity|].
    destruct Hclosed as [_ Hclosed]; [reflexivity|].
    eexists. exists w'. split; [exact Hok|]. apply Hclosed. reflexivity.
Defined.

(** ** The auto-disable timer *)

Lemma cancelTimer_owned (w : World) :
  timer_owned w ->
  _timer (fst (cancelTimer w)) = None /\
  timeouts (snd (cancelTimer w)) = [] /\
  clock (snd (cancelTimer w)) = clock (snd w) /\
  nextHandle (snd (cancelTimer w)) = nextHandle (snd w) /\
  _state (fst (cancelTimer w)) = _state (fst w) /\
  _openAmount (fst (cancelTimer w)) = _openAmount (fst w).
Proof.
  destruct w as [i p]. unfold timer_owned, cancelTimer. cbn [fst snd].
  destruct (_timer i) as [h|] eqn:E.
  - intros [d Hd]. cbn. rewrite Hd. cbn. rewrite Pos.eqb_refl. cbn.
    repeat split.
  - intro Hd. cbn. repeat split; assumption.
Qed.

(** Settling at zero arms one timeout, 600ms from now. *)
Lemma _setOpenAmount_zero_arms (a : Q) (f : bool) (w : World) :
  timer_owned w -> a == 0 ->
  let w1 := _setOpenAmount a f w in
  _timer (fst w1) = Some (nextHandle (snd w)) /\
  timeouts (snd w1) = [(nextHandle (snd w), (clock (snd w) + 600)%nat)] /\
  clock (snd w1) = clock (snd w) /\
  nextHandle (snd w1) = Pos.succ (nextHandle (snd w)) /\
  _state (fst w1) = _state (fst w).
Proof.
  intros Hown Ha.
  destruct (cancelTimer_owned w Hown) as (Ht & Hq & Hc & Hn & Hs & _).
  unfold _setOpenAmount.
  destruct (cancelTimer w) as [i p]. cbn [fst snd] in *.
  assert (H1 : Qltb 0 a = false) by (apply Qltb_false; lra).
  assert (H2 : Qltb a 0 = false) by (apply Qltb_false; lra).
  assert (H3 : Qeq_bool a 0 = true) by (now apply Qeq_bool_iff).
  rewrite H1, H2, H3.
  destruct f; cbn; rewrite Hq, Hc, Hn, Hs; auto.
Qed.

(** Any other amount leaves no timeout pending. *)
Lemma _setOpenAmount_nonzero_clears (a : Q) (f : bool) (w : World) :
  timer_owned w -> ~ a == 0 ->
  let w1 := _setOpenAmount a f w in
  _timer (fst w1) = None /\ timeouts (snd w1) = [].
Proof.
  intros Hown Ha.
  destruct (cancelTimer_owned w Hown) as (Ht & Hq & _).
  unfold _setOpenAmount.
  destruct (cancelTimer w) as [i p]. cbn [fst snd] in *.
  assert (H3 : Qeq_bool a 0 = false).
  { destruct (Qeq_bool_spec a 0); [contradiction|reflexivity]. }
  rewrite H3.
  destruct f; cbn.
  - destruct (dragObservers p); cbn; auto.
  - destruct (Qltb 0 a); [|destruct (Qltb a 0)];
      destruct (dragObservers p); cbn;
      rewrite ?(proj1 (proj2 (_setState_fields _ _))); auto.
Qed.

Lemma startSliding_cancels (x : Q) (w : World) :
  timer_owned w ->
  _timer (fst (startSliding x w)) = None /\
  timeouts (snd (startSliding x w)) = [] /\
  (_openAmount (fst w) == 0 -> _state (fst (startSliding x w)) = Enabled).
Proof.
  intro Hown.
  destruct (cancelTimer_owned w Hown) as (Ht & Hq & _ & _ & _ & Ho).
  unfold startSliding.
  destruct (cancelTimer w) as [i p]. cbn [fst snd] in *.
  destruct (Qeq_bool_spec (_openAmount i) 0) as [Hz|Hz]; cbn.
  - rewrite (proj1 (proj2 (_setState_fields _ _))). cbn.
    repeat split; auto. intros _. apply _setState_state.
  - repeat split; auto. rewrite <- Ho. intro. contradiction.
Qed.

(** Time passing with nothing pending changes nothing in the component. *)
Lemma advance_idle (dt : nat) (w : World) :
  timeouts (snd w) = [] ->
  fst (advance dt w) = fst w /\ timeouts (snd (advance dt w)) = [].
Proof.
  intro Hq. unfold advance. cbn. rewrite Hq. cbn. auto.
Qed.

Lemma advance_before (dt : nat) (w : World) (h : positive) (d : nat) :
  timeouts (snd w) = [(h, d)] -> (clock (snd w) + dt < d)%nat ->
  fst (advance dt w) = fst w /\
  timeouts (snd (advance dt w)) = [(h, d)] /\
  clock (snd (advance dt w)) = (clock (snd w) + dt)%nat /\
  nextHandle (snd (advance dt w)) = nextHandle (snd w).
Proof.
  intros Hq Hlt. unfold advance. cbn. rewrite Hq. cbn. unfold expire. cbn.
  destruct (Nat.leb_spec d (clock (snd w) + dt)); [lia|]. cbn. auto.
Qed.

Lemma advance_expired (dt : nat) (w : World) (h : positive) (d : nat) :
  timeouts (snd w) = [(h, d)] -> (d <= clock (snd w) + dt)%nat ->
  fst (advance dt w) = disableCallback (fst w) /\
  timeouts (snd (advance dt w)) = [].
Proof.
  intros Hq Hle. unfold advance. cbn. rewrite Hq. cbn. unfold expire. cbn.
  destruct (Nat.leb_spec d (clock (snd w) + dt)); [|lia]. cbn.
  rewrite Hq. cbn. rewrite Pos.eqb_refl. auto.
Qed.

Lemma disableCallback_spec (i : ItemSliding) :
  _state (disableCallback i) = Disabled /\ _timer (disableCallback i) = None.
Proof.
  unfold disableCallback. cbn. split; [|reflexivity].
  apply _setState_state.
Qed.

(** The ownership invariant is established by the constructor and kept by
    every entry point and by the passage of time. *)
Lemma timer_owned_constructed : timer_owned (constructed, loaded).
Proof. reflexivity. Qed.

Lemma timer_owned__setOpenAmount (a : Q) (f : bool) (w : World) :
  timer_owned w -> timer_owned (_setOpenAmount a f w).
Proof.
  intro Hown. unfold timer_owned.
  destruct (Qeq_bool_spec a 0) as [Hz|Hz].
  - destruct (_setOpenAmount_zero_arms a f w Hown Hz) as (Ht & Hq & _).
    rewrite Ht, Hq. eauto.
  - destruct (_setOpenAmount_nonzero_clears a f w Hown Hz) as (Ht & Hq).
    rewrite Ht, Hq. reflexivity.
Qed.

Lemma timer_owned_startSliding (x : Q) (w : World) :
  timer_owned w -> timer_owned (startSliding x w).
Proof.
  intro Hown. unfold timer_owned.
  destruct (startSliding_cancels x w Hown) as (Ht & Hq & _).
  rewrite Ht, Hq. reflexivity.
Qed.

Lemma timer_owned_advance (dt : nat) (w : World) :
  timer_owned w -> timer_owned (advance dt w).
Proof.
  intro Hown. unfold timer_owned in *.
  destruct (_timer (fst w)) as [h|] eqn:E.
  - destruct Hown as [d Hd].
    destruct (Nat.leb_spec d (clock (snd w) + dt)) as [Hle|Hlt].
    + destruct (advance_expired dt w h d Hd Hle) as (Hi & Hq).
      rewrite Hi, Hq, (proj2 (disableCallback_spec _)). reflexivity.
    + destruct (advance_before dt w h d Hd Hlt) as (Hi & Hq & _).
      rewrite Hi, Hq, E. eauto.
  - destruct (advance_idle dt w Hown) as (Hi & Hq).
    rewrite Hi, Hq, E. reflexivity.
Qed.

Lemma timer_owned_moveSliding (x : Q) (w : World) :
  timer_owned w -> timer_owned (snd (moveSliding x w)).
Proof.
  intro Hown. unfold moveSliding.
  destruct (_optsDirty (fst w)); cbn [snd].
  - exact Hown.
  - now apply timer_owned__setOpenAmount.
Qed.

Lemma timer_owned_endSliding (policy : bool -> bool -> bool -> bool)
  (velocity : Q) (w : World) :
  timer_owned w -> timer_owned (state_of (endSliding policy velocity w)).
Proof.
  intro Hown. destruct (endSliding_state policy velocity w) as (r & ->).
  match goal with |- timer_owned (state_of (fireSwipeEvent ?u)) =>
    assert (Hu : timer_owned u) by (now apply timer_owned__setOpenAmount);
    revert Hu; generalize u end.
  intros u Hu. unfold fireSwipeEvent.
  destruct (negb _); [destruct (_rightOptions (fst u)); exact Hu|].
  destruct (negb _); [destruct (_leftOptions (fst u)); exact Hu|exact Hu].
Qed.

(** C7. Settling at zero arms a 600ms timeout; left alone it fires
    exactly when 600ms have passed and sets the state to [Disabled].  A
    [startSliding] or an open-amount update before that removes the pending
    timeout from the timer table: after [startSliding], and after an update to
    a non-zero amount, nothing is pending and no amount of waiting changes
    the component (after [startSliding] the state is [Enabled]); an update
    that is itself a settle at zero replaces the timeout by a fresh one
    counted from the update. *)
Theorem auto_disable_timer :
  forall (w : World) (a : Q) (isFinal : bool),
    timer_owned w -> a == 0 ->
    let w1 := _setOpenAmount a isFinal w in
    exists h : positive,
      _timer (fst w1) = Some h /\
      timeouts (snd w1) = [(h, (clock (snd w) + 600)%nat)] /\
      (forall dt, (dt < 600)%nat -> fst (advance dt w1) = fst w1) /\
      (forall dt, (600 <= dt)%nat ->
         _state (fst (advance dt w1)) = Disabled /\
         _timer (fst (advance dt w1)) = None /\
         timeouts (snd (advance dt w1)) = []) /\
      (forall dt x, (dt < 600)%nat ->
         let w2 := startSliding x (advance dt w1) in
         _timer (fst w2) = None /\ timeouts (snd w2) = [] /\
         _state (fst w2) = Enabled /\
         forall dt', fst (advance dt' w2) = fst w2) /\
      (forall dt b f, (dt < 600)%nat ->
         let w2 := _setOpenAmount b f (advance dt w1) in
         ~ In h (map fst (timeouts (snd w2))) /\
         (~ b == 0 ->
            _timer (fst w2) = None /\ timeouts (snd w2) = [] /\
            forall dt', fst (advance dt' w2) = fst w2) /\
         (b == 0 ->
            timeouts (snd w2) = [(Pos.succ h, (clock (snd w) + dt + 600)%nat)] /\
            forall dt', (dt' < 600)%nat -> fst (advance dt' w2) = fst w2)).
Proof.
  intros w a isFinal Hown Ha w1.
  destruct (_setOpenAmount_zero_arms a isFinal w Hown Ha) as (Ht & Hq & Hc & Hn & Hs).
  fold w1 in Ht, Hq, Hc, Hn, Hs.
  assert (Hown1 : timer_owned w1) by (now apply timer_owned__setOpenAmount).
  exists (nextHandle (snd w)).
  split; [exact Ht|]. split; [exact Hq|].
  assert (Hbefore : forall dt, (dt < 600)%nat ->
            fst (advance dt w1) = fst w1 /\
            timeouts (snd (advance dt w1)) = [(nextHandle (snd w), (clock (snd w) + 600)%nat)] /\
            clock (snd (advance dt w1)) = (clock (snd w) + dt)%nat /\
            nextHandle (snd (advance dt w1)) = Pos.succ (nextHandle (snd w))).
  { intros dt Hdt.
    destruct (advance_before dt w1 _ _ Hq) as (Hi & Hq' & Hc' & Hn'); [lia|].
    rewrite Hi, Hq', Hc', Hn', Hc, Hn. auto. }
  split; [intros dt Hdt; apply (Hbefore dt Hdt)|].
  split.
  { intros dt Hdt.
    destruct (advance_expired dt w1 _ _ Hq) as (Hi & Hq'); [lia|].
    rewrite Hi, Hq'. destruct (disableCallback_spec (fst w1)). auto. }
  split.
  { intros dt x Hdt w2.
    destruct (Hbefore dt Hdt) as (Hi & _).
    assert (Hown2 : timer_owned (advance dt w1)) by (now apply timer_owned_advance).
    destruct (startSliding_cancels x _ Hown2) as (Ht2 & Hq2 & Hs2).
    fold w2 in Ht2, Hq2, Hs2.
    split; [exact Ht2|]. split; [exact Hq2|]. split.
    - apply Hs2. rewrite Hi. unfold w1. rewrite _setOpenAmount_stores. exact Ha.
    - intro dt'. apply (advance_idle dt' w2 Hq2). }
  intros dt b f Hdt w2.
  destruct (Hbefore dt Hdt) as (Hi & Hq' & Hc' & Hn').
  assert (Hown2 : timer_owned (advance dt w1)) by (now apply timer_owned_advance).
  assert (Hcases :
            (~ b == 0 ->
             _timer (fst w2) = None /\ timeouts (snd w2) = [] /\
             forall dt', fst (advance dt' w2) = fst w2) /\
            (b == 0 ->
             timeouts (snd w2) =
               [(Pos.succ (nextHandle (snd w)), (clock (snd w) + dt + 600)%nat)] /\
             forall dt', (dt' < 600)%nat -> fst (advance dt' w2) = fst w2)).
  { split; intro Hb.
    - destruct (_setOpenAmount_nonzero_clears b f _ Hown2 Hb) as (Ht2 & Hq2).
      fold w2 in Ht2, Hq2. repeat split; auto.
      intro dt'. apply (advance_idle dt' w2 Hq2).
    - destruct (_setOpenAmount_zero_arms b f _ Hown2 Hb) as (Ht2 & Hq2 & Hc2 & _).
      fold w2 in Ht2, Hq2, Hc2. rewrite Hn', Hc' in Hq2.
      split; [exact Hq2|].
      intros dt' Hdt'.
      apply (advance_before dt' w2 _ _ Hq2). rewrite Hc2, Hc'. lia. }
  split; [|exact Hcases].
  destruct (Qeq_bool_spec b 0) as [Hb|Hb].
  - rewrite (proj1 (proj2 Hcases Hb)). cbn. intros [E|[]].
    apply (Pos.succ_discr (nextHandle (snd w))). symmetry. exact E.
  - rewrite (proj1 (proj2 (proj1 Hcases Hb))). intros [].
Qed.

Lemma auto_disable_timer_witness :
  _state (fst (advance 600 (close (set_state Enabled constructed, loaded)))) = Disabled /\
  _state (fst (advance 600
                 (startSliding 10
                    (advance 599 (close (set_state Enabled constructed, loaded))))))
    = Enabled.
Proof.
  destruct (auto_disable_timer (set_state Enabled constructed, loaded) 0 true)
    as (h & _ & _ & _ & Hfire & Hstart & _).
  - reflexivity.
  - reflexivity.
  - split.
    + apply (Hfire 600%nat). lia.
    + destruct (Hstart 599%nat 10) as (_ & _ & Hen & Hkeep); [lia|].
      unfold close. rewrite Hkeep. exact Hen.
Defined.

(** ** The sliding percentage *)

Lemma div_spec (a b : Q) :
  (~ b == 0 -> div a b = Fin (a / b)) /\
  (b == 0 -> 0 < a -> div a b = PInf) /\
  (b == 0 -> a < 0 -> div a b = NInf) /\
  (b == 0 -> a == 0 -> div a b = NaN).
Proof.
  unfold div.
  destruct (Qeq_bool_spec b 0) as [Hb|Hb];
    destruct (Qeq_bool_spec a 0) as [Ha|Ha];
    destruct (Qltb_spec 0 a) as [Hp|Hp];
    repeat split; intros; try reflexivity; try contradiction; try lra.
Qed.

End SlidingFacts.

(* ================================================================== *)
(** * Properties of the scroll view *)

Module ScrollFacts.
Import JsNum Js Scroll.
Import SlidingFacts.

(** The clamp of the deceleration loop stays inside [[0, m]]. *)
Lemma clamp_range (a m : Q) :
  0 <= m -> 0 <= Math_min (Math_max a 0) m <= m.
Proof.
  intro Hm. unfold Math_min, Math_max.
  destruct (Qltb_spec a 0); [destruct (Qltb_spec m 0)|destruct (Qltb_spec m a)]; lra.
Qed.

(** What [setMax] leaves in [max], given the bound it settles on. *)
Lemma settled_max_cases (s : ScrollView) (m : Q) :
  settled_max s = Fin m ->
  (max s = MaxNum (Fin m) /\ Qeq_bool m 0 = false) \/
  (max_truthy (max s) = false /\
   add (add (sub (scrollHeight (node s)) (parentOffsetHeight (node s)))
          (contentTop s)) (contentBottom s) = Fin m).
Proof.
  unfold settled_max, setMax, modify. cbn.
  destruct (max_truthy (max s)) eqn:E; cbn; intro H.
  - left. destruct (max s) as [| |n]; cbn in *; try discriminate.
    subst n. cbn in E. split; [reflexivity|].
    now apply negb_true_iff in E.
  - right. auto.
Qed.

Lemma jsScrollDecelerate_frame (ts : num) (s : ScrollView) (t v m : Q) :
  _t s = Fin t -> ev_velocityY (ev s) = Fin v -> settled_max s = Fin m ->
  ~ v == 0 ->
  let v' := v * (97 # 100) in
  let t' := Math_min (Math_max (t + v') 0) m in
  let e' := mkScrollEvent ts (Fin t') (Fin v') (ev_velocityX (ev s)) in
  jsScrollDecelerate ts s =
  Ok tt (mkScrollView (isScrolling s) (Fin t') (_l s) (_js s) (_el s) (node s) e'
           (MaxNum (Fin m)) (rafCancel s) (contentTop s) (contentBottom s)
           (reads s) (writes s ++ [WDecelerate]) (nextTask s)
           (ScrollN e' :: notified s) (completions s)).
Proof.
  intros Ht Hv Hm Hv0 v' t' e'.
  assert (Hz : Qeq_bool v 0 = false).
  { destruct (Qeq_bool_spec v 0); [contradiction|reflexivity]. }
  destruct (settled_max_cases s m Hm) as [[Hmx Hm0]|[Hmx Hdom]];
    destruct s as [scr st sl js el nd e mx rc ct cb rs ws nt ns cp];
    destruct e as [ets etop evy evx];
    cbn in Ht, Hv, Hmx; subst st evy.
  - subst mx.
    unfold jsScrollDecelerate, setMax, dom_write, bind, get, modify, ret. cbn.
    rewrite Hz. cbn. rewrite Hm0. cbn.
    subst e' t' v'. unfold Math_min, Math_max, DECELERATION_FRICTION.
    destruct (Qltb (t + v * (97 # 100)) 0); cbn;
      [destruct (Qltb m 0) | destruct (Qltb m (t + v * (97 # 100)))]; reflexivity.
  - cbn in Hdom.
    unfold jsScrollDecelerate, setMax, dom_write, bind, get, modify, ret. cbn.
    rewrite Hz. cbn. rewrite Hmx. cbn. rewrite Hdom. cbn.
    subst e' t' v'. unfold Math_min, Math_max, DECELERATION_FRICTION.
    destruct (Qltb (t + v * (97 # 100)) 0); cbn;
      [destruct (Qltb m 0) | destruct (Qltb m (t + v * (97 # 100)))]; reflexivity.
Qed.

Lemma decelerateWrite_frame (s : ScrollView) (t' v' m : Q) :
  _js s = true -> _el s = true -> _t s = Fin t' ->
  ev_velocityY (ev s) = Fin v' -> max s = MaxNum (Fin m) ->
  let moved :=
    set_styleTransform
      (Translate3d (mul (_l s) (Fin (-1))) (Fin (t' * -1)) (Fin 0)) (node s) in
  decelerateWrite s =
  Ok tt
    (if continues t' v' m
     then mkScrollView (isScrolling s) (Fin t') (_l s) true true moved (ev s)
            (max s) (Some (nextTask s)) (contentTop s) (contentBottom s)
            (reads s ++ [nextTask s]) (writes s) (Pos.succ (nextTask s))
            (notified s) (completions s)
     else
       let e' := mkScrollEvent (ev_timeStamp (ev s)) (ev_scrollTop (ev s))
                   (Fin 0) (Fin 0) in
       mkScrollView false (Fin t') (_l s) true true moved e'
            (max s) (rafCancel s) (contentTop s) (contentBottom s)
            (reads s) (writes s) (nextTask s)
            (ScrollEndN e' :: notified s) (completions s)).
Proof.
  intros Hjs Hel Ht Hv Hmx moved.
  destruct s as [scr st sl js el nd e mx rc ct cb rs ws nt ns cp].
  destruct e as [ets etop evy evx].
  cbn in Hjs, Hel, Ht, Hv, Hmx. subst js el st evy mx.
  unfold decelerateWrite, setTop, the_element, dom_read, bind, get, modify, ret.
  cbn. unfold continues, gt, lt, MIN_VELOCITY_CONTINUE_DECELERATION.
  destruct (Qltb 0 t' && Qltb t' m && Qltb (12 # 100) (Qabs v')); reflexivity.
Qed.

Lemma settled_max_frame (s s' : ScrollView) (m : Q) :
  settled_max s = Fin m ->
  max s' = MaxNum (Fin m) ->
  scrollHeight (node s') = scrollHeight (node s) ->
  parentOffsetHeight (node s') = parentOffsetHeight (node s) ->
  contentTop s' = contentTop s -> contentBottom s' = contentBottom s ->
  settled_max s' = Fin m.
Proof.
  intros Hm Hmx H1 H2 H3 H4.
  destruct (settled_max_cases s m Hm) as [[_ Hm0]|[_ Hdom]];
    unfold settled_max, setMax, modify; cbn; rewrite Hmx; cbn.
  - rewrite Hm0. cbn. rewrite Hmx. reflexivity.
  - destruct (negb (Qeq_bool m 0)); cbn.
    + rewrite Hmx. reflexivity.
    + rewrite H1, H2, H3, H4. exact Hdom.
Qed.

Lemma settled_max_congr (s s' : ScrollView) :
  max s' = max s -> node s' = node s ->
  contentTop s' = contentTop s -> contentBottom s' = contentBottom s ->
  settled_max s' = settled_max s.
Proof.
  intros H1 H2 H3 H4. unfold settled_max, setMax, modify. cbn.
  rewrite H1. destruct (max_truthy (max s)); cbn; congruence.
Qed.

Lemma frame_single (ts : num) (s s1 s2 : ScrollView) (h : positive) :
  reads s = [h] ->
  jsScrollDecelerate ts (set_reads [] s) = Ok tt s1 ->
  writes s1 = [WDecelerate] ->
  decelerateWrite (set_writes [] s1) = Ok tt s2 ->
  frame ts s = Ok tt s2.
Proof.
  intros Hr H1 Hw H2.
  unfold frame, bind, get, modify. rewrite Hr. cbn [for_each].
  unfold bind. rewrite H1. unfold ret. rewrite Hw. cbn [for_each run_write].
  unfold bind. rewrite H2. reflexivity.
Qed.

(** One frame of the loop: the velocity is multiplied by 0.97, the offset
    moves by it and is clamped into [[0, m]], a scroll notification goes
    out, and the loop either queues its next frame or ends with a scroll-end
    notification. *)
Lemma deceleration_frame (ts : num) (s : ScrollView) (t v m : Q) :
  decelerating s t v m -> ~ v == 0 ->
  let v' := v * (97 # 100) in
  let t' := Math_min (Math_max (t + v') 0) m in
  exists s',
    frame ts s = Ok tt s' /\
    _t s' = Fin t' /\ ev_scrollTop (ev s') = Fin t' /\
    styleTransform (node s')
      = Translate3d (mul (_l s) (Fin (-1))) (Fin (t' * -1)) (Fin 0) /\
    _l s' = _l s /\
    (continues t' v' m = true ->
       decelerating s' t' v' m /\ isScrolling s' = isScrolling s /\
       exists e, notified s' = ScrollN e :: notified s /\ ev_velocityY e = Fin v') /\
    (continues t' v' m = false ->
       reads s' = [] /\ writes s' = [] /\ isScrolling s' = false /\
       ev_velocityY (ev s') = Fin 0 /\
       exists e1 e2, notified s' = ScrollEndN e2 :: ScrollN e1 :: notified s).
Proof.
  intros (Hjs & Hel & Ht & Hv & Hm & (h & Hr) & Hw) Hv0 v' t'.
  assert (Hm' : settled_max (set_reads [] s) = Fin m).
  { rewrite <- Hm. apply settled_max_congr; reflexivity. }
  pose proof (jsScrollDecelerate_frame ts (set_reads [] s) t v m Ht Hv Hm' Hv0) as H1.
  cbv zeta in H1. fold v' in H1. fold t' in H1.
  cbn [set_reads isScrolling _l _js _el node ev max rafCancel contentTop
       contentBottom reads writes nextTask notified] in H1.
  rewrite Hw, Hjs, Hel in H1. cbn [app] in H1.
  match type of H1 with _ = Ok tt ?r => set (s1 := r) in H1 end.
  pose proof (decelerateWrite_frame (set_writes [] s1) t' v' m
                eq_refl eq_refl eq_refl eq_refl eq_refl) as H2.
  cbv zeta in H2.
  match type of H2 with _ = Ok tt ?r => set (s2 := r) in H2 end.
  exists s2. split.
  { apply (frame_single ts s s1 s2 h Hr H1 eq_refl H2). }
  unfold s2. destruct (continues t' v' m); cbn.
  - split; [reflexivity|]. split; [reflexivity|]. split; [reflexivity|].
    split; [reflexivity|].
    split; [intros _|intro; discriminate].
    split; [|split; [reflexivity|eexists; split; reflexivity]].
    unfold decelerating. cbn.
    repeat split; eauto.
    apply (settled_max_frame s); try reflexivity. exact Hm.
  - split; [reflexivity|]. split; [reflexivity|]. split; [reflexivity|].
    split; [reflexivity|].
    split; [intro; discriminate|intros _].
    repeat split. eexists. eexists. reflexivity.
Qed.

Lemma friction_pow_pos (n : nat) : 0 < friction_pow n.
Proof.
  induction n as [|n IH]; cbn [friction_pow]; [reflexivity|].
  apply Qmult_lt_0_compat; [reflexivity|exact IH].
Qed.

(** [0.97^n * (97 + 3n) <= 97]: the powers decay at least harmonically. *)
Lemma friction_pow_decay (n : nat) :
  friction_pow n * (97 + 3 * inject_Z (Z.of_nat n)) <= 97.
Proof.
  induction n as [|n IH].
  - cbn [friction_pow Z.of_nat]. change (inject_Z 0) with 0. lra.
  - rewrite Nat2Z.inj_succ. unfold Z.succ. rewrite inject_Z_plus.
    cbn [friction_pow].
    pose proof (friction_pow_pos n) as Hp.
    assert (Hn : 0 <= inject_Z (Z.of_nat n)).
    { change 0 with (inject_Z 0). rewrite <- Zle_Qle. lia. }
    change (inject_Z 1) with 1.
    revert IH Hp Hn.
    generalize (friction_pow n). generalize (inject_Z (Z.of_nat n)).
    intros N p IH Hp Hn.
    nra.
Qed.

Lemma slow_eventually (a : Q) :
  0 <= a -> exists n : nat, a * friction_pow n <= 12 # 100.
Proof.
  intro Ha.
  assert (H0 : 0 <= a * 300) by lra.
  assert (HN : a * 300 <= inject_Z (Z.of_nat (Z.to_nat (Qceiling (a * 300))))).
  { rewrite Z2Nat.id.
    - apply Qle_ceiling.
    - apply Qceiling_resp_le in H0. exact H0. }
  clear H0.
  exists (Z.to_nat (Qceiling (a * 300))).
  pose proof (friction_pow_decay (Z.to_nat (Qceiling (a * 300)))) as Hd.
  pose proof (friction_pow_pos (Z.to_nat (Qceiling (a * 300)))) as Hp.
  revert HN Hd Hp.
  generalize (friction_pow (Z.to_nat (Qceiling (a * 300)))).
  generalize (inject_Z (Z.of_nat (Z.to_nat (Qceiling (a * 300))))).
  intros N p HN Hd Hp.
  nra.
Qed.

Lemma Qabs_friction (v : Q) : Qabs (v * (97 # 100)) == Qabs v * (97 # 100).
Proof. rewrite Qabs_Qmult. reflexivity. Qed.

Lemma after_frames_velocity (m : Q) (j : nat) :
  forall t v : Q, snd (after_frames m t v j) == v * friction_pow j.
Proof.
  induction j as [|j IH]; intros t v.
  - cbn. ring.
  - cbn [after_frames friction_pow]. rewrite IH. ring.
Qed.

Lemma after_frames_clamped (m : Q) (j : nat) :
  0 <= m -> forall t v : Q, 0 <= fst (after_frames m t v (S j)) <= m.
Proof.
  intro Hm. induction j as [|j IH]; intros t v.
  - cbn. apply clamp_range. exact Hm.
  - change (after_frames m t v (S (S j)))
      with (after_frames m (Math_min (Math_max (t + v * (97 # 100)) 0) m)
              (v * (97 # 100)) (S j)).
    apply IH.
Qed.

Lemma continues_spec (t' v' m : Q) :
  0 <= t' <= m ->
  (continues t' v' m = true <-> (0 < t' < m /\ 12 # 100 < Qabs v')) /\
  (continues t' v' m = false <-> (Qabs v' <= 12 # 100 \/ t' == 0 \/ t' == m)).
Proof.
  intros [H0 Hm]. unfold continues.
  destruct (Qltb_spec 0 t') as [A|A]; destruct (Qltb_spec t' m) as [B|B];
    destruct (Qltb_spec (12 # 100) (Qabs v')) as [C|C]; cbn;
    (split; split; intro H; try reflexivity; try discriminate;
     try (repeat split; assumption); try lra;
     try (destruct H as [[? ?] ?]; lra);
     try (destruct H as [?|[?|?]]; lra)).
Qed.

Lemma decelerate_unfold (clk : nat -> num) (k fuel : nat) (s s1 : ScrollView)
  (h : positive) (l : list positive) :
  reads s = h :: l ->
  frame (clk k) s = Ok tt s1 ->
  decelerate clk k (S fuel) s = decelerate clk (S k) fuel s1.
Proof.
  intros Hr Hf.
  change (decelerate clk k (S fuel) s)
    with (match reads s with
          | [] => Ok (Some k) s
          | _ :: _ =>
            match frame (clk k) s with
            | Ok _ s' => decelerate clk (S k) fuel s'
            | Throw e s' => Throw e s'
            end
          end).
  rewrite Hr, Hf. reflexivity.
Qed.

Lemma decelerate_idle (clk : nat -> num) (k fuel : nat) (s : ScrollView) :
  reads s = [] -> decelerate clk k fuel s = Ok (Some k) s.
Proof. intro Hr. destruct fuel; cbn [decelerate]; rewrite Hr; reflexivity. Qed.

(** Once [|v| * 0.97^(N+1) <= 0.12] the loop ends within [N+1] frames:
    it runs while the offset is strictly inside the bounds and the
    velocity above 0.12, and ends at the first frame after which that
    fails. *)
Lemma decelerate_within (clk : nat -> num) (m : Q) (N : nat) :
  0 <= m ->
  forall (k : nat) (s : ScrollView) (t v : Q),
    decelerating s t v m -> ~ v == 0 ->
    Qabs v * friction_pow (S N) <= 12 # 100 ->
    exists (n : nat) (s' : ScrollView),
      (0 < n <= S N)%nat /\
      decelerate clk k n s = Ok (Some (k + n)%nat) s' /\
      (forall j, (0 < j < n)%nat ->
         0 < fst (after_frames m t v j) < m /\
         12 # 100 < Qabs (snd (after_frames m t v j))) /\
      (Qabs (snd (after_frames m t v n)) <= 12 # 100 \/
       fst (after_frames m t v n) == 0 \/ fst (after_frames m t v n) == m) /\
      _t s' = Fin (fst (after_frames m t v n)) /\
      styleTransform (node s')
        = Translate3d (mul (_l s) (Fin (-1)))
            (Fin (fst (after_frames m t v n) * -1)) (Fin 0) /\
      reads s' = [] /\ isScrolling s' = false /\
      (exists e l, notified s' = ScrollEndN e :: l) /\
      scroll_ends (notified s') = S (scroll_ends (notified s)).
Proof.
  intro Hm. induction N as [|N IH]; intros k s t v Hdec Hv0 Hslow;
    destruct (deceleration_frame (clk k) s t v m Hdec Hv0)
      as (s1 & Hf & Ht1 & _ & Htr & Hl & Hcont & Hend);
    cbv zeta in Ht1, Htr, Hcont, Hend;
    pose proof Hdec as (_ & _ & _ & _ & _ & (h & Hrs) & _);
    set (v1 := v * (97 # 100)) in *;
    set (t1 := Math_min (Math_max (t + v1) 0) m) in *;
    pose proof (clamp_range (t + v1) m Hm) as Hrange; fold t1 in Hrange;
    destruct (continues_spec t1 v1 m Hrange) as [Hgo Hstop];
    destruct (continues t1 v1 m) eqn:Hc.
  - exfalso. destruct (proj1 Hgo eq_refl) as [_ Hfast].
    unfold v1 in Hfast. rewrite Qabs_friction in Hfast.
    cbn [friction_pow] in Hslow. lra.
  - destruct (Hend eq_refl) as (Hr & _ & Hs & _ & e1 & e2 & Hn).
    exists 1%nat, s1. split; [lia|]. split.
    { rewrite (decelerate_unfold clk k 0 s s1 h [] Hrs Hf).
      rewrite (decelerate_idle clk (S k) 0 s1 Hr). f_equal. f_equal. lia. }
    split; [intros j Hj; lia|].
    split; [exact (proj1 Hstop eq_refl)|].
    split; [exact Ht1|]. split; [exact Htr|].
    split; [exact Hr|]. split; [exact Hs|].
    split; [exists e2; eexists; exact Hn|]. rewrite Hn. reflexivity.
  - destruct (Hcont eq_refl) as (Hdec1 & _ & e & Hn & _).
    destruct (proj1 Hgo eq_refl) as [Hin Hfast].
    destruct (IH (S k) s1 t1 v1 Hdec1)
      as (n & s' & Hn1 & Hrun & Hbefore & Hlast & Ht & Htr' & Hr & Hs & Hhd & Hcount).
    { intro Hz. rewrite Hz in Hfast. cbn in Hfast. lra. }
    { unfold v1. rewrite Qabs_friction.
      change (friction_pow (S (S N))) with ((97 # 100) * friction_pow (S N)) in Hslow.
      lra. }
    exists (S n), s'. split; [lia|]. split.
    { rewrite (decelerate_unfold clk k n s s1 h [] Hrs Hf), Hrun.
      f_equal. f_equal. lia. }
    split.
    { intros j Hj. destruct j as [|j]; [lia|].
      change (after_frames m t v (S j)) with (after_frames m t1 v1 j).
      destruct j as [|j]; [cbn; split; assumption|].
      apply Hbefore. lia. }
    change (after_frames m t v (S n)) with (after_frames m t1 v1 n).
    split; [exact Hlast|]. split; [exact Ht|].
    split; [rewrite Htr', Hl; reflexivity|].
    split; [exact Hr|]. split; [exact Hs|]. split; [exact Hhd|].
    rewrite Hcount, Hn. reflexivity.
  - destruct (Hend eq_refl) as (Hr & _ & Hs & _ & e1 & e2 & Hn).
    exists 1%nat, s1. split; [lia|]. split.
    { rewrite (decelerate_unfold clk k 0 s s1 h [] Hrs Hf).
      rewrite (decelerate_idle clk (S k) 0 s1 Hr). f_equal. f_equal. lia. }
    split; [intros j Hj; lia|].
    split; [exact (proj1 Hstop eq_refl)|].
    split; [exact Ht1|]. split; [exact Htr|].
    split; [exact Hr|]. split; [exact Hs|].
    split; [exists e2; eexists; exact Hn|]. rewrite Hn. reflexivity.
Qed.

(** C3, for a bound that is not negative and a loop entered with a
    non-zero velocity.  In synthetic mode every frame of the deceleration
    loop multiplies the vertical velocity by 0.97, moves the offset by it,
    clamps it into [[0, m]] and writes it to the node.  If the offset is
    then strictly inside the bounds and the velocity above 0.12 the loop is
    back at the head of a frame with the new offset and velocity and no
    scroll end is emitted; if |velocity| <= 0.12 or the offset is 0 or
    [m] the frame is the last one: nothing further is queued and a
    scroll-end notification goes out.  From any such state the loop runs
    for the frames on which the first condition holds and ends at the
    first on which it does not, after finitely many frames, with exactly
    one scroll-end notification, emitted last. *)
Theorem deceleration_loop :
  forall (clk : nat -> num) (s : ScrollView) (t v m : Q),
    decelerating s t v m -> ~ v == 0 -> 0 <= m ->
    (forall (ts : num) (s1 : ScrollView) (t1 v1 : Q),
        decelerating s1 t1 v1 m -> ~ v1 == 0 ->
        let v' := v1 * (97 # 100) in
        let t' := Math_min (Math_max (t1 + v') 0) m in
        exists s',
          frame ts s1 = Ok tt s' /\
          _t s' = Fin t' /\ 0 <= t' <= m /\
          styleTransform (node s')
            = Translate3d (mul (_l s1) (Fin (-1))) (Fin (t' * -1)) (Fin 0) /\
          (0 < t' < m /\ 12 # 100 < Qabs v' ->
             decelerating s' t' v' m /\ ~ v' == 0 /\
             isScrolling s' = isScrolling s1 /\
             scroll_ends (notified s') = scroll_ends (notified s1)) /\
          (Qabs v' <= 12 # 100 \/ t' == 0 \/ t' == m ->
             reads s' = [] /\ isScrolling s' = false /\
             exists e l, notified s' = ScrollEndN e :: l)) /\
    exists (n : nat) (s' : ScrollView),
      (0 < n)%nat /\
      decelerate clk 0 n s = Ok (Some n) s' /\
      (forall j, (0 < j < n)%nat ->
         0 < fst (after_frames m t v j) < m /\
         12 # 100 < Qabs (snd (after_frames m t v j))) /\
      (Qabs (snd (after_frames m t v n)) <= 12 # 100 \/
       fst (after_frames m t v n) == 0 \/ fst (after_frames m t v n) == m) /\
      (forall j, snd (after_frames m t v j) == v * friction_pow j) /\
      (forall j, 0 <= fst (after_frames m t v (S j)) <= m) /\
      _t s' = Fin (fst (after_frames m t v n)) /\
      styleTransform (node s')
        = Translate3d (mul (_l s) (Fin (-1)))
            (Fin (fst (after_frames m t v n) * -1)) (Fin 0) /\
      reads s' = [] /\ isScrolling s' = false /\
      (exists e l, notified s' = ScrollEndN e :: l) /\
      scroll_ends (notified s') = S (scroll_ends (notified s)).
Proof.
  intros clk s t v m Hdec Hv0 Hm. split.
  - intros ts s1 t1 v1 Hdec1 Hv1 v' t'.
    destruct (deceleration_frame ts s1 t1 v1 m Hdec1 Hv1)
      as (s' & Hf & Ht & _ & Htr & _ & Hcont & Hend).
    cbv zeta in Htr, Hcont, Hend.
    fold v' in Htr, Hcont, Hend. fold t' in Htr, Hcont, Hend.
    pose proof (clamp_range (t1 + v') m Hm) as Hrange. fold t' in Hrange.
    destruct (continues_spec t' v' m Hrange) as [Hgo Hstop].
    exists s'. split; [exact Hf|]. split; [exact Ht|].
    split; [exact Hrange|]. split; [exact Htr|]. split.
    + intro Hin. destruct (Hcont (proj2 Hgo Hin)) as (Hdec' & Hs & e & Hn & _).
      split; [exact Hdec'|]. split; [|split; [exact Hs|rewrite Hn; reflexivity]].
      intro Hz. destruct Hin as [_ Hfast]. rewrite Hz in Hfast. cbn in Hfast.
      clearbody t' v'. lra.
    + intro Hout. destruct (Hend (proj2 Hstop Hout)) as (Hr & _ & Hs & _ & e1 & e2 & Hn).
      split; [exact Hr|]. split; [exact Hs|]. exists e2. eexists. exact Hn.
  - destruct (slow_eventually (Qabs v * (97 # 100))) as [N HN].
    { pose proof (Qabs_nonneg v). lra. }
    destruct (decelerate_within clk m N Hm 0 s t v Hdec Hv0)
      as (n & s' & Hn & Hrun & Hbefore & Hlast & Ht & Htr & Hr & Hs & Hhd & Hcount).
    { cbn [friction_pow]. lra. }
    exists n, s'. split; [lia|]. split; [exact Hrun|].
    split; [exact Hbefore|]. split; [exact Hlast|].
    split; [intro j; apply after_frames_velocity|].
    split; [intro j; apply after_frames_clamped; exact Hm|].
    split; [exact Ht|]. split; [exact Htr|]. split; [exact Hr|].
    split; [exact Hs|]. split; [exact Hhd|exact Hcount].
Qed.

Lemma deceleration_loop_witness :
  exists (n : nat) (s' : ScrollView),
    (0 < n)%nat /\
    decelerate frame_clock 0 n flung = Ok (Some n) s' /\
    reads s' = [] /\ isScrolling s' = false /\
    scroll_ends (notified s') = 1%nat.
Proof.
  destruct (deceleration_loop frame_clock flung 200 5 1000)
    as (_ & n & s' & Hn & Hrun & _ & _ & _ & _ & _ & _ & Hr & Hs & _ & Hcount).
  - unfold decelerating. cbn. repeat split; eauto.
  - intro H. discriminate H.
  - discriminate.
  - exists n, s'. split; [exact Hn|]. split; [exact Hrun|].
    split; [exact Hr|]. split; [exact Hs|exact Hcount].
Defined.

(** With content shorter than the viewport the bound is negative, and
    the first frame after a fling leaves the offset at the bound, below
    0. *)
Lemma negative_bound_offset :
  decelerating ScrollTouch.flung_short (-100) (200000 # 1920) (-100) /\
  exists s',
    frame (frame_clock 0) ScrollTouch.flung_short = Ok tt s' /\
    _t s' = Fin (-100) /\ ~ 0 <= -100 /\
    reads s' = [] /\ isScrolling s' = false.
Proof.
  split.
  - unfold decelerating. repeat split; try reflexivity. exists 1%positive. reflexivity.
  - eexists. split; [vm_compute; reflexivity|].
    repeat split. apply Qlt_not_le. reflexivity.
Qed.

(** Two frames of the fling [flung]: the velocity is 5 * 0.97 * 0.97 and
    the offset 200 + 4.85 + 4.7045, with one more frame queued. *)
Example fling_two_frames :
  match bind (frame (frame_clock 0)) (fun _ => frame (frame_clock 1)) flung with
  | Ok _ s =>
    strict_eq (ev_velocityY (ev s)) (Fin (47045 # 10000)) = true /\
    strict_eq (_t s) (Fin (2095545 # 10000)) = true /\
    List.length (reads s) = 1%nat /\
    scroll_ends (notified s) = 0%nat
  | Throw _ _ => False
  end.
Proof. cbv. repeat split. Qed.

(** ** Horizontal offset *)

(** C9. In synthetic mode [getLeft] returns 0 and changes nothing, also
    right after [setLeft(left)], which still records [left] in [_l] and,
    with the node attached, writes the translate3d transform; a result of
    [getLeft] other than 0 can only come from native mode. *)
Theorem getLeft_synthetic_zero :
  forall (s : ScrollView),
    (_js s = true ->
       getLeft s = Ok (Fin 0) s /\
       forall left : num,
         let after := state_of (setLeft left s) in
         _l after = left /\ _js after = true /\
         getLeft after = Ok (Fin 0) after /\
         (_el s = true ->
            setLeft left s = Ok tt after /\
            styleTransform (node after) =
              Translate3d (mul left (Fin (-1))) (mul (_t s) (Fin (-1))) (Fin 0))) /\
    (forall (v : num) (s' : ScrollView),
        getLeft s = Ok v s' -> v <> Fin 0 -> _js s = false).
Proof.
  intro s. split.
  - intro Hjs. split.
    + unfold getLeft, bind, get, ret. rewrite Hjs. reflexivity.
    + intros left after.
      assert (Hafter : _l after = left /\ _js after = true /\
                (_el s = true ->
                   setLeft left s = Ok tt after /\
                   styleTransform (node after) =
                     Translate3d (mul left (Fin (-1))) (mul (_t s) (Fin (-1))) (Fin 0))).
      { unfold after, setLeft, the_element, bind, get, modify, ret.
        destruct s as [scr st sl js el nd e mx rc ct cb rs ws nt ns cp].
        cbn in Hjs. subst js. cbn.
        destruct el; cbn;
          (split; [reflexivity | split; [reflexivity |]]);
          intro Hel; [split; reflexivity | discriminate Hel]. }
      destruct Hafter as (Hl & Hj & Hok).
      repeat split; try assumption; try (apply Hok; assumption).
      unfold getLeft, bind, get, ret. rewrite Hj. reflexivity.
  - intros v s' Hget Hv.
    destruct (_js s) eqn:Hjs; [|reflexivity].
    unfold getLeft, bind, get, ret in Hget. rewrite Hjs in Hget.
    inversion Hget. congruence.
Qed.

Lemma getLeft_synthetic_zero_witness :
  getLeft (state_of (setLeft (Fin 50) (js_view page_node)))
    = Ok (Fin 0) (state_of (setLeft (Fin 50) (js_view page_node))) /\
  _l (state_of (setLeft (Fin 50) (js_view page_node))) = Fin 50.
Proof.
  destruct (getLeft_synthetic_zero (js_view page_node)) as [H _].
  destruct (H eq_refl) as [_ H'].
  destruct (H' (Fin 50)) as (Hl & _ & Hget & _).
  split; [exact Hget|exact Hl].
Defined.

(** ** Animated scrolling *)

(** A step that finds the frame budget used up, with the node attached,
    stops the animation and calls [done]. *)
Lemma step_budget_exceeded (ts : num) (a : Animation) (s : ScrollView) :
  _el s = true -> done a <> DoneNull ->
  gt (Fin (inject_Z (Z.of_nat (S (attempts a))))) (maxAttempts a) = true ->
  exists s',
    step ts a s = Ok (set_attempts (S (attempts a)) a, false) s' /\
    isScrolling s' = false /\
    styleTransform (node s') = NoTransform /\
    completions s' = S (completions s).
Proof.
  intros Hel Hdone Hover.
  destruct s as [scr st sl js el nd e mx rc ct cb rs ws nt ns cp].
  cbn in Hel. subst el.
  unfold step, clear_transform, call_done, the_element, bind, get, modify, ret.
  cbn [attempts set_attempts maxAttempts done _el isScrolling].
  rewrite Hover. rewrite orb_true_r. cbn.
  destruct (done a); [|contradiction|]; cbn; eexists; repeat split.
Qed.

(** A step that finds [this._el] gone enters the abort branch, clears
    [isScrolling] and then throws on [self._el.style], before [done] is
    reached. *)
Lemma step_element_gone (ts : num) (a : Animation) (s : ScrollView) :
  _el s = false ->
  step ts a s = Throw (TypeError "style") (set_isScrolling false s).
Proof.
  intro Hel.
  unfold step, clear_transform, the_element, bind, get, modify.
  rewrite Hel. cbn. rewrite Hel. reflexivity.
Qed.

(** C4. [scrollTo(0, 100, 300)] on a view that is destroyed after the
    first frame of the animation: the next step throws a TypeError and the
    completion signal has not fired. *)
Theorem scrollTo_missing_element_throws :
  exists s' : ScrollView,
    torn_down_mid_animation (native_view page_node) = Throw (TypeError "style") s' /\
    _el s' = false /\ isScrolling s' = false /\ completions s' = 0%nat.
Proof.
  eexists. split; [vm_compute; reflexivity|].
  repeat split.
Qed.

(** With a zero duration the first step divides 0 by 0: the eased
    fraction is [NaN], the comparison [easedT < 1] fails, and the animation
    ends at once, after writing [NaN] as the new offset when the target
    differs from the start. *)
Lemma scrollTo_zero_duration (x y : num) (d ts : Q) (dn : DoneArg) (s : ScrollView) :
  _el s = true -> d == 0 -> dn <> DoneNull ->
  exists a s1 a' s2,
    scrollTo x y (Fin d) dn s = Ok (Some a) s1 /\
    first_step (Fin ts) a s1 = Ok (a', false) s2 /\
    isScrolling s2 = false /\
    completions s2 = S (completions s) /\
    (strict_neq (scrollTop (node s)) (or_zero y) = true -> _t s2 = NaN).
Proof.
  intros Hel Hd Hdn.
  destruct s as [scr st sl js el nd e mx rc ct cb rs ws nt ns cp].
  cbn in Hel. subst el.
  assert (Hd0 : Qeq_bool d 0 = true) by (now apply Qeq_bool_iff).
  assert (Hts : Qeq_bool (ts + - ts) 0 = true) by (apply Qeq_bool_iff; lra).
  assert (Hbudget : Qltb (d / 16 + 100) (inject_Z 1) = false).
  { apply Qltb_false. change (inject_Z 1) with 1.
    assert (Hq : d / 16 == 0) by (rewrite Hd; reflexivity). lra. }
  destruct (strict_neq (scrollTop nd) (or_zero y)) eqn:Hy;
    destruct (strict_neq (scrollLeft nd) (or_zero x)) eqn:Hx;
    destruct js; destruct dn; try contradiction;
    eexists; eexists;
    unfold scrollTo, bind, get, modify, ret; cbn;
    eexists; eexists; (split; [reflexivity|]);
    unfold first_step, step, setTop, setLeft, clear_transform, call_done,
      the_element, bind, get, modify, ret;
    cbn; unfold div; rewrite Hd0, Hts, Hbudget; cbn;
    rewrite ?Hy, ?Hx; cbn;
    (split; [reflexivity|]); repeat split; intro; discriminate.
Qed.

End ScrollFacts.

(* ================================================================== *)
(** * Division by a zero width or duration *)

Module EdgeCases.
Import JsNum Js Sliding Scroll SlidingFacts ScrollFacts.

(** A zero-width panel under a non-zero open amount: the percentage is
    [Infinity]. *)
Lemma zero_width_percent_not_finite :
  getSlidingPercent zero_width_drag = PInf /\
  is_finite (getSlidingPercent zero_width_drag) = false.
Proof. split; vm_compute; reflexivity. Qed.

(** C8, as the code has it.  No division is guarded.  [getSlidingPercent]
    is 0 for a zero open amount and otherwise the plain quotient by the
    width of the open side: finite for a non-zero width, plus or minus
    [Infinity] for a zero width.  [scrollTo] with a zero duration does end
    on its first step and signals completion, but through a [NaN] eased
    fraction, which it writes as the new offset when the target differs
    from the start. *)
Theorem divisions_unguarded :
  (forall w : World,
      let openAmount := _openAmount (fst w) in
      let right := _optsWidthRightSide (fst w) in
      let left := _optsWidthLeftSide (fst w) in
      (openAmount == 0 -> getSlidingPercent w = Fin 0) /\
      (0 < openAmount -> ~ right == 0 -> getSlidingPercent w = Fin (openAmount / right)) /\
      (0 < openAmount -> right == 0 -> getSlidingPercent w = PInf) /\
      (openAmount < 0 -> ~ left == 0 -> getSlidingPercent w = Fin (openAmount / left)) /\
      (openAmount < 0 -> left == 0 -> getSlidingPercent w = NInf)) /\
  (forall (x y : num) (d ts : Q) (dn : DoneArg) (s : ScrollView),
      _el s = true -> d == 0 -> dn <> DoneNull ->
      exists a s1 a' s2,
        scrollTo x y (Fin d) dn s = Ok (Some a) s1 /\
        first_step (Fin ts) a s1 = Ok (a', false) s2 /\
        isScrolling s2 = false /\
        completions s2 = S (completions s) /\
        (strict_neq (scrollTop (node s)) (or_zero y) = true -> _t s2 = NaN)).
Proof.
  split.
  - intros w openAmount right left.
    unfold getSlidingPercent. fold openAmount. fold right. fold left.
    destruct (div_spec openAmount right) as (R1 & R2 & _).
    destruct (div_spec openAmount left) as (L1 & _ & L3 & _).
    clearbody openAmount right left.
    destruct (Qltb_spec 0 openAmount) as [Hp|Hp];
      [|destruct (Qltb_spec openAmount 0) as [Hn|Hn]];
      repeat split; intros; auto; try (exfalso; lra).
  - exact scrollTo_zero_duration.
Qed.

Lemma divisions_unguarded_witness :
  getSlidingPercent zero_width_drag = PInf /\
  exists a s1 a' s2,
    scrollTo (Fin 0) (Fin 100) (Fin 0) DoneOmitted (native_view page_node)
      = Ok (Some a) s1 /\
    first_step (Fin 0) a s1 = Ok (a', false) s2 /\
    _t s2 = NaN.
Proof.
  destruct divisions_unguarded as [Hpercent Hzero].
  split.
  - apply (Hpercent zero_width_drag); reflexivity.
  - destruct (Hzero (Fin 0) (Fin 100) 0 0 DoneOmitted (native_view page_node))
      as (a & s1 & a' & s2 & H1 & H2 & _ & _ & Hnan).
    + reflexivity.
    + reflexivity.
    + discriminate.
    + exists a, s1, a', s2. repeat split; try assumption.
      apply Hnan. reflexivity.
Defined.

End EdgeCases.

(* ================================================================== *)
(** * Properties of the pan gesture controller *)

Module PanFacts.
Import JsNum Js Pan SlidingFacts.

Section ControllerFacts.

Context {D G : Type} `{Recognizer D} `{GestureDelegate G}.

Variable canStart : PointerEvent -> bool.

(** Once the listeners of the interaction are detached, moves no longer
    reach the controller. *)
Lemma moves_not_delivered (s : PanGesture D G) (moves : list PointerEvent) :
  pointerEvents s = Some false ->
  for_each (map Move moves) (deliver canStart) s = Ok tt s.
Proof.
  intro Hp. induction moves as [|ev moves IH]; [reflexivity|].
  cbn [map for_each]. unfold bind at 1.
  unfold deliver at 1. unfold bind at 1, get at 1. rewrite Hp.
  unfold ret at 1. exact IH.
Qed.

(** C5. A move that is not yet captured and on which the recognizer
    reports a non-zero pan direction makes exactly one capture attempt.  If
    the delegate refuses it the session is aborted: [started] and
    [captured] are false, the delegate is released, the pointer events of
    the interaction are stopped and [notCaptured] is called; no move of the
    same interaction reaches the controller afterwards, so no further
    capture is attempted.  If the attempt succeeds the session is
    captured. *)
Theorem pointerMove_capture_once :
  forall (s : PanGesture D G) (ev : PointerEvent) (d d' : D),
    captured s = false ->
    detector s = Some d ->
    recognizer_detect ev d = (true, d') ->
    recognizer_pan d' <> 0%Z ->
    let s' := state_of (pointerMove ev s) in
    (exists new, calls s' = calls s ++ new /\ capture_attempts new = 1%nat) /\
    (forall (g g' : G) (listening : bool),
        gestute s = Some g ->
        gesture_capture g = (false, g') ->
        pointerEvents s = Some listening ->
        pointerMove ev s = Ok tt s' /\
        started s' = false /\ captured s' = false /\
        gestute s' = Some (gesture_release g') /\
        pointerEvents s' = Some false /\
        calls s' = calls s ++ [TryToCapture; GestureCapture false; GestureRelease;
                               PointerEventsStop; NotCaptured ev] /\
        forall moves : list PointerEvent,
          for_each (map Move moves) (deliver canStart) s' = Ok tt s') /\
    (gestute s = None \/
     (exists g g', gestute s = Some g /\ gesture_capture g = (true, g')) ->
     pointerMove ev s = Ok tt s' /\
     captured s' = true /\ started s' = started s /\
     exists new, calls s' = calls s ++ new ++ [OnDragStart ev]).
Proof.
  intros s ev d d' Hcap Hdet Hdetect Hpan s'.
  assert (Hpan' : negb (Z.eqb (recognizer_pan d') 0) = true).
  { apply negb_true_iff. now apply Z.eqb_neq. }
  destruct s as [st cp li db gs dt pe cs].
  cbn in Hcap, Hdet. subst cp dt.
  unfold s', pointerMove, tryToCapture, abort, gestute_release,
    bind, get, modify, ret, throw.
  cbn. rewrite Hdetect. cbn. rewrite Hpan'. cbn.
  destruct gs as [g|]; cbn.
  - destruct (gesture_capture g) as [[|] g1] eqn:Hg; cbn.
    + split; [|split].
      * exists [TryToCapture; GestureCapture true; OnDragStart ev].
        rewrite <- !app_assoc. split; reflexivity.
      * intros g0 g' l Hg0 Hc. inversion Hg0. subst g0.
        rewrite Hg in Hc. discriminate Hc.
      * intros _. repeat split.
        exists [TryToCapture; GestureCapture true].
        rewrite <- !app_assoc. reflexivity.
    + destruct pe as [l|]; cbn.
      * split; [|split].
        -- exists [TryToCapture; GestureCapture false; GestureRelease;
                   PointerEventsStop; NotCaptured ev].
           rewrite <- !app_assoc. split; reflexivity.
        -- intros g0 g' l0 Hg0 Hc _. inversion Hg0. subst g0.
           rewrite Hg in Hc. inversion Hc. subst g1.
           rewrite <- !app_assoc.
           repeat split.
           intro moves. apply moves_not_delivered. reflexivity.
        -- intros [Hn|(g0 & g' & Hg0 & Hc)]; [discriminate Hn|].
           inversion Hg0. subst g0. rewrite Hg in Hc. discriminate Hc.
      * split; [|split].
        -- exists [TryToCapture; GestureCapture false; GestureRelease].
           rewrite <- !app_assoc. split; reflexivity.
        -- intros g0 g' l0 _ _ Hl. discriminate Hl.
        -- intros [Hn|(g0 & g' & Hg0 & Hc)]; [discriminate Hn|].
           inversion Hg0. subst g0. rewrite Hg in Hc. discriminate Hc.
  - split; [|split].
    + exists [TryToCapture; OnDragStart ev].
      rewrite <- !app_assoc. split; reflexivity.
    + intros g0 g' l Hg0. discriminate Hg0.
    + intros _. repeat split.
      exists [TryToCapture]. rewrite <- !app_assoc. reflexivity.
Qed.

(** C6, as the code has it.  [pointerDown] does nothing when a session is
    started, and begins no session when [canStart] is false.  Otherwise a
    configured delegate is released and asked to start, and its refusal
    also begins no session.  Past that gate the session starts: with a
    detector (threshold > 0) it is armed at the event's coordinate and no
    capture is attempted; without one (threshold <= 0) capture is attempted
    once, at once, and a refusal undoes the session and releases the
    delegate. *)
Theorem pointerDown_cases :
  forall (s : PanGesture D G) (ev : PointerEvent),
    (started s = true -> pointerDown canStart ev s = Ok ReturnsUndefined s) /\
    (started s = false -> canStart ev = false ->
     pointerDown canStart ev s = Ok ReturnsFalse s) /\
    (started s = false -> canStart ev = true ->
     let s' := state_of (pointerDown canStart ev s) in
     (forall g g1,
         gestute s = Some g -> gesture_start (gesture_release g) = (false, g1) ->
         pointerDown canStart ev s = Ok ReturnsFalse s' /\
         started s' = false /\ captured s' = captured s /\
         calls s' = calls s ++ [GestureRelease; GestureStart false]) /\
     (forall d,
         detector s = Some d ->
         gestute s = None \/
         (exists g g1, gestute s = Some g /\
                       gesture_start (gesture_release g) = (true, g1)) ->
         pointerDown canStart ev s = Ok ReturnsTrue s' /\
         started s' = true /\ captured s' = false /\
         detector s' = Some (recognizer_start ev d) /\
         capture_attempts (calls s') = capture_attempts (calls s)) /\
     (detector s = None -> gestute s = None ->
      pointerDown canStart ev s = Ok ReturnsTrue s' /\
      started s' = true /\ captured s' = true /\
      calls s' = calls s ++ [TryToCapture; OnDragStart ev]) /\
     (forall g g1 g2,
         detector s = None -> gestute s = Some g ->
         gesture_start (gesture_release g) = (true, g1) ->
         (gesture_capture g1 = (true, g2) ->
          pointerDown canStart ev s = Ok ReturnsTrue s' /\
          started s' = true /\ captured s' = true /\
          calls s' = calls s ++ [GestureRelease; GestureStart true; TryToCapture;
                                 GestureCapture true; OnDragStart ev]) /\
         (gesture_capture g1 = (false, g2) ->
          pointerDown canStart ev s = Ok ReturnsFalse s' /\
          started s' = false /\ captured s' = false /\
          gestute s' = Some (gesture_release g2) /\
          calls s' = calls s ++ [GestureRelease; GestureStart true; TryToCapture;
                                 GestureCapture false; GestureRelease]))) /\
    (forall (opts : Options G) (thr : Q),
        threshold opts = Some thr ->
        (thr <= 0 -> detector (D := D) (construct opts) = None) /\
        (0 < thr -> detector (D := D) (construct opts) <> None)).
Proof.
  intros s ev.
  destruct s as [st cp li db gs dt pe cs].
  split; [|split; [|split]].
  - cbn. intro Hst. subst st. reflexivity.
  - cbn. intros Hst Hcan. subst st.
    unfold pointerDown, bind, get, ret. cbn. rewrite Hcan. reflexivity.
  - cbn [started]. intros Hst Hcan. subst st.
    unfold pointerDown, tryToCapture, gestute_release,
      bind, get, modify, ret, throw.
    cbn. rewrite Hcan. cbn.
    split; [|split; [|split]].
    + intros g g1 Hg Hs. subst gs. cbn. rewrite Hs. cbn.
      rewrite <- !app_assoc. repeat split.
    + intros d Hd Hgate. subst dt.
      destruct Hgate as [Hg|(g & g1 & Hg & Hs)]; subst gs; cbn.
      * repeat split.
      * rewrite Hs. cbn. repeat split.
        unfold capture_attempts. rewrite !filter_app, !length_app. cbn. lia.
    + intros Hd Hg. subst dt gs. cbn.
      rewrite <- !app_assoc. repeat split.
    + intros g g1 g2 Hd Hg Hs. subst dt gs. cbn. rewrite Hs. cbn.
      split; intro Hc; rewrite Hc; cbn; rewrite <- !app_assoc; repeat split.
  - intros opts thr Hthr. unfold construct. rewrite Hthr. cbn.
    destruct (Qltb_spec 0 thr) as [Hp|Hn]; split; intro Hq;
      try reflexivity; try discriminate; exfalso; lra.
Qed.

End ControllerFacts.

Lemma pointerMove_capture_once_witness :
  started (state_of (pointerMove (mkPointerEvent 30 0) contended)) = false /\
  captured (state_of (pointerMove (mkPointerEvent 30 0) contended)) = false /\
  pointerEvents (state_of (pointerMove (mkPointerEvent 30 0) contended)) = Some false.
Proof.
  destruct (pointerMove_capture_once always contended (mkPointerEvent 30 0)
              (mkAxisRecognizer 20 0 true 0) (mkAxisRecognizer 20 0 false 1))
    as (_ & Hrefused & _).
  - reflexivity.
  - reflexivity.
  - reflexivity.
  - discriminate.
  - destruct (Hrefused (mkArbiter false true true false)
                (mkArbiter false true false false) true)
      as (_ & Hs & Hc & _ & Hp & _).
    + reflexivity.
    + reflexivity.
    + reflexivity.
    + split; [exact Hs|]. split; [exact Hc|exact Hp].
Defined.

(** With [canStart] true and no session started, a delegate that refuses
    [start()] keeps the session from starting. *)
Lemma pointerDown_gesture_refused :
  started disabled_gesture = false /\
  always (mkPointerEvent 0 0) = true /\
  pointerDown always (mkPointerEvent 0 0) disabled_gesture
    = Ok ReturnsFalse (state_of (pointerDown always (mkPointerEvent 0 0) disabled_gesture)) /\
  started (state_of (pointerDown always (mkPointerEvent 0 0) disabled_gesture)) = false.
Proof. repeat split. Qed.

Lemma pointerDown_cases_witness :
  pointerDown always (mkPointerEvent 0 0) idle_controller
    = Ok ReturnsTrue (state_of (pointerDown always (mkPointerEvent 0 0) idle_controller)) /\
  started (state_of (pointerDown always (mkPointerEvent 0 0) idle_controller)) = true /\
  captured (state_of (pointerDown always (mkPointerEvent 0 0) idle_controller)) = false.
Proof.
  destruct (pointerDown_cases always idle_controller (mkPointerEvent 0 0))
    as (_ & _ & Hstart & _).
  destruct Hstart as (_ & Hdet & _); [reflexivity|reflexivity|].
  destruct (Hdet (mkAxisRecognizer 20 0 false 0)) as (Hret & Hs & Hc & _).
  - reflexivity.
  - right. exists (mkArbiter false false false false), (mkArbiter false false true false).
    split; reflexivity.
  - split; [exact Hret|]. split; [exact Hs|exact Hc].
Defined.

End PanFacts.

(* ================================================================== *)
(** * Properties of the radio group *)

Module RadioFacts.
Import Radio.

Section GroupFacts.

Variable isBlank : JsValue -> bool.
Variable isCheckedProperty : JsValue -> JsValue -> bool.
Variable isTrueProperty : JsValue -> bool.

(** On a boolean, [isTrueProperty] is the boolean itself. *)
Hypothesis isTrueProperty_bool : forall b : bool, isTrueProperty (VBool b) = b.

Local Abbreviation matches v rb := (isCheckedProperty v (rb_value isBlank rb)).
Local Abbreviation check rb := (set_checked isTrueProperty (VBool true) rb).
Local Abbreviation uncheck rb := (set_checked isTrueProperty (VBool false) rb).
Local Abbreviation loop := (update_buttons isBlank isCheckedProperty isTrueProperty).

Lemma checked_set_checked (b : bool) (rb : RadioButton) :
  _checked (set_checked isTrueProperty (VBool b) rb) = b.
Proof. cbn. apply isTrueProperty_bool. Qed.

Lemma checked_count_uncheck (l : list RadioButton) :
  checked_count (map (fun rb => uncheck rb) l) = 0%nat.
Proof.
  unfold checked_count. induction l as [|rb l IH]; [reflexivity|].
  cbn [map filter]. rewrite checked_set_checked. exact IH.
Qed.

(** Once a button has been checked, every later button is unchecked. *)
Lemma update_buttons_after_checked (v : JsValue) (active : option string)
  (btns : list RadioButton) :
  loop v true active btns = (map (fun rb => uncheck rb) btns, active).
Proof.
  induction btns as [|rb rest IH]; [reflexivity|].
  cbn [update_buttons map]. rewrite andb_false_r.
  rewrite checked_set_checked, IH. reflexivity.
Qed.

(** Before that, buttons that do not match are unchecked and passed. *)
Lemma update_buttons_no_match (v : JsValue) (active : option string)
  (btns : list RadioButton) :
  (forall rb, In rb btns -> matches v rb = false) ->
  loop v false active btns = (map (fun rb => uncheck rb) btns, active).
Proof.
  induction btns as [|rb rest IH]; intro Hno; [reflexivity|].
  cbn [update_buttons map].
  rewrite (Hno rb (or_introl eq_refl)). cbn [andb].
  rewrite checked_set_checked, IH; [reflexivity|].
  intros rb' Hin. apply Hno. right. exact Hin.
Qed.

Lemma update_buttons_first_match (v : JsValue) (active : option string)
  (pre post : list RadioButton) (b : RadioButton) :
  (forall rb, In rb pre -> matches v rb = false) ->
  matches v b = true ->
  loop v false active (pre ++ b :: post)
  = (map (fun rb => uncheck rb) pre ++ check b :: map (fun rb => uncheck rb) post,
     Some (id b)).
Proof.
  induction pre as [|rb pre IH]; intros Hno Hb.
  - cbn [app update_buttons map]. rewrite Hb. cbn [andb negb].
    rewrite checked_set_checked, update_buttons_after_checked. reflexivity.
  - cbn [app update_buttons map].
    rewrite (Hno rb (or_introl eq_refl)). cbn [andb].
    rewrite checked_set_checked, IH; [reflexivity| |exact Hb].
    intros rb' Hin. apply Hno. right. exact Hin.
Qed.

(** Every list of buttons either has no match or splits at its first. *)
Lemma first_match_split (v : JsValue) (btns : list RadioButton) :
  (forall rb, In rb btns -> matches v rb = false) \/
  (exists pre b post,
      btns = pre ++ b :: post /\
      (forall rb, In rb pre -> matches v rb = false) /\
      matches v b = true).
Proof.
  induction btns as [|rb rest IH].
  - left. intros rb [].
  - destruct (matches v rb) eqn:Hm.
    + right. exists [], rb, rest. repeat split; [intros ? []|exact Hm].
    + destruct IH as [Hno|(pre & b & post & Heq & Hpre & Hb)].
      * left. intros rb' [<-|Hin]; [exact Hm|now apply Hno].
      * right. exists (rb :: pre), b, post. subst rest.
        repeat split; [|exact Hb].
        intros rb' [<-|Hin]; [exact Hm|now apply Hpre].
Qed.

(** C10. After [_update] at most one registered button is checked.  When
    buttons match the group's value, the first of them in registration
    order is checked and named by the active-descendant attribute, and all
    the others, matching or not, are unchecked; when none matches, all are
    unchecked and the attribute is left as it was. *)
Theorem update_single_checked :
  forall g : RadioGroup,
    let g' := _update isBlank isCheckedProperty isTrueProperty g in
    (checked_count (_btns g') <= 1)%nat /\
    (forall pre b post,
        _btns g = pre ++ b :: post ->
        (forall rb, In rb pre -> matches (value g) rb = false) ->
        matches (value g) b = true ->
        _btns g' = map (fun rb => uncheck rb) pre ++ check b
                     :: map (fun rb => uncheck rb) post /\
        activedescendant g' = Some (id b) /\
        checked_count (_btns g') = 1%nat) /\
    ((forall rb, In rb (_btns g) -> matches (value g) rb = false) ->
     _btns g' = map (fun rb => uncheck rb) (_btns g) /\
     activedescendant g' = activedescendant g).
Proof.
  intros g g'.
  assert (Hfirst : forall pre b post,
            _btns g = pre ++ b :: post ->
            (forall rb, In rb pre -> matches (value g) rb = false) ->
            matches (value g) b = true ->
            _btns g' = map (fun rb => uncheck rb) pre ++ check b
                         :: map (fun rb => uncheck rb) post /\
            activedescendant g' = Some (id b) /\
            checked_count (_btns g') = 1%nat).
  { intros pre b post Heq Hpre Hb.
    unfold g', _update. rewrite Heq.
    rewrite (update_buttons_first_match _ _ _ _ _ Hpre Hb). cbn [_btns activedescendant].
    repeat split.
    unfold checked_count. rewrite filter_app. cbn [filter].
    rewrite checked_set_checked, length_app. cbn [List.length].
    fold (checked_count (map (fun rb => uncheck rb) pre)).
    fold (checked_count (map (fun rb => uncheck rb) post)).
    rewrite !checked_count_uncheck. reflexivity. }
  assert (Hnone : (forall rb, In rb (_btns g) -> matches (value g) rb = false) ->
                  _btns g' = map (fun rb => uncheck rb) (_btns g) /\
                  activedescendant g' = activedescendant g).
  { intro Hno. unfold g', _update.
    rewrite (update_buttons_no_match _ _ _ Hno). split; reflexivity. }
  split; [|split; assumption].
  destruct (first_match_split (value g) (_btns g))
    as [Hno|(pre & b & post & Heq & Hpre & Hb)].
  - rewrite (proj1 (Hnone Hno)), checked_count_uncheck. lia.
  - destruct (Hfirst pre b post Heq Hpre Hb) as (_ & _ & ->). lia.
Qed.

End GroupFacts.

Lemma update_single_checked_witness :
  map _checked
    (_btns (_update sample_isBlank sample_isCheckedProperty sample_isTrueProperty
              twin_buttons))
    = [false; true; false] /\
  activedescendant
    (_update sample_isBlank sample_isCheckedProperty sample_isTrueProperty twin_buttons)
    = Some "rb-0-1"%string.
Proof.
  destruct (update_single_checked sample_isBlank sample_isCheckedProperty
              sample_isTrueProperty (fun b => eq_refl) twin_buttons)
    as (_ & Hfirst & _).
  destruct (Hfirst [mkRadioButton "rb-0-0" (VStr "cord") true false None]
              (mkRadioButton "rb-0-1" (VStr "hudson") false false None)
              [mkRadioButton "rb-0-2" (VStr "hudson") true false None])
    as (Hb & Ha & _).
  - reflexivity.
  - intros rb [<-|[]]. reflexivity.
  - reflexivity.
  - rewrite Hb. split; [reflexivity|exact Ha].
Defined.

End RadioFacts.

(* ================================================================== *)
(** * Further properties of the sliding item *)

Module SlidingSessionFacts.
Import JsNum Js Sliding SlidingSession SlidingFacts.

Lemma elastic_inside (right left c : Q) :
  - left <= c <= right -> elastic right left c = c.
Proof.
  intros [H1 H2]. unfold elastic.
  destruct (Qltb_spec right c); [lra|].
  destruct (Qltb_spec c (- left)); [lra|reflexivity].
Qed.

Lemma cancelTimer_fields (w : World) :
  _openAmount (fst (cancelTimer w)) = _openAmount (fst w) /\
  _state (fst (cancelTimer w)) = _state (fst w) /\
  _optsWidthRightSide (fst (cancelTimer w)) = _optsWidthRightSide (fst w) /\
  _optsWidthLeftSide (fst (cancelTimer w)) = _optsWidthLeftSide (fst w).
Proof.
  destruct w as [i p]. unfold cancelTimer. cbn [fst snd].
  destruct (_timer i); cbn; repeat split.
Qed.

Lemma _setOpenAmount_move_state (a : Q) (w : World) :
  let i := fst (_setOpenAmount a false w) in
  (0 < a ->
   _state i = if Qle_bool (_optsWidthRightSide (fst w) + SWIPE_MARGIN) a
              then Z.lor Right SwipeRight else Right) /\
  (a < 0 ->
   _state i = if Qle_bool a (- _optsWidthLeftSide (fst w) - SWIPE_MARGIN)
              then Z.lor Left SwipeLeft else Left) /\
  (a == 0 -> _state i = _state (fst w)).
Proof.
  unfold _setOpenAmount.
  pose proof (cancelTimer_fields w) as (_ & Hs & Hr & Hl).
  destruct (cancelTimer w) as [i p]. cbn [fst] in *.
  cbn [set_openAmount _optsWidthRightSide _optsWidthLeftSide].
  repeat split; intro Ha.
  - rewrite (proj2 (Qltb_true _ _) Ha).
    destruct (Qeq_bool_spec a 0); [lra|]. cbn [fst].
    rewrite _setState_state, Hr. reflexivity.
  - assert (H0 : Qltb 0 a = false) by (apply Qltb_false; lra).
    rewrite H0, (proj2 (Qltb_true _ _) Ha).
    destruct (Qeq_bool_spec a 0); [lra|]. cbn [fst].
    rewrite _setState_state, Hl. reflexivity.
  - assert (H0 : Qltb 0 a = false) by (apply Qltb_false; lra).
    assert (H1 : Qltb a 0 = false) by (apply Qltb_false; lra).
    rewrite H0, H1.
    destruct (Qeq_bool_spec a 0); [|contradiction]. cbn. exact Hs.
Qed.

(** X1. After a move with fresh widths the state is exactly Right or
    Left, by the sign of the amount the move returns and stores, and
    carries the swipe bit exactly when that amount has reached the panel
    width plus the 30 px margin on its side; a move that returns zero
    leaves the state as it was. *)
Theorem moveSliding_swipe_margin :
  forall (x : Q) (w : World),
    _optsDirty (fst w) = false ->
    let right := _optsWidthRightSide (fst w) in
    let left := _optsWidthLeftSide (fst w) in
    let st := _state (fst (snd (moveSliding x w))) in
    exists a : Q,
      fst (moveSliding x w) = Some a /\
      _openAmount (fst (snd (moveSliding x w))) = a /\
      (0 < a ->
         (right + 30 <= a -> st = Z.lor Right SwipeRight) /\
         (a < right + 30 -> st = Right)) /\
      (a < 0 ->
         (a <= - left - 30 -> st = Z.lor Left SwipeLeft) /\
         (- left - 30 < a -> st = Left)) /\
      (a == 0 -> st = _state (fst w)).
Proof.
  intros x w Hfresh right left st.
  unfold st. unfold moveSliding. rewrite Hfresh. cbn [fst snd].
  eexists. split; [reflexivity|].
  match goal with |- _openAmount (fst (_setOpenAmount ?e false w)) = _ /\ _ =>
    generalize e end.
  intro a.
  pose proof (_setOpenAmount_move_state a w) as (Hpos & Hneg & Hzero).
  fold right in Hpos. fold left in Hneg.
  change SWIPE_MARGIN with 30 in Hpos, Hneg.
  clearbody right left.
  split; [apply _setOpenAmount_stores|]. split; [|split].
  - intro Hc. rewrite (Hpos Hc). split; intro Hm.
    + rewrite (proj2 (Qle_bool_iff _ _) Hm). reflexivity.
    + destruct (Qle_bool (right + 30) a) eqn:E; [|reflexivity].
      apply Qle_bool_iff in E. lra.
  - intro Hc. rewrite (Hneg Hc). split; intro Hm.
    + rewrite (proj2 (Qle_bool_iff _ _) Hm). reflexivity.
    + destruct (Qle_bool a (- left - 30)) eqn:E; [|reflexivity].
      apply Qle_bool_iff in E. lra.
  - exact Hzero.
Qed.

Lemma moveSliding_swipe_margin_witness :
  _state (fst (snd (moveSliding 0
     (mkItemSliding 0 140 80 0 None false Enabled SideRight (Some 80) None, loaded))))
  = Z.lor Right SwipeRight.
Proof.
  destruct (moveSliding_swipe_margin 0
     (mkItemSliding 0 140 80 0 None false Enabled SideRight (Some 80) None, loaded))
    as (a & Hret & _ & Hpos & _).
  - reflexivity.
  - inversion Hret as [Ha].
    destruct Hpos as [Hprimed _]; [rewrite <- Ha; reflexivity|].
    apply Hprimed. rewrite <- Ha. discriminate.
Defined.

Lemma cancelTimer_layout (w : World) :
  _optsDirty (fst (cancelTimer w)) = _optsDirty (fst w) /\
  _sides (fst (cancelTimer w)) = _sides (fst w) /\
  _rightOptions (fst (cancelTimer w)) = _rightOptions (fst w) /\
  _leftOptions (fst (cancelTimer w)) = _leftOptions (fst w).
Proof.
  destruct w as [i p]. unfold cancelTimer. cbn [fst snd].
  destruct (_timer i); cbn; repeat split.
Qed.

(** [startSliding] on a row that is not closed. *)
Lemma startSliding_open (startX : Q) (w : World) :
  ~ _openAmount (fst w) == 0 ->
  let i := fst (startSliding startX w) in
  _startX i = startX + _openAmount (fst w) /\
  _openAmount i = _openAmount (fst w) /\
  _optsDirty i = _optsDirty (fst w) /\
  _sides i = _sides (fst w) /\
  _optsWidthRightSide i = _optsWidthRightSide (fst w) /\
  _optsWidthLeftSide i = _optsWidthLeftSide (fst w) /\
  _state i = _state (fst w).
Proof.
  intro Hopen. unfold startSliding.
  pose proof (cancelTimer_fields w) as (Ho & Hs & Hr & Hl).
  pose proof (cancelTimer_layout w) as (Hd & Hsd & _).
  destruct (cancelTimer w) as [i p]. cbn [fst] in *.
  destruct (Qeq_bool_spec (_openAmount i) 0) as [Hz|Hz].
  - rewrite Ho in Hz. contradiction.
  - cbn. rewrite Ho, Hd, Hsd, Hr, Hl, Hs. repeat split.
Qed.

Lemma clampSides_consistent (sides : Z) (a : Q) :
  (sides = SideRight -> 0 <= a) -> (sides = SideLeft -> a <= 0) ->
  clampSides sides a == a.
Proof.
  intros Hr Hl. unfold clampSides.
  destruct (Z.eqb_spec sides SideRight) as [E|E].
  - apply Math_max_0_spec. now apply Hr.
  - destruct (Z.eqb_spec sides SideLeft) as [E'|E'].
    + apply Math_min_0_spec. now apply Hl.
    + reflexivity.
Qed.

Lemma elastic_inside_eq (right left c c' : Q) :
  c == c' -> - left <= c' <= right -> elastic right left c == c'.
Proof.
  intros Hc H. rewrite elastic_inside; [exact Hc|lra].
Qed.

(** X2. A drag that starts on a partly open row resumes from where the
    row is: with fresh widths, the amount after a move to [x] is the open
    amount at [startSliding(startX)] plus [startX - x], as long as that
    stays within the panels and on a side the row has. *)
Theorem startSliding_resumes_drag :
  forall (startX x : Q) (w : World),
    ~ _openAmount (fst w) == 0 ->
    _optsDirty (fst w) = false ->
    let target := _openAmount (fst w) + (startX - x) in
    - _optsWidthLeftSide (fst w) <= target <= _optsWidthRightSide (fst w) ->
    (_sides (fst w) = SideRight -> 0 <= target) ->
    (_sides (fst w) = SideLeft -> target <= 0) ->
    exists r : Q,
      fst (moveSliding x (startSliding startX w)) = Some r /\
      _openAmount (fst (snd (moveSliding x (startSliding startX w)))) = r /\
      r == target.
Proof.
  intros startX x w Hopen Hfresh target Hin Hsr Hsl.
  destruct (startSliding_open startX w Hopen) as (Hx & _ & Hd & Hs & Hr & Hl & _).
  unfold moveSliding. rewrite Hd, Hfresh, Hx, Hs, Hr, Hl. cbn [fst snd].
  eexists. split; [reflexivity|]. split; [apply _setOpenAmount_stores|].
  apply elastic_inside_eq; [|exact Hin].
  rewrite clampSides_consistent.
  - unfold target. ring.
  - intro E. specialize (Hsr E). unfold target in Hsr.
    clearbody target. lra.
  - intro E. specialize (Hsl E). unfold target in Hsl.
    clearbody target. lra.
Qed.

Lemma startSliding_resumes_drag_witness :
  exists r : Q,
    fst (moveSliding 200
           (startSliding 200
              (mkItemSliding 50 0 80 0 None false Right SideRight (Some 80) None,
               loaded))) = Some r /\
    r == 50.
Proof.
  destruct (startSliding_resumes_drag 200 200
              (mkItemSliding 50 0 80 0 None false Right SideRight (Some 80) None,
               loaded))
    as (r & Hr & _ & Heq).
  - discriminate.
  - reflexivity.
  - split; discriminate.
  - intros _. discriminate.
  - intros H. discriminate H.
  - exists r. split; [exact Hr|]. rewrite Heq. reflexivity.
Defined.

Lemma _setOpenAmount_final (a : Q) (w : World) :
  let w' := _setOpenAmount a true w in
  _state (fst w') = _state (fst w) /\
  transition (snd w') = ""%string /\
  dragObservers (snd w') = dragObservers (snd w) /\
  emitted (snd w') =
    (if negb (Qeq_bool a 0) && (0 <? dragObservers (snd w))%nat
     then [IonDrag] else []) ++ emitted (snd w).
Proof.
  destruct w as [i p]. unfold _setOpenAmount, cancelTimer. cbn [fst snd].
  destruct (_timer i); cbn;
    destruct (Qeq_bool a 0); cbn;
    destruct (dragObservers p) eqn:E; cbn; rewrite ?E; repeat split.
Qed.

(** X3. [endSliding] never changes the state bits and restores the
    transition style.  The swipe event is decided by the bits the last
    move left, right before left, and at most one is emitted; when the row
    has no panel on that side the call throws a TypeError instead, after
    the resting point has been stored, and emits no swipe event.  Besides
    the swipe event only a drag event goes out, when the row rests open
    and somebody listens. *)
Theorem endSliding_swipe_event :
  forall (policy : bool -> bool -> bool -> bool) (velocity : Q) (w : World),
    let out := endSliding policy velocity w in
    let w' := state_of out in
    let rest := _openAmount (fst w') in
    _state (fst w') = _state (fst w) /\
    transition (snd w') = ""%string /\
    (swipe_panel_missing (fst w) = false -> out = Ok rest w') /\
    (swipe_panel_missing (fst w) = true -> out = Throw (TypeError "ionSwipe") w') /\
    emitted (snd w') =
      (if swipe_panel_missing (fst w) then [] else swipe_of_state (_state (fst w)))
      ++ (if negb (Qeq_bool rest 0) && (0 <? dragObservers (snd w))%nat
          then [IonDrag] else [])
      ++ emitted (snd w).
Proof.
  intros policy velocity w out w' rest.
  destruct (endSliding_outcome policy velocity w) as (Hst & Hro & Hlo & Hstored & Hend).
  cbv zeta in Hst, Hro, Hlo, Hstored, Hend.
  unfold rest, w', out. rewrite Hend.
  match type of Hstored with _openAmount (fst (_setOpenAmount ?a true w)) = _ =>
    pose proof (_setOpenAmount_final a w) as (_ & Ht & _ & He);
    generalize dependent a end.
  intros a Hst Hro Hlo Hstored _ Ht He.
  generalize dependent (_setOpenAmount a true w).
  intros u Hst Hro Hlo Hstored Ht He.
  unfold fireSwipeEvent, swipe_panel_missing, swipe_of_state.
  rewrite Hst, Hro, Hlo.
  destruct (negb (Z.land (_state (fst w)) SwipeRight =? 0)%Z);
    [destruct (_rightOptions (fst w))
    |destruct (negb (Z.land (_state (fst w)) SwipeLeft =? 0)%Z);
     [destruct (_leftOptions (fst w))|]];
    cbn; rewrite ?Hst, ?Ht, ?He, ?Hstored;
    repeat split; intros; try reflexivity; try discriminate.
Qed.

Lemma endSliding_swipe_event_witness :
  endSliding samplePolicy 0 panelless_swipe
  = Throw (TypeError "ionSwipe") (state_of (endSliding samplePolicy 0 panelless_swipe)).
Proof.
  destruct (endSliding_swipe_event samplePolicy 0 panelless_swipe)
    as (_ & _ & _ & Hthrow & _).
  apply Hthrow. reflexivity.
Defined.

Lemma optsWidthCallback_fresh (i : ItemSliding) :
  _optsDirty i = false -> optsWidthCallback i = i.
Proof. intro H. unfold optsWidthCallback. rewrite H. reflexivity. Qed.

Lemma optsWidthCallback_dirty (i : ItemSliding) :
  _optsDirty i = true ->
  let i' := optsWidthCallback i in
  _optsDirty i' = false /\
  _optsWidthRightSide i' = match _rightOptions i with Some wd => wd | None => 0 end /\
  _optsWidthLeftSide i' = match _leftOptions i with Some wd => wd | None => 0 end /\
  _openAmount i' = _openAmount i /\ _state i' = _state i /\
  _timer i' = _timer i /\ _sides i' = _sides i /\ _startX i' = _startX i.
Proof.
  intro H. unfold optsWidthCallback. rewrite H. cbn. repeat split.
Qed.

(** However many callbacks were queued, only the first does anything. *)
Lemma optsWidthCallback_iter (n : nat) (i : ItemSliding) :
  _optsDirty i = true ->
  Nat.iter (S n) optsWidthCallback i = optsWidthCallback i.
Proof.
  intro H. induction n as [|n IH]; [reflexivity|].
  change (Nat.iter (S (S n)) optsWidthCallback i)
    with (optsWidthCallback (Nat.iter (S n) optsWidthCallback i)).
  rewrite IH. apply optsWidthCallback_fresh.
  apply (optsWidthCallback_dirty i H).
Qed.

(** X4. A move that finds the widths stale returns [undefined], leaves the
    component as it is and queues one animation-frame callback.  After the
    next frame the widths are those of the panels present (0 for a missing
    side), whatever number of callbacks was queued, the open amount and
    state are untouched, and moves are handled again. *)
Theorem stale_widths_recomputed :
  forall (x : Q) (w : World),
    _optsDirty (fst w) = true ->
    fst (moveSliding x w) = None /\
    fst (snd (moveSliding x w)) = fst w /\
    rafQueue (snd (snd (moveSliding x w))) = S (rafQueue (snd w)) /\
    let w' := animationFrame (snd (moveSliding x w)) in
    _optsDirty (fst w') = false /\
    _optsWidthRightSide (fst w') =
      match _rightOptions (fst w) with Some wd => wd | None => 0 end /\
    _optsWidthLeftSide (fst w') =
      match _leftOptions (fst w) with Some wd => wd | None => 0 end /\
    _openAmount (fst w') = _openAmount (fst w) /\
    _state (fst w') = _state (fst w) /\
    rafQueue (snd w') = 0%nat /\
    forall x', fst (moveSliding x' w') <> None.
Proof.
  intros x w Hdirty.
  assert (Hm : moveSliding x w
               = (None, (fst w, set_rafQueue (S (rafQueue (snd w))) (snd w)))).
  { unfold moveSliding. rewrite Hdirty. reflexivity. }
  rewrite Hm. cbn [fst snd].
  split; [reflexivity|]. split; [reflexivity|]. split; [reflexivity|].
  unfold animationFrame. cbn [fst snd rafQueue set_rafQueue].
  rewrite (optsWidthCallback_iter _ _ Hdirty).
  destruct (optsWidthCallback_dirty (fst w) Hdirty) as (Hd & Hr & Hl & Ho & Hs & _).
  repeat split; try assumption.
  intro x'. unfold moveSliding. cbn [fst]. rewrite Hd. discriminate.
Qed.

Lemma stale_widths_recomputed_witness :
  _optsWidthRightSide
    (fst (animationFrame
            (snd (moveSliding 100
                    (startSliding 100
                       (_itemOptions [mkItemOptions None 80] constructed, loaded))))))
  = 80.
Proof.
  destruct (stale_widths_recomputed 100
              (startSliding 100 (_itemOptions [mkItemOptions None 80] constructed, loaded)))
    as (_ & _ & _ & _ & Hr & _).
  - reflexivity.
  - exact Hr.
Defined.

(** ** Invariants over whole sessions *)

Lemma iter_optsWidthCallback_keeps (n : nat) (i : ItemSliding) :
  _timer (Nat.iter n optsWidthCallback i) = _timer i /\
  _openAmount (Nat.iter n optsWidthCallback i) = _openAmount i.
Proof.
  assert (Hone : forall j, _timer (optsWidthCallback j) = _timer j /\
                           _openAmount (optsWidthCallback j) = _openAmount j).
  { intro j. unfold optsWidthCallback. destruct (_optsDirty j); cbn; auto. }
  induction n as [|n [IH1 IH2]]; [split; reflexivity|].
  rewrite Nat.iter_succ. destruct (Hone (Nat.iter n optsWidthCallback i)) as [H1 H2].
  rewrite H1, H2. auto.
Qed.

Lemma session_step (policy : bool -> bool -> bool -> bool) (o : Op) (w : World) :
  timer_owned w /\ closed_while_pending w ->
  timer_owned (apply_op policy w o) /\ closed_while_pending (apply_op policy w o).
Proof.
  intros [Hown Hclosed].
  assert (Hset : forall a f,
            timer_owned (_setOpenAmount a f w) /\
            closed_while_pending (_setOpenAmount a f w)).
  { intros a f. split; [now apply timer_owned__setOpenAmount|].
    unfold closed_while_pending. rewrite _setOpenAmount_stores.
    destruct (Qeq_bool_spec a 0) as [Hz|Hz]; [intros _; exact Hz|].
    rewrite (proj1 (_setOpenAmount_nonzero_clears a f w Hown Hz)).
    intro H. now contradiction H. }
  destruct o as [startX|x|velocity| |ms|]; cbn [apply_op].
  - split; [now apply timer_owned_startSliding|].
    unfold closed_while_pending.
    rewrite (proj1 (startSliding_cancels startX w Hown)).
    intro H. now contradiction H.
  - unfold moveSliding. destruct (_optsDirty (fst w)); cbn [snd].
    + unfold calculateOptsWidth. split; [exact Hown|exact Hclosed].
    + apply Hset.
  - split; [now apply timer_owned_endSliding|].
    destruct (endSliding_state policy velocity w) as (r & ->).
    unfold closed_while_pending.
    rewrite fireSwipeEvent_item. apply Hset.
  - apply Hset.
  - split; [now apply timer_owned_advance|].
    unfold closed_while_pending, timer_owned in *.
    destruct (_timer (fst w)) as [h|] eqn:E.
    + destruct Hown as [d Hd].
      destruct (Nat.leb_spec d (clock (snd w) + ms)) as [Hle|Hlt].
      * rewrite (proj1 (advance_expired ms w h d Hd Hle)).
        rewrite (proj2 (disableCallback_spec _)). intro H. now contradiction H.
      * rewrite (proj1 (advance_before ms w h d Hd Hlt)). rewrite E. exact Hclosed.
    + rewrite (proj1 (advance_idle ms w Hown)). rewrite E. exact Hclosed.
  - unfold animationFrame, timer_owned, closed_while_pending in *. cbn [fst snd].
    destruct (iter_optsWidthCallback_keeps (rafQueue (snd w)) (fst w)) as [Ht Ho].
    rewrite Ht, Ho. split; [exact Hown|exact Hclosed].
Qed.

Lemma _itemOptions_keeps (os : list ItemOptions) (i : ItemSliding) :
  _timer (_itemOptions os i) = _timer i /\
  _openAmount (_itemOptions os i) = _openAmount i.
Proof.
  unfold _itemOptions. cbn [set_optsDirty _timer _openAmount].
  assert (H : forall j, _timer (fold_left (fun acc o => set_panel o acc) os j) = _timer j /\
                        _openAmount (fold_left (fun acc o => set_panel o acc) os j)
                          = _openAmount j).
  { induction os as [|o os IH]; intro j; [split; reflexivity|].
    cbn [fold_left]. destruct (IH (set_panel o j)) as [H1 H2].
    rewrite H1, H2. unfold set_panel. destruct (Z.eqb _ _); split; reflexivity. }
  apply (H (set_sides 0 i)).
Qed.

(** X5. Whatever the gesture, the application and the clock do to a row,
    in any order, the component has at most one timeout pending, the one
    [_timer] names, and a timeout is pending only while the row is
    closed. *)
Theorem session_invariants :
  forall (policy : bool -> bool -> bool -> bool) (itemOptions : list ItemOptions)
         (ops : list Op),
    let w := run policy ops (_itemOptions itemOptions constructed, loaded) in
    timer_owned w /\ closed_while_pending w.
Proof.
  intros policy itemOptions ops.
  assert (Hinit : timer_owned (_itemOptions itemOptions constructed, loaded) /\
                  closed_while_pending (_itemOptions itemOptions constructed, loaded)).
  { unfold timer_owned, closed_while_pending. cbn [fst snd].
    destruct (_itemOptions_keeps itemOptions constructed) as [Ht Ho].
    rewrite Ht, Ho. cbn. split; [reflexivity|]. intros _. reflexivity. }
  unfold run. revert Hinit.
  generalize (_itemOptions itemOptions constructed, loaded).
  induction ops as [|o ops IH]; intros w Hw; [exact Hw|].
  cbn [fold_left]. apply IH. now apply session_step.
Qed.

Lemma getSides_cases (o : ItemOptions) :
  getSides o = SideLeft \/ getSides o = SideRight.
Proof.
  unfold getSides. destruct (side o) as [sd|]; [|now right].
  destruct (String.eqb sd "left"); [now left|now right].
Qed.

Lemma set_panel_fields (o : ItemOptions) (j : ItemSliding) :
  _sides (set_panel o j) = Z.lor (_sides j) (getSides o) /\
  _rightOptions (set_panel o j)
    = (if Z.eqb (getSides o) SideLeft then _rightOptions j else Some (width o)) /\
  _leftOptions (set_panel o j)
    = (if Z.eqb (getSides o) SideLeft then Some (width o) else _leftOptions j).
Proof.
  unfold set_panel. destruct (Z.eqb (getSides o) SideLeft); cbn; repeat split.
Qed.

Lemma fold_set_panel_sides (os : list ItemOptions) :
  forall j : ItemSliding,
    (_sides j = 0 \/ _sides j = 1 \/ _sides j = 2 \/ _sides j = 3)%Z ->
    _sides (fold_left (fun acc o => set_panel o acc) os j)
    = Z.lor (_sides j)
        ((if has_side SideLeft os then 1 else 0)
         + (if has_side SideRight os then 2 else 0)).
Proof.
  induction os as [|o os IH]; intros j Hj.
  - cbn. rewrite Z.lor_0_r. reflexivity.
  - cbn [fold_left]. rewrite IH.
    + rewrite (proj1 (set_panel_fields o j)).
      unfold has_side. cbn [existsb].
      destruct (getSides_cases o) as [E|E]; rewrite E; cbn [Z.eqb Pos.eqb orb SideLeft SideRight];
        destruct (existsb _ os); destruct (existsb _ os);
        destruct Hj as [H|[H|[H|H]]]; rewrite H; reflexivity.
    + rewrite (proj1 (set_panel_fields o j)).
      destruct (getSides_cases o) as [E|E]; rewrite E;
        destruct Hj as [H|[H|[H|H]]]; rewrite H; cbn; auto.
Qed.

Lemma fold_set_panel_last_right (post : list ItemOptions) :
  forall j : ItemSliding,
    has_side SideRight post = false ->
    _rightOptions (fold_left (fun acc o => set_panel o acc) post j) = _rightOptions j.
Proof.
  induction post as [|o post IH]; intros j Hno; [reflexivity|].
  unfold has_side in Hno. cbn [existsb] in Hno.
  apply orb_false_iff in Hno. destruct Hno as [Ho Hpost].
  cbn [fold_left]. rewrite (IH _ Hpost).
  rewrite (proj1 (proj2 (set_panel_fields o j))).
  destruct (getSides_cases o) as [E|E]; rewrite E in *; [reflexivity|discriminate Ho].
Qed.

(** X6. The [_itemOptions] setter marks the widths stale and computes
    [_sides] from scratch: 0 without panels, Left (1) or Right (2) with
    panels on one side only, Both (3) with panels on both.  Of several
    panels on the right the last one is the one kept, and without any the
    panel kept before stays. *)
Theorem itemOptions_sides :
  forall (itemOptions : list ItemOptions) (i : ItemSliding),
    let i' := _itemOptions itemOptions i in
    _optsDirty i' = true /\
    _sides i' = ((if has_side SideLeft itemOptions then 1 else 0)
                 + (if has_side SideRight itemOptions then 2 else 0))%Z /\
    (has_side SideRight itemOptions = false -> _rightOptions i' = _rightOptions i) /\
    (forall pre o post,
        itemOptions = pre ++ o :: post ->
        getSides o = SideRight -> has_side SideRight post = false ->
        _rightOptions i' = Some (width o)).
Proof.
  intros os i i'. unfold i', _itemOptions.
  cbn [set_optsDirty _optsDirty _sides _rightOptions].
  split; [reflexivity|]. split; [|split].
  - rewrite fold_set_panel_sides; [|now left]. reflexivity.
  - intro Hno. now rewrite fold_set_panel_last_right.
  - intros pre o post Heq Ho Hpost. subst os.
    rewrite fold_left_app. cbn [fold_left].
    rewrite (fold_set_panel_last_right post _ Hpost).
    rewrite (proj1 (proj2 (set_panel_fields o _))), Ho. reflexivity.
Qed.

Lemma itemOptions_sides_witness :
  _sides (_itemOptions [mkItemOptions (Some "left"%string) 60; mkItemOptions None 80]
            constructed) = SideBoth /\
  _rightOptions (_itemOptions [mkItemOptions (Some "left"%string) 60; mkItemOptions None 80]
                   constructed) = Some 80.
Proof.
  destruct (itemOptions_sides
              [mkItemOptions (Some "left"%string) 60; mkItemOptions None 80] constructed)
    as (_ & Hs & _ & Hlast).
  split; [exact Hs|].
  apply (Hlast [mkItemOptions (Some "left"%string) 60] (mkItemOptions None 80) []);
    reflexivity.
Defined.

(** X7. With both panel widths positive the sliding percentage is a finite
    number whose sign tells the open side (positive: right, negative:
    left, zero: closed) and whose magnitude exceeds 1 exactly when the
    row is dragged past the panel of that side. *)
Theorem getSlidingPercent_reading :
  forall w : World,
    0 < _optsWidthRightSide (fst w) ->
    0 < _optsWidthLeftSide (fst w) ->
    let openAmount := _openAmount (fst w) in
    exists q : Q,
      getSlidingPercent w = Fin q /\
      (0 < q <-> 0 < openAmount) /\
      (q < 0 <-> openAmount < 0) /\
      (1 < Qabs q <->
       _optsWidthRightSide (fst w) < openAmount \/
       openAmount < - _optsWidthLeftSide (fst w)).
Proof.
  intros w Hr Hl openAmount.
  unfold getSlidingPercent. fold openAmount.
  generalize dependent (_optsWidthRightSide (fst w)).
  generalize dependent (_optsWidthLeftSide (fst w)).
  clearbody openAmount. intros left Hl right Hr.
  destruct (Qltb_spec 0 openAmount) as [Hp|Hp];
    [|destruct (Qltb_spec openAmount 0) as [Hn|Hn]].
  - exists (openAmount / right).
    rewrite (proj1 (div_spec openAmount right)) by lra.
    split; [reflexivity|].
    assert (Hq : openAmount / right * right == openAmount) by (field; lra).
    assert (Hqpos : 0 < openAmount / right).
    { apply Qlt_shift_div_l; lra. }
    rewrite (Qabs_pos (openAmount / right)) by lra.
    revert Hq Hqpos. generalize (openAmount / right). intros q Hq Hqpos.
    repeat split; intros; try lra; try nra;
      match goal with H : _ \/ _ |- _ => destruct H; nra end.
  - exists (openAmount / left).
    rewrite (proj1 (div_spec openAmount left)) by lra.
    split; [reflexivity|].
    assert (Hq : openAmount / left * left == openAmount) by (field; lra).
    assert (Hqneg : openAmount / left < 0).
    { apply Qlt_shift_div_r; lra. }
    rewrite (Qabs_neg (openAmount / left)) by lra.
    revert Hq Hqneg. generalize (openAmount / left). intros q Hq Hqneg.
    repeat split; intros; try lra; try nra;
      match goal with H : _ \/ _ |- _ => destruct H; nra end.
  - exists 0. split; [reflexivity|].
    assert (Habs : Qabs 0 == 0) by reflexivity.
    rewrite Habs.
    repeat split; intros; try lra;
      match goal with H : _ \/ _ |- _ => destruct H; lra end.
Qed.

Lemma getSlidingPercent_reading_witness :
  exists q : Q,
    getSlidingPercent
      (mkItemSliding 91 100 80 60 None false Right SideBoth (Some 80) (Some 60), loaded)
      = Fin q /\ 1 < Qabs q.
Proof.
  destruct (getSlidingPercent_reading
              (mkItemSliding 91 100 80 60 None false Right SideBoth (Some 80) (Some 60),
               loaded))
    as (q & Hq & _ & _ & Hover).
  - reflexivity.
  - reflexivity.
  - exists q. split; [exact Hq|]. apply Hover. left. reflexivity.
Defined.

End SlidingSessionFacts.

(* ================================================================== *)
(** * Further properties of the scroll view *)

Module ScrollAnimationFacts.
Import JsNum Js Scroll ScrollAnimation SlidingFacts.

Lemma setTop_attached (top : num) (s : ScrollView) :
  _el s = true ->
  exists s',
    setTop top s = Ok tt s' /\
    _t s' = top /\ _l s' = _l s /\ _el s' = true /\ _js s' = _js s /\
    isScrolling s' = isScrolling s /\ completions s' = completions s /\
    (_js s = true ->
     styleTransform (node s')
       = Translate3d (mul (_l s) (Fin (-1))) (mul top (Fin (-1))) (Fin 0)) /\
    (_js s = false -> scrollTop (node s') = top).
Proof.
  intro Hel.
  destruct s as [scr st sl js el nd e mx rc ct cb rs ws nt ns cp].
  cbn in Hel. subst el.
  unfold setTop, the_element, bind, get, modify, ret.
  destruct js; cbn; eexists; repeat split; intro; discriminate.
Qed.

Lemma setLeft_attached (left : num) (s : ScrollView) :
  _el s = true ->
  exists s',
    setLeft left s = Ok tt s' /\
    _l s' = left /\ _t s' = _t s /\ _el s' = true /\ _js s' = _js s /\
    isScrolling s' = isScrolling s /\ completions s' = completions s /\
    (_js s = true ->
     styleTransform (node s')
       = Translate3d (mul left (Fin (-1))) (mul (_t s) (Fin (-1))) (Fin 0)) /\
    (_js s = false -> scrollLeft (node s') = left).
Proof.
  intro Hel.
  destruct s as [scr st sl js el nd e mx rc ct cb rs ws nt ns cp].
  cbn in Hel. subst el.
  unfold setLeft, the_element, bind, get, modify, ret.
  destruct js; cbn; eexists; repeat split; intro; discriminate.
Qed.

(** X8. In synthetic mode the vertical offset reads back what was set,
    and the transform written carries both offsets negated: [setLeft(l)]
    followed by [setTop(t)] leaves [translate3d(-l, -t, 0)] and [getTop]
    returns [t], while [getLeft] returns 0. *)
Theorem synthetic_offsets_round_trip :
  forall (s : ScrollView) (l t : num),
    _js s = true -> _el s = true ->
    exists s',
      bind (setLeft l) (fun _ => setTop t) s = Ok tt s' /\
      getTop s' = Ok t s' /\
      getLeft s' = Ok (Fin 0) s' /\
      styleTransform (node s')
        = Translate3d (mul l (Fin (-1))) (mul t (Fin (-1))) (Fin 0).
Proof.
  intros s l t Hjs Hel.
  destruct (setLeft_attached l s Hel) as (s1 & H1 & Hl1 & _ & Hel1 & Hjs1 & _).
  destruct (setTop_attached t s1 Hel1) as (s2 & H2 & Ht2 & Hl2 & _ & Hjs2 & _ & _ & Htr & _).
  exists s2. unfold bind at 1. rewrite H1, H2.
  rewrite Hjs in Hjs1. rewrite Hjs1 in Hjs2.
  split; [reflexivity|].
  unfold getTop, getLeft, bind, get, ret. rewrite Hjs2, Ht2.
  repeat split. rewrite (Htr Hjs1), Hl1. reflexivity.
Qed.

Lemma synthetic_offsets_round_trip_witness :
  exists s',
    bind (setLeft (Fin 30)) (fun _ => setTop (Fin 120)) (js_view page_node) = Ok tt s' /\
    getTop s' = Ok (Fin 120) s'.
Proof.
  destruct (synthetic_offsets_round_trip (js_view page_node) (Fin 30) (Fin 120))
    as (s' & H1 & H2 & _).
  - reflexivity.
  - reflexivity.
  - exists s'. split; assumption.
Defined.

(** ** Steps of the animation *)

(** A step of a stopped animation, and a step past the attempt budget:
    nothing moves, the transform style is cleared and [done] is called. *)
Lemma step_aborts (ts : num) (a : Animation) (s : ScrollView) :
  _el s = true -> done a <> DoneNull ->
  isScrolling s = false \/
  gt (Fin (inject_Z (Z.of_nat (S (attempts a))))) (maxAttempts a) = true ->
  exists s',
    step ts a s = Ok (set_attempts (S (attempts a)) a, false) s' /\
    _t s' = _t s /\ _l s' = _l s /\ _el s' = true /\
    isScrolling s' = false /\
    styleTransform (node s') = NoTransform /\
    completions s' = S (completions s).
Proof.
  intros Hel Hdone Hwhy.
  assert (Hguard : negb (_el s) || negb (isScrolling s)
                   || gt (Fin (inject_Z (Z.of_nat (S (attempts a))))) (maxAttempts a)
                   = true).
  { rewrite Hel. destruct Hwhy as [H|H]; rewrite H; cbn;
      [reflexivity|apply orb_true_r]. }
  destruct s as [scr st sl js el nd e mx rc ct cb rs ws nt ns cp].
  cbn in Hel. subst el.
  unfold step, clear_transform, call_done, the_element, bind, get, modify, ret.
  cbn [attempts set_attempts maxAttempts done _el isScrolling] in *.
  rewrite Hguard. cbn.
  destruct (done a); [|contradiction|]; cbn; eexists; repeat split.
Qed.

(** A step of a running animation within its budget, on finite numbers:
    the offsets move to the eased position, and the step asks for another
    frame exactly when the eased fraction is below 1. *)
Lemma step_moves (ts t0 d fy ty fx tx : Q) (a : Animation) (s : ScrollView) :
  _el s = true -> isScrolling s = true -> done a <> DoneNull ->
  gt (Fin (inject_Z (Z.of_nat (S (attempts a))))) (maxAttempts a) = false ->
  startTime a = Fin t0 -> duration a = Fin d -> ~ d == 0 ->
  fromY a = Fin fy -> y a = Fin ty -> fromX a = Fin fx -> x a = Fin tx ->
  let e := easeOutCubic (elapsed_fraction ts t0 d) in
  exists s',
    step (Fin ts) a s = Ok (set_attempts (S (attempts a)) a, Qltb e 1) s' /\
    _t s' = (if Qeq_bool fy ty then _t s else Fin (e * (ty + - fy) + fy)) /\
    _l s' = (if Qeq_bool fx tx then _l s
             else Fin (inject_Z (Qfloor (e * (tx + - fx) + fx)))) /\
    _el s' = true /\
    isScrolling s' = Qltb e 1 /\
    completions s' = (if Qltb e 1 then completions s else S (completions s)) /\
    (_js s = false -> Qeq_bool fy ty = false -> scrollTop (node s') = _t s').
Proof.
  intros Hel Hscr Hdone Hbudget Ht0 Hd Hd0 Hfy Hty Hfx Htx e.
  destruct s as [scr st sl js el nd ev mx rc ct cb rs ws nt ns cp].
  cbn in Hel, Hscr. subst el scr.
  destruct a as [ax ay ad afy afx ama ast aat adn].
  cbn [attempts maxAttempts startTime duration fromY fromX x y done]
    in Hbudget, Ht0, Hd, Hfy, Hty, Hfx, Htx, Hdone.
  subst ast ad afy ay afx ax.
  assert (Hdz : Qeq_bool d 0 = false).
  { destruct (Qeq_bool_spec d 0); [contradiction|reflexivity]. }
  unfold step, setTop, setLeft, clear_transform, call_done, the_element,
    bind, get, modify, ret.
  cbn [attempts set_attempts maxAttempts done _el isScrolling startTime duration
       fromY fromX x y negb orb].
  rewrite Hbudget.
  cbn [sub add neg divn]. unfold div. rewrite Hdz.
  cbn [min lt mul add strict_neq strict_eq floor].
  assert (Hmin : (if Qltb ((ts + - t0) / d) 1 then Fin ((ts + - t0) / d) else Fin 1)
                 = Fin (elapsed_fraction ts t0 d)).
  { unfold elapsed_fraction, Math_min. destruct (Qltb _ 1); reflexivity. }
  rewrite !Hmin. clear Hmin.
  cbn [sub add neg mul lt]. unfold strict_neq, strict_eq.
  change ((elapsed_fraction ts t0 d + Qopp 1) * (elapsed_fraction ts t0 d + Qopp 1)
          * (elapsed_fraction ts t0 d + Qopp 1) + 1) with e.
  clearbody e.
  destruct (Qeq_bool fy ty); destruct (Qeq_bool fx tx); destruct js;
    destruct (Qltb e 1); destruct adn; try contradiction;
    cbn; eexists; repeat split; intros; try reflexivity; try discriminate.
Qed.

(** A step with the node attached never throws, and tells by its result
    whether the animation goes on. *)
Lemma step_attached (ts : num) (a : Animation) (s : ScrollView) :
  _el s = true -> done a <> DoneNull ->
  exists (b : bool) (s' : ScrollView),
    step ts a s = Ok (set_attempts (S (attempts a)) a, b) s' /\
    _el s' = true /\
    (b = true ->
     gt (Fin (inject_Z (Z.of_nat (S (attempts a))))) (maxAttempts a) = false /\
     isScrolling s' = true /\ completions s' = completions s) /\
    (b = false ->
     isScrolling s' = false /\ completions s' = S (completions s) /\
     styleTransform (node s') = NoTransform).
Proof.
  intros Hel Hdone.
  destruct (isScrolling s) eqn:Hscr.
  2:{ destruct (step_aborts ts a s Hel Hdone (or_introl Hscr))
        as (s' & H & _ & _ & Hel' & Hs & Htr & Hc).
      exists false, s'. repeat split; intros; try assumption; try discriminate. }
  destruct (gt (Fin (inject_Z (Z.of_nat (S (attempts a))))) (maxAttempts a)) eqn:Hb.
  { destruct (step_aborts ts a s Hel Hdone (or_intror Hb))
      as (s' & H & _ & _ & Hel' & Hs & Htr & Hc).
    exists false, s'. repeat split; intros; try assumption; try discriminate. }
  destruct s as [scr st sl js el nd ev mx rc ct cb rs ws nt ns cp].
  cbn in Hel, Hscr. subst el scr.
  unfold step, setTop, setLeft, clear_transform, call_done, the_element,
    bind, get, modify, ret.
  cbn [attempts set_attempts maxAttempts done _el isScrolling startTime duration
       fromY fromX x y negb orb].
  rewrite Hb.
  generalize (add (mul (mul (sub (min (Fin 1) (divn (sub ts (startTime a)) (duration a)))
                               (Fin 1))
                          (sub (min (Fin 1) (divn (sub ts (startTime a)) (duration a)))
                               (Fin 1)))
                     (sub (min (Fin 1) (divn (sub ts (startTime a)) (duration a)))
                          (Fin 1)))
                (Fin 1)).
  intro easedT.
  destruct (strict_neq (fromY a) (y a)); destruct (strict_neq (fromX a) (x a));
    destruct js; destruct (lt easedT (Fin 1)); destruct (done a);
    try contradiction; cbn;
    eexists; eexists; (split; [reflexivity|]);
    repeat split; intros; try reflexivity; try discriminate.
Qed.

(** The attempt counter bounds the animation: with [attempts + fuel] above
    the budget, the steps end within [fuel]. *)
Lemma run_steps_within (clk : nat -> num) (m : Q) (fuel : nat) :
  forall (k : nat) (a : Animation) (s : ScrollView),
    _el s = true -> done a <> DoneNull -> maxAttempts a = Fin m ->
    m < inject_Z (Z.of_nat (attempts a + fuel)) ->
    (0 < fuel)%nat ->
    exists (n : nat) (a' : Animation) (s' : ScrollView),
      run_steps clk k fuel a s = Ok (Some (n, a')) s' /\
      (k < n <= k + fuel)%nat /\
      isScrolling s' = false /\
      completions s' = S (completions s) /\
      styleTransform (node s') = NoTransform.
Proof.
  induction fuel as [|fuel IH]; intros k a s Hel Hdone Hmax Hover Hpos; [lia|].
  destruct (step_attached (clk k) a s Hel Hdone) as (b & s1 & Hstep & Hel1 & Hgo & Hend).
  cbn [run_steps]. unfold bind at 1. rewrite Hstep. cbn [fst snd].
  destruct b.
  - destruct (Hgo eq_refl) as (Hin & Hscr & Hc).
    rewrite Hmax in Hin. unfold gt, lt in Hin. apply Qltb_false in Hin.
    assert (Hfuel : (0 < fuel)%nat).
    { destruct fuel; [|lia]. exfalso.
      rewrite Nat.add_1_r in Hover. lra. }
    destruct (IH (S k) (set_attempts (S (attempts a)) a) s1 Hel1 Hdone Hmax)
      as (n & a' & s' & Hrun & Hn & Hs & Hcs & Htr).
    + cbn [attempts set_attempts].
      replace (S (attempts a) + fuel)%nat with (attempts a + S fuel)%nat by lia.
      exact Hover.
    + exact Hfuel.
    + exists n, a', s'. rewrite Hrun, Hcs, Hc. repeat split; try lia; assumption.
  - destruct (Hend eq_refl) as (Hs & Hc & Htr).
    exists (S k), (set_attempts (S (attempts a)) a), s1.
    unfold ret. repeat split; try lia; assumption.
Qed.

Lemma budget_exceeds (m : Q) :
  m < inject_Z (Z.of_nat (0 + step_budget m)).
Proof.
  unfold step_budget. cbn [Nat.add].
  apply Qlt_le_trans with (inject_Z (Qfloor m + 1)); [apply Qlt_floor|].
  rewrite <- Zle_Qle. lia.
Qed.

Lemma scrollTo_attached (x y : num) (d : Q) (dn : DoneArg) (s : ScrollView) :
  _el s = true ->
  exists (a : Animation) (s1 : ScrollView),
    scrollTo x y (Fin d) dn s = Ok (Some a) s1 /\
    isScrolling s1 = true /\ _el s1 = true /\
    done a = dn /\ maxAttempts a = Fin (d / 16 + 100) /\ attempts a = 0%nat /\
    completions s1 = completions s.
Proof.
  intro Hel. destruct s as [scr st sl js el nd ev mx rc ct cb rs ws nt ns cp].
  cbn in Hel. subst el.
  eexists. eexists.
  unfold scrollTo, bind, get, modify, ret.
  cbn [_el negb state_of].
  split; [reflexivity|]. repeat split.
Qed.

(** X9. Whatever time stamps the frames carry, an animation started by
    [scrollTo] with a finite duration on a view whose node stays attached
    ends within floor(duration/16 + 100) + 1 steps, with the completion
    signalled exactly once, [isScrolling] cleared and the transform style
    reset; on a view without a node it signals completion at once and
    starts nothing. *)
Theorem scrollTo_completes_once :
  forall (clk : nat -> num) (x y : num) (d : Q) (dn : DoneArg) (s : ScrollView),
    dn <> DoneNull ->
    (_el s = false ->
     scrollTo x y (Fin d) dn s = Ok None (set_completions (S (completions s)) s)) /\
    (_el s = true ->
     exists (a : Animation) (s1 : ScrollView),
       scrollTo x y (Fin d) dn s = Ok (Some a) s1 /\
       isScrolling s1 = true /\
       exists (n : nat) (a' : Animation) (s2 : ScrollView),
         animate clk (step_budget (d / 16 + 100)) a s1 = Ok (Some (n, a')) s2 /\
         (0 < n <= step_budget (d / 16 + 100))%nat /\
         isScrolling s2 = false /\
         completions s2 = S (completions s) /\
         styleTransform (node s2) = NoTransform).
Proof.
  intros clk x y d dn s Hdn. split; intro Hel.
  - unfold scrollTo, call_done, bind, get, modify, ret. rewrite Hel. cbn.
    destruct dn; [reflexivity|contradiction|reflexivity].
  - destruct (scrollTo_attached x y d dn s Hel)
      as (a & s1 & Hstart & Hs1 & Hel1 & Hd1 & Hm1 & Ha1 & Hc1).
    exists a, s1. split; [exact Hstart|]. split; [exact Hs1|].
    unfold animate.
    destruct (run_steps_within clk (d / 16 + 100) (step_budget (d / 16 + 100))
                0 (set_startTime (clk 0%nat) a) s1)
      as (n & a' & s2 & Hrun & Hn & Hs & Hc & Htr).
    + exact Hel1.
    + cbn [done set_startTime]. rewrite Hd1. exact Hdn.
    + cbn [maxAttempts set_startTime]. exact Hm1.
    + cbn [attempts set_startTime]. rewrite Ha1. apply budget_exceeds.
    + unfold step_budget. lia.
    + exists n, a', s2. rewrite <- Hc1. repeat split; try assumption; lia.
Qed.

Lemma scrollTo_completes_once_witness :
  exists (a : Animation) (s1 : ScrollView),
    scrollTo (Fin 0) (Fin 100) (Fin 300) DoneOmitted (native_view page_node)
      = Ok (Some a) s1 /\
    exists (n : nat) (a' : Animation) (s2 : ScrollView),
      animate frame_clock (step_budget (300 / 16 + 100)) a s1 = Ok (Some (n, a')) s2 /\
      completions s2 = 1%nat.
Proof.
  destruct (scrollTo_completes_once frame_clock (Fin 0) (Fin 100) 300 DoneOmitted
              (native_view page_node)) as [_ H].
  - discriminate.
  - destruct H as (a & s1 & Hstart & _ & n & a' & s2 & Hrun & _ & _ & Hc & _).
    + reflexivity.
    + exists a, s1. split; [exact Hstart|].
      exists n, a', s2. split; [exact Hrun|exact Hc].
Defined.

Lemma elapsed_fraction_done (ts t0 d : Q) :
  0 < d -> d <= ts - t0 -> elapsed_fraction ts t0 d = 1.
Proof.
  intros Hd Hdone. unfold elapsed_fraction, Math_min.
  destruct (Qltb_spec ((ts + - t0) / d) 1) as [H|H]; [|reflexivity].
  exfalso. apply Qlt_not_le in H. apply H.
  apply Qle_shift_div_l; [exact Hd|]. lra.
Qed.



(** X10. A step of a running animation taken when the duration has
    elapsed has an eased fraction of exactly 1, clears [isScrolling],
    signals completion and asks for no further frame.  When the start
    offset [fromY], which [scrollTo] read from the node, differs from the
    target [y], the step sets the vertical offset to
    [1 * (y - fromY) + fromY], the target in exact arithmetic, in native
    mode also in the node's [scrollTop]; when they are equal it does not
    touch the vertical offset, wherever the view is.  The same holds
    horizontally, with the floor of the value. *)
Theorem step_lands_on_target :
  forall (ts t0 d fy ty fx tx : Q) (a : Animation) (s : ScrollView),
    _el s = true -> isScrolling s = true -> done a <> DoneNull ->
    gt (Fin (inject_Z (Z.of_nat (S (attempts a))))) (maxAttempts a) = false ->
    startTime a = Fin t0 -> duration a = Fin d ->
    fromY a = Fin fy -> y a = Fin ty -> fromX a = Fin fx -> x a = Fin tx ->
    0 < d -> d <= ts - t0 ->
    exists (s' : ScrollView) (easedT : Q),
      easedT = easeOutCubic (elapsed_fraction ts t0 d) /\
      elapsed_fraction ts t0 d = 1 /\ easedT == 1 /\
      step (Fin ts) a s = Ok (set_attempts (S (attempts a)) a, false) s' /\
      isScrolling s' = false /\
      completions s' = S (completions s) /\
      (~ fy == ty ->
       _t s' = Fin (easedT * (ty + - fy) + fy) /\
       easedT * (ty + - fy) + fy == ty /\
       (_js s = false -> scrollTop (node s') = _t s')) /\
      (fy == ty -> _t s' = _t s) /\
      (~ fx == tx ->
       _l s' = Fin (inject_Z (Qfloor (easedT * (tx + - fx) + fx))) /\
       easedT * (tx + - fx) + fx == tx) /\
      (fx == tx -> _l s' = _l s).
Proof.
  intros ts t0 d fy ty fx tx a s Hel Hscr Hdone Hbudget Ht0 Hd Hfy Hty Hfx Htx
    Hpos Helapsed.
  destruct (step_moves ts t0 d fy ty fx tx a s Hel Hscr Hdone Hbudget Ht0 Hd)
    as (s' & Hstep & Ht & Hl & _ & Hs & Hc & Hnode); try assumption.
  { intro Hz. rewrite Hz in Hpos. discriminate Hpos. }
  pose proof (elapsed_fraction_done ts t0 d Hpos Helapsed) as Hone.
  assert (He : easeOutCubic (elapsed_fraction ts t0 d) == 1).
  { rewrite Hone. unfold easeOutCubic. ring. }
  assert (Hlt : Qltb (easeOutCubic (elapsed_fraction ts t0 d)) 1 = false).
  { apply Qltb_false. rewrite He. apply Qle_refl. }
  rewrite Hlt in Hstep, Hs, Hc.
  exists s', (easeOutCubic (elapsed_fraction ts t0 d)).
  split; [reflexivity|]. split; [exact Hone|]. split; [exact He|].
  split; [exact Hstep|]. split; [exact Hs|]. split; [exact Hc|].
  repeat split.
  - destruct (Qeq_bool_spec fy ty) as [E|E]; [contradiction|exact Ht].
  - rewrite He. ring.
  - intro Hjs. destruct (Qeq_bool_spec fy ty) as [E|E]; [contradiction|].
    apply (Hnode Hjs eq_refl).
  - intro Heq. destruct (Qeq_bool_spec fy ty) as [E|E]; [exact Ht|contradiction].
  - destruct (Qeq_bool_spec fx tx) as [E|E]; [contradiction|exact Hl].
  - rewrite He. ring.
  - intro Heq. destruct (Qeq_bool_spec fx tx) as [E|E]; [exact Hl|contradiction].
Qed.

Lemma step_lands_on_target_witness :
  exists s' q,
    step (Fin 300) sample_animation animating
      = Ok (set_attempts 1 sample_animation, false) s' /\
    _t s' = Fin q /\ q == 100.
Proof.
  destruct (step_lands_on_target 300 0 300 0 100 0 0 sample_animation animating)
    as (s' & e & _ & _ & _ & Hstep & _ & _ & Hy & _); try reflexivity.
  - discriminate.
  - discriminate.
  - destruct Hy as (Ht & Hq & _).
    + discriminate.
    + exists s'. eexists. split; [exact Hstep|]. split; [exact Ht|exact Hq].
Defined.



(** X12. [stop()] ends a running animation: its next step moves nothing,
    resets the transform style, asks for no further frame and signals
    completion. *)
Theorem stop_ends_animation :
  forall (ts : num) (a : Animation) (s : ScrollView),
    _el s = true -> done a <> DoneNull ->
    exists s',
      bind stop (fun _ => step ts a) s
        = Ok (set_attempts (S (attempts a)) a, false) s' /\
      _t s' = _t s /\ _l s' = _l s /\
      isScrolling s' = false /\
      styleTransform (node s') = NoTransform /\
      completions s' = S (completions s).
Proof.
  intros ts a s Hel Hdone.
  destruct (step_aborts ts a (set_isScrolling false s)) as (s' & H & Ht & Hl & _ & Hs & Htr & Hc);
    try assumption.
  - left. reflexivity.
  - exists s'. unfold bind, stop, modify. rewrite H. repeat split; assumption.
Qed.

Lemma stop_ends_animation_witness :
  exists s',
    bind stop (fun _ => step (Fin 150) sample_animation) animating
      = Ok (set_attempts 1 sample_animation, false) s' /\
    completions s' = 1%nat.
Proof.
  destruct (stop_ends_animation (Fin 150) sample_animation animating)
    as (s' & H & _ & _ & _ & _ & Hc).
  - reflexivity.
  - discriminate.
  - exists s'. split; assumption.
Defined.

End ScrollAnimationFacts.

(* ================================================================== *)
(** * Properties of pointer interactions *)

Module PanSessionFacts.
Import JsNum Js Pan PanSession.

Lemma count_calls_snoc (p : Call -> bool) (l : list Call) (c : Call) :
  count_calls p (l ++ [c]) = (count_calls p l + (if p c then 1 else 0))%nat.
Proof.
  unfold count_calls. rewrite filter_app, length_app. cbn.
  destruct (p c); reflexivity.
Qed.

Lemma outstanding_snoc (l : list Call) (c : Call) :
  outstanding (l ++ [c]) = grant_after (outstanding l) c.
Proof. unfold outstanding. rewrite fold_left_app. reflexivity. Qed.

Section SessionFacts.

Context {D G : Type} `{Recognizer D} `{GestureDelegate G}.

Variable canStart : PointerEvent -> bool.

Ltac run_handler :=
  unfold deliver, pointerDown, pointerMove, pointerUp, tryToCapture, abort,
    gestute_release_if_any, gestute_release, bind, get, modify, ret, throw;
  cbn.

Ltac close_between :=
  eexists; split; [reflexivity|];
  unfold between_inputs; cbn;
  rewrite ?count_calls_snoc, ?outstanding_snoc; cbn;
  repeat split; intros; try reflexivity; try discriminate; try assumption;
  try lia; auto.

Lemma deliver_between (i : PointerInput) (s : PanGesture D G) :
  between_inputs s ->
  exists s', deliver canStart i s = Ok tt s' /\ between_inputs s'.
Proof.
  intros (Hdb & Hpe & Hcs & Hdet & Hdrag & Hout & Hnone).
  destruct s as [st cp li db gs dt pe cs].
  cbn in Hdb, Hpe, Hcs, Hdet, Hdrag, Hout, Hnone. subst db pe.
  destruct i as [ev|ev|ev]; destruct st.
  - (* down, session started *)
    run_handler. close_between.
  - (* down, no session *)
    assert (cp = false) by (destruct cp; [discriminate (Hcs eq_refl)|reflexivity]).
    subst cp. specialize (Hout eq_refl).
    run_handler.
    destruct (canStart ev); cbn; [|close_between].
    destruct gs as [g|]; cbn.
    + destruct (gesture_start (gesture_release g)) as [[|] g1]; cbn;
        [|close_between].
      destruct dt as [d|]; cbn; [close_between|].
      destruct (gesture_capture g1) as [[|] g2]; cbn; close_between.
    + destruct dt as [d|]; cbn; close_between.
  - (* move, session started *)
    run_handler.
    destruct cp; cbn; [close_between|].
    destruct dt as [d|]; [|exfalso; apply (Hdet eq_refl eq_refl); reflexivity].
    cbn. destruct (recognizer_detect ev d) as [[|] d'] eqn:Hd; cbn;
      [|close_between].
    destruct (negb (Z.eqb (recognizer_pan d') 0)); cbn; [|close_between].
    destruct gs as [g|]; cbn; [|close_between].
    destruct (gesture_capture g) as [[|] g1]; cbn; close_between.
  - (* move, no session *)
    run_handler. close_between.
  - (* up, session started *)
    run_handler.
    destruct gs as [g|]; cbn; destruct cp; cbn; close_between.
  - (* up, no session *)
    run_handler. close_between.
Qed.

Lemma deliver_all_between (inputs : list PointerInput) :
  forall s : PanGesture D G,
    between_inputs s ->
    exists s', deliver_all canStart inputs s = Ok tt s' /\ between_inputs s'.
Proof.
  induction inputs as [|i inputs IH]; intros s Hs.
  - exists s. split; [reflexivity|exact Hs].
  - destruct (deliver_between i s Hs) as (s1 & Hstep & Hs1).
    destruct (IH s1 Hs1) as (s' & Hrun & Hs').
    exists s'. split; [|exact Hs'].
    unfold deliver_all in *. cbn [for_each]. unfold bind at 1.
    rewrite Hstep. exact Hrun.
Qed.

Lemma listen_construct_between (opts : Options G) :
  domController opts = true ->
  between_inputs (D := D) (listen (construct opts)).
Proof.
  intro Hdc. unfold between_inputs, listen, construct. cbn. rewrite Hdc.
  repeat split; intros; try reflexivity; try discriminate.
Qed.

(** X13. On a listening controller built with a DOM controller, no
    sequence of pointer inputs makes a handler throw, whatever the
    recognizer, the delegate and [canStart] answer; after each input the
    move and up listeners are attached exactly while a session is started,
    and a captured controller is a started one. *)
Theorem pointer_session_safe :
  forall (opts : Options G) (inputs : list PointerInput),
    domController opts = true ->
    exists s' : PanGesture D G,
      deliver_all canStart inputs (listen (construct opts)) = Ok tt s' /\
      pointerEvents s' = Some (started s') /\
      (captured s' = true -> started s' = true).
Proof.
  intros opts inputs Hdc.
  destruct (deliver_all_between inputs _ (listen_construct_between opts Hdc))
    as (s' & Hrun & _ & Hpe & Hcs & _).
  exists s'. split; [exact Hrun|]. split; [exact Hpe|exact Hcs].
Qed.

(** X14. Over any sequence of pointer inputs on such a controller the
    drag hooks are bracketed: [onDragStart] has been called once more than
    [onDragEnd] while the controller is captured and equally often
    otherwise; and whenever no session is started the delegate holds no
    grant, each granted [start()] or [capture()] having been followed by a
    [release()]. *)
Theorem drag_hooks_bracketed :
  forall (opts : Options G) (inputs : list PointerInput),
    domController opts = true ->
    let s' : PanGesture D G :=
      state_of (deliver_all canStart inputs (listen (construct opts))) in
    count_calls is_drag_start (calls s')
      = (count_calls is_drag_end (calls s') + (if captured s' then 1 else 0))%nat /\
    (started s' = false -> outstanding (calls s') = false).
Proof.
  intros opts inputs Hdc.
  destruct (deliver_all_between inputs _ (listen_construct_between opts Hdc))
    as (s' & Hrun & _ & _ & _ & _ & Hdrag & Hout & _).
  rewrite Hrun. cbn [state_of]. split; [exact Hdrag|exact Hout].
Qed.

(** X15. A controller built without a DOM controller has no debouncer:
    its [pointerUp] throws at [debouncer.cancel()] before the delegate is
    released, a hook is called or the flags are reset, and a move on a
    captured controller throws at [debouncer.write]; both leave the
    controller as it was. *)
Theorem no_debouncer_throws :
  forall (opts : Options G) (s : PanGesture D G) (ev : PointerEvent),
    debouncer (D := D) (listen (construct opts)) = domController opts /\
    (debouncer s = false ->
     pointerUp ev s = Throw (TypeError "cancel") s /\
     (captured s = true -> pointerMove ev s = Throw (TypeError "write") s)).
Proof.
  intros opts s ev. split; [reflexivity|].
  intro Hdb. destruct s as [st cp li db gs dt pe cs]. cbn in Hdb. subst db.
  split; [reflexivity|].
  cbn. intro Hcp. subst cp. reflexivity.
Qed.

(** X16. On a controller with a debouncer [pointerUp] ends the session:
    it cancels the debouncer, then releases the delegate if there is one,
    then calls [onDragEnd] if the controller was captured and
    [notCaptured] otherwise, and leaves [captured] and [started] false. *)
Theorem pointerUp_ends_session :
  forall (s : PanGesture D G) (ev : PointerEvent),
    debouncer s = true ->
    exists s',
      pointerUp ev s = Ok tt s' /\
      started s' = false /\ captured s' = false /\
      gestute s' = option_map gesture_release (gestute s) /\
      detector s' = detector s /\
      calls s' = calls s ++ [DebouncerCancel]
                   ++ (match gestute s with Some _ => [GestureRelease] | None => [] end)
                   ++ [if captured s then OnDragEnd ev else NotCaptured ev].
Proof.
  intros s ev Hdb. destruct s as [st cp li db gs dt pe cs]. cbn in Hdb. subst db.
  unfold pointerUp, gestute_release_if_any, gestute_release,
    bind, get, modify, ret, throw.
  cbn. destruct gs as [g|]; cbn; eexists; (split; [reflexivity|]); cbn;
    rewrite <- ?app_assoc; repeat split.
Qed.


End SessionFacts.

(** A pan to the right on [idle_controller]: down at 0, a move to 30 that
    crosses the threshold, a further move, and the release. *)
Lemma pointer_session_safe_witness :
  exists s' : PanGesture AxisRecognizer Arbiter,
    deliver_all always
      [Down (mkPointerEvent 0 0); Move (mkPointerEvent 30 0);
       Move (mkPointerEvent 45 0); Up (mkPointerEvent 45 0)]
      (listen (construct (mkOptions None None None true
                            (Some (mkArbiter false false false false))))) = Ok tt s' /\
    pointerEvents s' = Some (started s').
Proof.
  destruct (pointer_session_safe always
              (mkOptions None None None true (Some (mkArbiter false false false false)))
              [Down (mkPointerEvent 0 0); Move (mkPointerEvent 30 0);
               Move (mkPointerEvent 45 0); Up (mkPointerEvent 45 0)])
    as (s' & Hrun & Hpe & _).
  - reflexivity.
  - exists s'. split; [exact Hrun|exact Hpe].
Defined.

Lemma drag_hooks_bracketed_witness :
  count_calls is_drag_start
    (calls (state_of (deliver_all always
       [Down (mkPointerEvent 0 0); Move (mkPointerEvent 30 0);
        Move (mkPointerEvent 45 0)]
       (listen (construct (D := AxisRecognizer)
                  (mkOptions None None None true
                     (Some (mkArbiter false false false false))))))))
  = (count_calls is_drag_end
      (calls (state_of (deliver_all always
         [Down (mkPointerEvent 0 0); Move (mkPointerEvent 30 0);
          Move (mkPointerEvent 45 0)]
         (listen (construct (D := AxisRecognizer)
                    (mkOptions None None None true
                       (Some (mkArbiter false false false false)))))))) + 1)%nat.
Proof.
  destruct (drag_hooks_bracketed (D := AxisRecognizer) always
              (mkOptions None None None true (Some (mkArbiter false false false false)))
              [Down (mkPointerEvent 0 0); Move (mkPointerEvent 30 0);
               Move (mkPointerEvent 45 0)])
    as (Hdrag & _).
  - reflexivity.
  - exact Hdrag.
Defined.

Lemma no_debouncer_throws_witness :
  pointerUp (mkPointerEvent 0 0)
    (listen (construct (D := AxisRecognizer)
               (mkOptions None None None false
                  (Some (mkArbiter false false false false)))))
  = Throw (TypeError "cancel")
      (listen (construct (D := AxisRecognizer)
                 (mkOptions None None None false
                    (Some (mkArbiter false false false false))))).
Proof.
  destruct (no_debouncer_throws
              (mkOptions None None None false (Some (mkArbiter false false false false)))
              (listen (construct (D := AxisRecognizer)
                         (mkOptions None None None false
                            (Some (mkArbiter false false false false)))))
              (mkPointerEvent 0 0))
    as (_ & Hthrow).
  destruct Hthrow as (Hup & _).
  - reflexivity.
  - exact Hup.
Defined.

Lemma pointerUp_ends_session_witness :
  exists s',
    pointerUp (mkPointerEvent 0 0) contended = Ok tt s' /\ started s' = false.
Proof.
  destruct (pointerUp_ends_session contended (mkPointerEvent 0 0))
    as (s' & Hup & Hst & _).
  - reflexivity.
  - exists s'. split; [exact Hup|exact Hst].
Defined.


End PanSessionFacts.

(* ================================================================== *)
(** * Properties of the radio group in use *)

Module RadioSessionFacts.
Import Radio RadioSession RadioFacts.

Lemma replace_nth_app {A : Type} (pre post : list A) (a x : A) :
  replace_nth (List.length pre) x (pre ++ a :: post) = pre ++ x :: post.
Proof.
  induction pre as [|p pre IH]; [reflexivity|].
  cbn [List.length app replace_nth]. rewrite IH. reflexivity.
Qed.

Lemma nth_error_middle {A : Type} (pre post : list A) (a : A) :
  nth_error (pre ++ a :: post) (List.length pre) = Some a.
Proof.
  induction pre as [|p pre IH]; [reflexivity|exact IH].
Qed.

Lemma last_default {A : Type} (l : list A) (a d1 d2 : A) :
  last (a :: l) d1 = last (a :: l) d2.
Proof.
  revert a. induction l as [|b l IH]; intro a; [reflexivity|].
  change (last (b :: l) d1 = last (b :: l) d2). apply IH.
Qed.

Section SessionFacts.

Variable isBlank : JsValue -> bool.
Variable isCheckedProperty : JsValue -> JsValue -> bool.
Variable isTrueProperty : JsValue -> bool.
Variable isPresent : JsValue -> bool.

(** On a boolean, [isTrueProperty] is the boolean itself. *)
Hypothesis isTrueProperty_bool : forall b : bool, isTrueProperty (VBool b) = b.

Local Abbreviation matches v rb := (isCheckedProperty v (rb_value isBlank rb)).
Local Abbreviation check rb := (set_checked isTrueProperty (VBool true) rb).
Local Abbreviation uncheck rb := (set_checked isTrueProperty (VBool false) rb).
Local Abbreviation loop := (update_buttons isBlank isCheckedProperty isTrueProperty).
Local Abbreviation update := (_update isBlank isCheckedProperty isTrueProperty).

Lemma set_checked_twice (x y : JsValue) (rb : RadioButton) :
  set_checked isTrueProperty x (set_checked isTrueProperty y rb)
  = set_checked isTrueProperty x rb.
Proof. destruct rb as [i v c d [it|]]; reflexivity. Qed.

Lemma rb_value_set_checked (x : JsValue) (rb : RadioButton) :
  rb_value isBlank (set_checked isTrueProperty x rb) = rb_value isBlank rb.
Proof. reflexivity. Qed.

Lemma checked_count_app (l1 l2 : list RadioButton) :
  checked_count (l1 ++ l2) = (checked_count l1 + checked_count l2)%nat.
Proof. unfold checked_count. rewrite filter_app, length_app. reflexivity. Qed.

Lemma checked_count_one (pre post : list RadioButton) (b : RadioButton) :
  checked_count (map (fun rb => uncheck rb) pre ++ check b
                   :: map (fun rb => uncheck rb) post) = 1%nat.
Proof.
  rewrite checked_count_app.
  change (check b :: map (fun rb => uncheck rb) post)
    with ([check b] ++ map (fun rb => uncheck rb) post).
  rewrite checked_count_app.
  rewrite !(checked_count_uncheck isTrueProperty isTrueProperty_bool).
  unfold checked_count. cbn [filter].
  rewrite (checked_set_checked isTrueProperty isTrueProperty_bool). reflexivity.
Qed.

Lemma update_checked_count (g : RadioGroup) :
  (checked_count (_btns (update g)) <= 1)%nat.
Proof.
  unfold _update.
  destruct (first_match_split isBlank isCheckedProperty (value g) (_btns g))
    as [Hno|(pre & b & post & Heq & Hpre & Hb)].
  - rewrite (update_buttons_no_match isBlank isCheckedProperty isTrueProperty
               isTrueProperty_bool _ _ _ Hno).
    cbn [_btns]. rewrite (checked_count_uncheck isTrueProperty isTrueProperty_bool). lia.
  - rewrite Heq.
    rewrite (update_buttons_first_match isBlank isCheckedProperty isTrueProperty
               isTrueProperty_bool _ _ _ _ _ Hpre Hb).
    cbn [_btns]. rewrite checked_count_one. lia.
Qed.

Lemma update_keeps (g : RadioGroup) :
  value (update g) = value g /\ _init (update g) = _init g.
Proof.
  unfold _update.
  destruct (loop (value g) false (activedescendant g) (_btns g)) as [btns active].
  split; reflexivity.
Qed.

(** X17. A click on a registered button makes the button's value the
    group's value, emits it once on [ionChange] and leaves at most one
    button checked.  The button checked is the first one in registration
    order whose value matches the clicked one's: the clicked button itself
    when no earlier one matches, and otherwise the earlier one, the
    clicked button ending up unchecked. *)
Theorem click_checks_first_match :
  forall (w : GroupWorld) (pre post : list RadioButton) (b : RadioButton),
    _btns (group w) = pre ++ b :: post ->
    let v := rb_value isBlank b in
    let w' := _click isBlank isCheckedProperty isTrueProperty (List.length pre) w in
    value (group w') = v /\
    ionChange w' = ionChange w ++ [v] /\
    touched w' = S (touched w) /\
    (checked_count (_btns (group w')) <= 1)%nat /\
    ((forall rb, In rb pre -> matches v rb = false) ->
     matches v b = true ->
     _btns (group w') = map (fun rb => uncheck rb) pre ++ check b
                          :: map (fun rb => uncheck rb) post /\
     activedescendant (group w') = Some (id b)) /\
    (forall p1 e p2,
        pre = p1 ++ e :: p2 ->
        (forall rb, In rb p1 -> matches v rb = false) ->
        matches v e = true ->
        _btns (group w') = map (fun rb => uncheck rb) p1 ++ check e
                             :: map (fun rb => uncheck rb) (p2 ++ b :: post) /\
        activedescendant (group w') = Some (id e)).
Proof.
  intros w pre post b Hbtns v w'.
  assert (Hw' : w' = onChange isBlank isCheckedProperty isTrueProperty v
                       (mkGroupWorld (set_btns (pre ++ check b :: post) (group w))
                          (ionChange w) (touched w))).
  { unfold w', _click. rewrite Hbtns, nth_error_middle, replace_nth_app.
    reflexivity. }
  rewrite Hw'. unfold onChange. cbn [group ionChange touched].
  split; [apply update_keeps|]. split; [reflexivity|]. split; [reflexivity|].
  split; [apply update_checked_count|].
  unfold _update, set_value, set_btns. cbn [_btns value activedescendant _init].
  split.
  - intros Hpre Hb.
    rewrite (update_buttons_first_match isBlank isCheckedProperty isTrueProperty
               isTrueProperty_bool v _ pre post (check b) Hpre Hb).
    cbn [_btns activedescendant]. rewrite set_checked_twice. split; reflexivity.
  - intros p1 e p2 Hsplit Hp1 He. subst pre.
    rewrite <- app_assoc. cbn [app].
    rewrite (update_buttons_first_match isBlank isCheckedProperty isTrueProperty
               isTrueProperty_bool v _ p1 (p2 ++ check b :: post) e Hp1 He).
    cbn [_btns activedescendant]. split; [|reflexivity].
    rewrite !map_app. cbn [map]. rewrite set_checked_twice. reflexivity.
Qed.

Lemma writeValue_initialised (val : JsValue) (w : GroupWorld) :
  _init (group w) = true ->
  let w' := writeValue isBlank isCheckedProperty isTrueProperty val w in
  ionChange w' = ionChange w ++ [val] /\
  touched w' = S (touched w) /\
  _init (group w') = true /\
  value (group w') = val.
Proof.
  intro Hinit. unfold writeValue, set_value. cbn [_init]. rewrite Hinit.
  cbn [group ionChange touched set_init _init value].
  repeat split. apply update_keeps.
Qed.

Lemma write_all_initialised (vals : list JsValue) :
  forall w : GroupWorld,
    _init (group w) = true ->
    let w' := write_all isBlank isCheckedProperty isTrueProperty vals w in
    ionChange w' = ionChange w ++ vals /\
    touched w' = (touched w + List.length vals)%nat /\
    _init (group w') = true /\
    value (group w') = last vals (value (group w)).
Proof.
  induction vals as [|val vals IH]; intros w Hinit.
  - cbn. rewrite app_nil_r, Nat.add_0_r. repeat split. exact Hinit.
  - destruct (writeValue_initialised val w Hinit) as (Hc1 & Ht1 & Hi1 & Hv1).
    specialize (IH (writeValue isBlank isCheckedProperty isTrueProperty val w) Hi1).
    cbn zeta in IH. destruct IH as (Hc & Ht & Hi & Hv).
    cbn zeta. unfold write_all in *. cbn [fold_left].
    rewrite Hc, Ht, Hi, Hv, Hc1, Ht1, Hv1.
    rewrite <- app_assoc. cbn [List.length app].
    repeat split; [lia|].
    destruct vals as [|j vals]; [reflexivity|].
    change (last (j :: vals) val = last (j :: vals) (value (group w))).
    apply last_default.
Qed.

(** X18. The first form write to a group only stores the value: no
    button and no attribute changes, nothing is emitted and [onTouched]
    is not called.  Every later write emits its value once, so a run of
    writes emits all its values but the first, in order, and leaves the
    last value in the group. *)
Theorem writeValue_first_call_silent :
  forall (val : JsValue) (vals : list JsValue) (w : GroupWorld),
    _init (group w) = false ->
    writeValue isBlank isCheckedProperty isTrueProperty val w
      = mkGroupWorld
          (mkRadioGroup (_btns (group w)) val (activedescendant (group w)) true)
          (ionChange w) (touched w) /\
    let w' := write_all isBlank isCheckedProperty isTrueProperty (val :: vals) w in
    ionChange w' = ionChange w ++ vals /\
    touched w' = (touched w + List.length vals)%nat /\
    value (group w') = last vals val.
Proof.
  intros val vals w Hinit.
  assert (Hfirst : writeValue isBlank isCheckedProperty isTrueProperty val w
                   = mkGroupWorld
                       (mkRadioGroup (_btns (group w)) val (activedescendant (group w)) true)
                       (ionChange w) (touched w)).
  { unfold writeValue, set_value. cbn [_init]. rewrite Hinit. reflexivity. }
  split; [exact Hfirst|].
  cbn zeta. unfold write_all. cbn [fold_left]. rewrite Hfirst.
  destruct (write_all_initialised vals
              (mkGroupWorld
                 (mkRadioGroup (_btns (group w)) val (activedescendant (group w)) true)
                 (ionChange w) (touched w)) eq_refl) as (Hc & Ht & _ & Hv).
  unfold write_all in Hc, Ht, Hv. rewrite Hc, Ht, Hv. repeat split.
Qed.

Lemma find_checked_unchecked (l : list RadioButton) :
  find _checked (map (fun rb => uncheck rb) l) = None.
Proof.
  induction l as [|rb l IH]; [reflexivity|].
  cbn [map find]. rewrite (checked_set_checked isTrueProperty isTrueProperty_bool).
  exact IH.
Qed.

Lemma map_init_no_match (v : JsValue) (l : list RadioButton) :
  (forall rb, In rb l -> matches v rb = false) ->
  map (fun rb => set_checked isTrueProperty (VBool (matches v rb)) rb) l
  = map (fun rb => uncheck rb) l.
Proof.
  intro Hno. apply map_ext_in. intros rb Hin. rewrite (Hno rb Hin). reflexivity.
Qed.

Lemma checked_count_init (v : JsValue) (l : list RadioButton) :
  checked_count (map (fun rb => set_checked isTrueProperty (VBool (matches v rb)) rb) l)
  = List.length (filter (fun rb => matches v rb) l).
Proof.
  unfold checked_count. induction l as [|rb l IH]; [reflexivity|].
  cbn [map filter]. rewrite (checked_set_checked isTrueProperty isTrueProperty_bool).
  destruct (matches v rb); cbn [List.length]; rewrite IH; reflexivity.
Qed.

(** X19. When the group has a value at initialisation, [ngOnInit] checks
    every button whose value matches it, duplicates included, and
    [ngAfterContentInit] then names the first of them as the active
    descendant: the same button [_update] would name, although [_update]
    would leave only that one checked. *)
Theorem init_agrees_with_update :
  forall g : RadioGroup,
    isPresent (value g) = true ->
    let initialised :=
      set_btns (map (ngOnInit isBlank isCheckedProperty isTrueProperty isPresent g)
                  (_btns g)) g in
    let g' := ngAfterContentInit initialised in
    activedescendant g' = activedescendant (update g) /\
    checked_count (_btns g')
      = List.length (filter (fun rb => matches (value g) rb) (_btns g)) /\
    (checked_count (_btns (update g)) <= checked_count (_btns g'))%nat.
Proof.
  intros g Hpresent initialised g'.
  assert (Hbtns : _btns initialised
                  = map (fun rb => set_checked isTrueProperty
                                     (VBool (matches (value g) rb)) rb) (_btns g)).
  { unfold initialised, set_btns. cbn [_btns]. apply map_ext. intro rb.
    unfold ngOnInit. rewrite Hpresent. reflexivity. }
  assert (Hsame : _btns g' = _btns initialised).
  { unfold g', ngAfterContentInit.
    destruct (find _checked (_btns initialised)); reflexivity. }
  assert (Hcount : checked_count (_btns g')
                   = List.length (filter (fun rb => matches (value g) rb) (_btns g))).
  { rewrite Hsame, Hbtns. apply checked_count_init. }
  destruct (first_match_split isBlank isCheckedProperty (value g) (_btns g))
    as [Hno|(pre & b & post & Heq & Hpre & Hb)].
  - split; [|split; [exact Hcount|]].
    + unfold g', ngAfterContentInit. rewrite Hbtns.
      rewrite (map_init_no_match _ _ Hno), find_checked_unchecked.
      unfold _update.
      rewrite (update_buttons_no_match isBlank isCheckedProperty isTrueProperty
                 isTrueProperty_bool _ _ _ Hno). reflexivity.
    + unfold _update.
      rewrite (update_buttons_no_match isBlank isCheckedProperty isTrueProperty
                 isTrueProperty_bool _ _ _ Hno).
      cbn [_btns]. rewrite (checked_count_uncheck isTrueProperty isTrueProperty_bool).
      lia.
  - split; [|split; [exact Hcount|]].
    + unfold g', ngAfterContentInit. rewrite Hbtns, Heq.
      rewrite map_app. cbn [map]. rewrite (map_init_no_match _ _ Hpre), Hb.
      assert (Hfind : forall l rest,
                 find _checked (map (fun rb => uncheck rb) l ++ check b :: rest)
                 = Some (check b)).
      { intros l rest. induction l as [|rb l IH].
        - cbn [map app find].
          rewrite (checked_set_checked isTrueProperty isTrueProperty_bool). reflexivity.
        - cbn [map app find].
          rewrite (checked_set_checked isTrueProperty isTrueProperty_bool). exact IH. }
      rewrite Hfind. unfold _update. rewrite Heq.
      rewrite (update_buttons_first_match isBlank isCheckedProperty isTrueProperty
                 isTrueProperty_bool _ _ _ _ _ Hpre Hb). reflexivity.
    + rewrite Hcount. unfold _update. rewrite Heq.
      rewrite (update_buttons_first_match isBlank isCheckedProperty isTrueProperty
                 isTrueProperty_bool _ _ _ _ _ Hpre Hb).
      cbn [_btns]. rewrite checked_count_one.
      rewrite filter_app, length_app. cbn [filter]. rewrite Hb. cbn [List.length]. lia.
Qed.

End SessionFacts.

(** A click on the third of [twin_buttons] checks the second, which has
    the same value. *)
Lemma click_checks_first_match_witness :
  map _checked
    (_btns (group (_click sample_isBlank sample_isCheckedProperty sample_isTrueProperty
                     2 (mkGroupWorld twin_buttons [] 0))))
  = [false; true; false].
Proof.
  destruct (click_checks_first_match sample_isBlank sample_isCheckedProperty
              sample_isTrueProperty (fun b => eq_refl)
              (mkGroupWorld twin_buttons [] 0)
              [mkRadioButton "rb-0-0" (VStr "cord") true false None;
               mkRadioButton "rb-0-1" (VStr "hudson") false false None]
              []
              (mkRadioButton "rb-0-2" (VStr "hudson") true false None))
    as (_ & _ & _ & _ & _ & Hearlier).
  - reflexivity.
  - destruct (Hearlier [mkRadioButton "rb-0-0" (VStr "cord") true false None]
                (mkRadioButton "rb-0-1" (VStr "hudson") false false None) [])
      as (Hbtns & _).
    + reflexivity.
    + intros rb [<-|[]]. reflexivity.
    + reflexivity.
    + cbn [List.length] in Hbtns. rewrite Hbtns. reflexivity.
Defined.

Lemma writeValue_first_call_silent_witness :
  ionChange (write_all sample_isBlank sample_isCheckedProperty sample_isTrueProperty
               [VStr "cord"; VStr "hudson"] fresh_group)
  = [VStr "hudson"].
Proof.
  destruct (writeValue_first_call_silent sample_isBlank sample_isCheckedProperty
              sample_isTrueProperty (VStr "cord") [VStr "hudson"] fresh_group)
    as (_ & Hc & _).
  - reflexivity.
  - exact Hc.
Defined.

Lemma init_agrees_with_update_witness :
  activedescendant
    (ngAfterContentInit
       (set_btns
          (map (ngOnInit sample_isBlank sample_isCheckedProperty sample_isTrueProperty
                  sample_isPresent twin_buttons) (_btns twin_buttons))
          twin_buttons))
  = activedescendant
      (_update sample_isBlank sample_isCheckedProperty sample_isTrueProperty
         twin_buttons).
Proof.
  destruct (init_agrees_with_update sample_isBlank sample_isCheckedProperty
              sample_isTrueProperty sample_isPresent (fun b => eq_refl) twin_buttons)
    as (Hactive & _).
  - reflexivity.
  - exact Hactive.
Defined.


End RadioSessionFacts.

(* ================================================================== *)
(** * Properties of the icon *)

Module IconFacts.
Import Js Icon.

Lemma classes_of_snoc (calls : list RenderCall) (c : RenderCall) :
  classes_of (calls ++ [c]) = apply_render (classes_of calls) c.
Proof. unfold classes_of. rewrite fold_left_app. reflexivity. Qed.

Lemma eqb_singleton (s : string) :
  filter (fun c => negb (String.eqb c s)) [s] = [].
Proof. cbn. rewrite String.eqb_refl. reflexivity. Qed.

(** X20. [update()] is idempotent: called again with no input changed in
    between, it ends the same way, leaves the icon as the first call left
    it and makes no further call on the renderer. *)
Theorem update_idempotent :
  forall i : Icon, update (state_of (update i)) = update i.
Proof.
  intros [mode act nm ios md css hid calls].
  unfold update, bind, get, modify, ret, throw. cbn.
  destruct (if truthy ios && is_literal mode "ios" then ios
            else if truthy md && is_literal mode "md" then md else nm)
    as [| |name] eqn:Hname; cbn.
  - rewrite Hname. reflexivity.
  - rewrite Hname. reflexivity.
  - match goal with
    | |- context [String.eqb css ?c] => set (cls := c); destruct (String.eqb css cls) eqn:Hcss
    end.
    + cbn. rewrite Hname. cbn. fold cls. rewrite Hcss. reflexivity.
    + destruct (String.eqb css ""); cbn; rewrite Hname; cbn; fold cls;
        rewrite String.eqb_refl; reflexivity.
Qed.

Lemma prefix_ion (rest : string) :
  String.prefix "ion-" (String.append "ion-" rest) = true.
Proof. cbn. destruct rest; reflexivity. Qed.

Lemma update_settled (i : Icon) :
  settled i ->
  exists i', update i = Ok tt i' /\ settled i' /\
             String.prefix "ion-" (_css i') = true.
Proof.
  destruct i as [mode act nm ios md css hid calls].
  intros (Hhid & (s & Hnm) & Hcls & Hcss). cbn in Hhid, Hnm, Hcls, Hcss. subst hid nm.
  unfold update, bind, get, modify, ret, throw. cbn.
  assert (Hname : exists name,
             (if truthy ios && is_literal mode "ios" then ios
              else if truthy md && is_literal mode "md" then md else SStr s)
             = SStr name).
  { destruct ios as [| |a]; destruct md as [| |b]; cbn;
      repeat match goal with
             | |- context [if ?c then _ else _] => destruct c
             end; eexists; reflexivity. }
  destruct Hname as (name & ->). cbn.
  match goal with
  | |- context [String.eqb css ?c] => set (cls := c); destruct (String.eqb css cls) eqn:Heq
  end.
  - eexists. split; [reflexivity|].
    apply String.eqb_eq in Heq.
    unfold settled. cbn.
    repeat split; [eexists; reflexivity|exact Hcls|exact Hcss|].
    rewrite Heq. apply prefix_ion.
  - assert (Hion : exists rest, cls = String.append "ion-" rest).
    { unfold cls. eexists. reflexivity. }
    destruct Hion as (rest & Hrest).
    destruct (String.eqb css "") eqn:Hempty; cbn;
      (eexists; split; [reflexivity|]);
      unfold settled; cbn;
      rewrite !classes_of_snoc, Hcls, Hrest; cbn;
      rewrite ?String.eqb_refl; cbn;
      (repeat split; [eexists; reflexivity|right; apply prefix_ion|apply prefix_ion]).
Qed.

Section InputFacts.

Variable isTrueProperty : JsString -> bool.

Lemma set_input_settled (inp : Input) (i : Icon) :
  settled i ->
  exists i', set_input isTrueProperty inp i = Ok tt i' /\ settled i' /\
             String.prefix "ion-" (_css i') = true.
Proof.
  intro Hs.
  destruct i as [mode act nm ios md css hid calls].
  destruct Hs as (Hhid & (s & Hnm) & Hcls & Hcss). cbn in Hhid, Hnm, Hcls, Hcss.
  destruct inp as [val|val|val|val]; unfold set_input, bind, get, modify; cbn [_iconMode].
  - destruct (negb (has_mode_prefix val)) eqn:Hp.
    + apply update_settled. unfold settled. cbn.
      repeat split; [exact Hhid|eexists; reflexivity|exact Hcls|exact Hcss].
    + apply update_settled. unfold settled. cbn.
      repeat split; [exact Hhid| |exact Hcls|exact Hcss].
      destruct val as [| |v]; [discriminate Hp|discriminate Hp|eexists; reflexivity].
  - apply update_settled. unfold settled. cbn.
    repeat split; [exact Hhid|exists s; exact Hnm|exact Hcls|exact Hcss].
  - apply update_settled. unfold settled. cbn.
    repeat split; [exact Hhid|exists s; exact Hnm|exact Hcls|exact Hcss].
  - apply update_settled. unfold settled. cbn.
    repeat split; [exact Hhid|exists s; exact Hnm|exact Hcls|exact Hcss].
Qed.

Lemma set_inputs_settled (inputs : list Input) :
  forall i : Icon,
    settled i ->
    exists i', set_inputs isTrueProperty inputs i = Ok tt i' /\ settled i' /\
               (inputs <> [] \/ String.prefix "ion-" (_css i) = true ->
                String.prefix "ion-" (_css i') = true).
Proof.
  induction inputs as [|inp inputs IH]; intros i Hs.
  - exists i. split; [reflexivity|]. split; [exact Hs|].
    intros [Hne|Hp]; [contradiction|exact Hp].
  - destruct (set_input_settled inp i Hs) as (i1 & Hstep & Hs1 & Hp1).
    destruct (IH i1 Hs1) as (i' & Hrun & Hs' & Hp').
    exists i'. split; [|split; [exact Hs'|]].
    + unfold set_inputs in *. cbn [for_each]. unfold bind at 1.
      rewrite Hstep. exact Hrun.
    + intros _. apply Hp'. right. exact Hp1.
Qed.

(** X21. Whatever values the inputs [name], [ios], [md] and [isActive]
    are given, in any order and for any configured icon mode, no setter
    throws and the icon is never hidden; the element carries exactly one
    class set by the icon, the current one, which begins with [ion-], or
    none while no input has been set; and [ngOnDestroy] removes it. *)
Theorem icon_single_class :
  forall (iconMode : JsString) (inputs : list Input),
    exists i' : Icon,
      set_inputs isTrueProperty inputs (construct iconMode) = Ok tt i' /\
      _hidden i' = false /\
      classes_of (rendered i') = (if String.eqb (_css i') "" then [] else [_css i']) /\
      (inputs <> [] -> String.prefix "ion-" (_css i') = true) /\
      classes_of (rendered (state_of (ngOnDestroy i'))) = [].
Proof.
  intros iconMode inputs.
  assert (H0 : settled (construct iconMode)).
  { unfold settled, construct. cbn. repeat split; [eexists; reflexivity|left; reflexivity]. }
  destruct (set_inputs_settled inputs _ H0) as (i' & Hrun & Hs' & Hp).
  exists i'. split; [exact Hrun|].
  destruct Hs' as (Hhid & _ & Hcls & Hcss).
  split; [exact Hhid|]. split; [exact Hcls|]. split.
  - intro Hne. apply Hp. left. exact Hne.
  - unfold ngOnDestroy, bind, get, modify, ret.
    destruct (String.eqb (_css i') "") eqn:Hempty; cbn [negb state_of].
    + exact Hcls.
    + cbn [state_of render rendered]. rewrite classes_of_snoc, Hcls. cbn.
      rewrite String.eqb_refl. reflexivity.
Qed.

End InputFacts.

(** An inactive star on iOS, then an explicit iOS icon. *)
Lemma icon_single_class_witness :
  exists i' : Icon,
    set_inputs sample_isTrueProperty
      [Name (SStr "star"); IsActive (SStr "false"); Ios (SStr "ios-add")]
      (construct (SStr "ios")) = Ok tt i' /\
    String.prefix "ion-" (_css i') = true.
Proof.
  destruct (icon_single_class sample_isTrueProperty (SStr "ios")
              [Name (SStr "star"); IsActive (SStr "false"); Ios (SStr "ios-add")])
    as (i' & Hrun & _ & _ & Hp & _).
  exists i'. split; [exact Hrun|]. apply Hp. discriminate.
Defined.


End IconFacts.

(* ================================================================== *)
(** * Properties of the touch handlers *)

Module ScrollTouchFacts.
Import JsNum Js Scroll ScrollTouch SlidingFacts.

Lemma latest_snoc (ps : list (num * num)) (p : num * num) :
  latest (ps ++ [p]) = Some p.
Proof. unfold latest. rewrite rev_app_distr. reflexivity. Qed.

Lemma touch_clamp_range (a m : Q) :
  0 <= m -> 0 <= Math_min (Math_max a 0) m <= m.
Proof.
  intro Hm. unfold Math_min, Math_max.
  destruct (Qltb_spec a 0) as [Ha|Ha].
  - destruct (Qltb_spec m 0); lra.
  - destruct (Qltb_spec m a); lra.
Qed.

(** One move of the pointer while a touch is in progress. *)
Lemma jsScrollTouchMove_spec (y ts yp t m : Q) (tp : num) (ps : list (num * num))
  (w : TouchView) :
  positions w = ps ++ [(Fin yp, tp)] ->
  _t (view w) = Fin t ->
  layout_max (view w) = Fin m ->
  (max (view w) = MaxNull \/ max (view w) = MaxNum (Fin m)) ->
  exists w',
    jsScrollTouchMove (Fin y) (Fin ts) w = Ok tt w' /\
    _t (view w') = Fin (Math_min (Math_max (t + - (y + - yp)) 0) m) /\
    positions w' = positions w ++ [(Fin y, Fin ts)] /\
    isScrolling (view w') = true /\
    scroll_starts (notified (view w'))
      = (scroll_starts (notified (view w))
         + (if isScrolling (view w) then 0 else 1))%nat /\
    scroll_ends (notified (view w')) = scroll_ends (notified (view w)) /\
    layout_max (view w') = Fin m /\
    max (view w') = MaxNum (Fin m) /\
    topWrites w' = S (topWrites w) /\
    reads (view w') = reads (view w) /\
    node (view w') = node (view w) /\
    _js (view w') = _js (view w) /\
    _el (view w') = _el (view w).
Proof.
  intros Hps Ht Hlay Hmax.
  destruct w as [[scr st sl js el nd e mx rc ct cb rs ws nt ns cp] ps0 sy dy tw].
  unfold layout_max in Hlay.
  cbn in Hps, Ht, Hlay, Hmax. subst ps0 st.
  unfold jsScrollTouchMove, bind, get. cbn [positions].
  rewrite latest_snoc.
  unfold lift, push, setMax, bind, get, modify, ret.
  cbn [view set_view set_ev max contentTop contentBottom node].
  assert (Hmx : (if max_truthy mx then mx
                 else MaxNum (add (add (sub (scrollHeight nd) (parentOffsetHeight nd)) ct) cb))
                = MaxNum (Fin m)).
  { rewrite Hlay. destruct Hmax as [->| ->]; [reflexivity|].
    destruct (max_truthy (MaxNum (Fin m))); reflexivity. }
  destruct (max_truthy mx) eqn:Htruthy; [subst mx|rewrite Hlay]; cbn;
    (destruct scr; cbn; eexists; (split; [reflexivity|]); cbn;
     unfold layout_max, scroll_starts, scroll_ends; cbn; rewrite ?Hlay;
     repeat split; try lia;
     unfold Math_min, Math_max;
     destruct (Qltb (t + - (y + - yp)) 0); cbn;
     match goal with |- context [Qltb m ?b] => destruct (Qltb m b) end; reflexivity).
Qed.

(** A touch start forgets the earlier samples and the bound, and cancels
    the deceleration frame that is queued. *)
Lemma jsScrollTouchStart_spec (y0 t0 : num) (w : TouchView) :
  exists w',
    jsScrollTouchStart y0 t0 w = Ok tt w' /\
    positions w' = [(y0, t0)] /\
    max (view w') = MaxNull /\
    _t (view w') = _t (view w) /\
    isScrolling (view w') = isScrolling (view w) /\
    notified (view w') = notified (view w) /\
    layout_max (view w') = layout_max (view w) /\
    topWrites w' = topWrites w /\
    reads (view w')
      = match rafCancel (view w) with
        | Some h => filter (fun r => negb (Pos.eqb r h)) (reads (view w))
        | None => reads (view w)
        end.
Proof.
  destruct w as [[scr st sl js el nd e mx rc ct cb rs ws nt ns cp] ps0 sy dy tw].
  unfold jsScrollTouchStart, lift, push, dom_cancel, bind, get, modify, ret. cbn.
  destruct rc as [h|]; cbn; eexists; (split; [reflexivity|]); repeat split.
Qed.

Lemma moves_spec (m : Q) (moves : list (Q * Q)) :
  0 <= m ->
  forall (w : TouchView) (ps : list (num * num)) (yp t : Q) (tp : num),
    positions w = ps ++ [(Fin yp, tp)] ->
    _t (view w) = Fin t ->
    layout_max (view w) = Fin m ->
    (max (view w) = MaxNull \/ max (view w) = MaxNum (Fin m)) ->
    exists (w' : TouchView) (t' : Q),
      for_each moves (fun p => jsScrollTouchMove (Fin (fst p)) (Fin (snd p))) w
        = Ok tt w' /\
      _t (view w') = Fin t' /\
      (moves <> [] -> 0 <= t' <= m /\ isScrolling (view w') = true) /\
      scroll_starts (notified (view w'))
        = (scroll_starts (notified (view w))
           + (if isScrolling (view w) then 0
              else match moves with [] => 0 | _ :: _ => 1 end))%nat /\
      scroll_ends (notified (view w')) = scroll_ends (notified (view w)) /\
      topWrites w' = (topWrites w + List.length moves)%nat /\
      List.length (positions w') = (List.length (positions w) + List.length moves)%nat /\
      reads (view w') = reads (view w).
Proof.
  intro Hm. induction moves as [|[y ts] moves IH]; intros w ps yp t tp Hps Ht Hlay Hmax.
  - exists w, t. split; [reflexivity|]. split; [exact Ht|].
    split; [intro Hne; contradiction|].
    destruct (isScrolling (view w)); repeat split; cbn; lia.
  - destruct (jsScrollTouchMove_spec y ts yp t m tp ps w Hps Ht Hlay Hmax)
      as (w1 & Hstep & Ht1 & Hps1 & Hscr1 & Hst1 & Hen1 & Hlay1 & Hmax1 & Htw1
          & Hrd1 & _).
    rewrite Hps in Hps1. rewrite <- app_assoc in Hps1. cbn [app] in Hps1.
    destruct (IH w1 (ps ++ [(Fin yp, tp)]) y
                (Math_min (Math_max (t + - (y + - yp)) 0) m) (Fin ts)) as
      (w' & t' & Hrun & Ht' & Hrange & Hst & Hen & Htw & Hlen & Hrd);
      [rewrite Hps1, <- app_assoc; reflexivity|exact Ht1|exact Hlay1|right; exact Hmax1|].
    exists w', t'. split.
    { cbn [for_each fst snd]. unfold bind at 1. rewrite Hstep. exact Hrun. }
    split; [exact Ht'|]. split.
    { intros _. destruct moves as [|mv moves].
      - cbn in Hrun. inversion Hrun. subst w'. rewrite Ht1 in Ht'.
        inversion Ht'. split; [apply touch_clamp_range; exact Hm|exact Hscr1].
      - apply Hrange. discriminate. }
    rewrite Hst, Hst1, Hen, Hen1, Htw, Htw1, Hlen, Hrd, Hrd1, Hscr1.
    rewrite Hps1, Hps, !length_app. cbn [List.length].
    destruct (isScrolling (view w)); repeat split; lia.
Qed.

(** X22. A drag, a touch start followed by any moves, never throws and
    never ends a scroll.  Once the pointer has moved the view is
    scrolling, the offset lies between 0 and the bound read from the
    layout, and [scrollStart] has been emitted once if the view was not
    scrolling before and not at all otherwise; every move hands one
    [setTop] callback to the write phase. *)
Theorem drag_clamped :
  forall (y0 t0 t m : Q) (moves : list (Q * Q)) (w : TouchView),
    _t (view w) = Fin t ->
    layout_max (view w) = Fin m ->
    0 <= m ->
    exists (w' : TouchView) (t' : Q),
      drag y0 t0 moves w = Ok tt w' /\
      _t (view w') = Fin t' /\
      (moves <> [] -> 0 <= t' <= m /\ isScrolling (view w') = true) /\
      scroll_starts (notified (view w'))
        = (scroll_starts (notified (view w))
           + (if isScrolling (view w) then 0
              else match moves with [] => 0 | _ :: _ => 1 end))%nat /\
      scroll_ends (notified (view w')) = scroll_ends (notified (view w)) /\
      topWrites w' = (topWrites w + List.length moves)%nat /\
      List.length (positions w') = S (List.length moves).
Proof.
  intros y0 t0 t m moves w Ht Hlay Hm.
  destruct (jsScrollTouchStart_spec (Fin y0) (Fin t0) w)
    as (w0 & Hstart & Hps0 & Hmax0 & Ht0 & Hscr0 & Hns0 & Hlay0 & Htw0 & _).
  destruct (moves_spec m moves Hm w0 [] y0 t (Fin t0)) as
    (w' & t' & Hrun & Ht' & Hrange & Hst & Hen & Htw & Hlen & _);
    [exact Hps0|rewrite Ht0; exact Ht|rewrite Hlay0; exact Hlay|left; exact Hmax0|].
  exists w', t'. split.
  { unfold drag, bind. rewrite Hstart. exact Hrun. }
  split; [exact Ht'|]. split; [exact Hrange|].
  rewrite Hst, Hen, Htw, Hlen, Hns0, Hscr0, Htw0, Hps0. repeat split.
Qed.

Lemma drag_clamped_witness :
  exists (w' : TouchView) (t' : Q),
    drag 300 0 [(290, 16); (250, 32); (100, 48)] at_rest = Ok tt w' /\
    _t (view w') = Fin t' /\ 0 <= t' <= 1000 /\ isScrolling (view w') = true.
Proof.
  destruct (drag_clamped 300 0 0 1000 [(290, 16); (250, 32); (100, 48)] at_rest)
    as (w' & t' & Hrun & Ht' & Hrange & _).
  - reflexivity.
  - reflexivity.
  - discriminate.
  - exists w', t'. split; [exact Hrun|]. split; [exact Ht'|].
    apply Hrange. discriminate.
Defined.


Lemma sample_latest (ps : list (num * num)) (p : num * num) :
  sample_y (ps ++ [p]) (List.length ps) = fst p /\
  sample_time (ps ++ [p]) (List.length ps) = snd p.
Proof.
  unfold sample_y, sample_time.
  rewrite nth_error_app2, Nat.sub_diag; [split; reflexivity|lia].
Qed.

Lemma sample_earlier (ps : list (num * num)) (p q : num * num) (k : nat) :
  nth_error ps k = Some q ->
  sample_y (ps ++ [p]) k = fst q /\ sample_time (ps ++ [p]) k = snd q.
Proof.
  intro Hk. unfold sample_y, sample_time.
  rewrite nth_error_app1, Hk; [split; reflexivity|].
  apply nth_error_Some. rewrite Hk. discriminate.
Qed.

Lemma dom_cancel_fields (h : option positive) (s : ScrollView) :
  exists s',
    dom_cancel h s = Ok tt s' /\
    reads s' = match h with
               | Some h => filter (fun r => negb (Pos.eqb r h)) (reads s)
               | None => reads s
               end /\
    isScrolling s' = isScrolling s /\ notified s' = notified s /\
    ev s' = ev s /\ nextTask s' = nextTask s /\ _t s' = _t s /\
    max s' = max s /\ node s' = node s /\
    contentTop s' = contentTop s /\ contentBottom s' = contentBottom s.
Proof.
  destruct h as [h|]; unfold dom_cancel, modify, ret; eexists;
    (split; [reflexivity|]); repeat split.
Qed.

(** X23. When a touch ends and the loop over the samples stops at an
    earlier sample than the last, the velocity is the movement since that
    sample per frame of 1000/60 ms.  Above 4 in absolute value a
    deceleration frame is queued; at 4 or below nothing else happens:
    [isScrolling] keeps its value and no scroll end is emitted. *)
Theorem release_velocity :
  forall (w : TouchView) (y ts yk tk : Q) (k : nat),
    scan (sub (Fin ts) (Fin 100)) (positions w ++ [(Fin y, Fin ts)])
      (List.length (positions w)) (List.length (positions w)) = k ->
    (k < List.length (positions w))%nat ->
    nth_error (positions w) k = Some (Fin yk, Fin tk) ->
    ~ ts - tk == 0 ->
    let v := (yk - y) / (ts - tk) * FRAME_MS in
    let pending :=
      match rafCancel (view w) with
      | Some h => filter (fun r => negb (Pos.eqb r h)) (reads (view w))
      | None => reads (view w)
      end in
    exists w',
      jsScrollTouchEnd (Fin y) (Fin ts) w = Ok tt w' /\
      positions w' = [] /\
      ev_velocityY (ev (view w')) = Fin v /\
      isScrolling (view w') = isScrolling (view w) /\
      notified (view w') = notified (view w) /\
      (Qabs v <= 4 -> reads (view w') = pending) /\
      (4 < Qabs v ->
       reads (view w') = pending ++ [nextTask (view w)] /\
       rafCancel (view w') = Some (nextTask (view w))).
Proof.
  intros w y ts yk tk k Hscan Hk Hnth Hdt v pending.
  destruct w as [s ps sy dy tw]. cbn [positions view] in *.
  destruct (dom_cancel_fields (rafCancel s) s)
    as (s1 & Hcancel & Hrd & Hscr & Hns & Hev & Hnt & _).
  destruct (sample_latest ps (Fin y, Fin ts)) as [Hy_end Ht_end].
  destruct (sample_earlier ps (Fin y, Fin ts) _ k Hnth) as [Hy_k Ht_k].
  cbn [fst snd] in Hy_end, Ht_end, Hy_k, Ht_k.
  assert (Hlen : Nat.eqb (List.length ps) 0 = false).
  { apply Nat.eqb_neq. lia. }
  assert (Hne : Nat.eqb k (List.length ps) = false).
  { apply Nat.eqb_neq. lia. }
  assert (Hdiv : mul (divn (sub (Fin yk) (Fin y)) (sub (Fin ts) (Fin tk))) (Fin FRAME_MS)
                 = Fin v).
  { cbn. unfold div. destruct (Qeq_bool_spec (ts + - tk) 0) as [E|E];
      [contradiction|reflexivity]. }
  unfold jsScrollTouchEnd, bind at 1, get at 1. cbn [positions view].
  unfold bind at 1, lift at 1. cbn [view]. rewrite Hcancel. cbn [set_view].
  rewrite Hlen. cbn [andb].
  unfold push, bind, get, modify. cbn [positions set_positions set_view view].
  rewrite length_app. cbn [List.length]. rewrite Nat.add_sub.
  rewrite Hscan, Hne. cbn [negb].
  rewrite Hy_end, Ht_end, Hy_k, Ht_k, Hdiv.
  unfold lift at 1. cbn [view set_view ev set_ev set_ev_velocityY ev_velocityY].
  change (gt (abs (Fin v)) (Fin MIN_VELOCITY_START_DECELERATION)) with (Qltb 4 (Qabs v)).
  fold pending in Hrd. clear Hdiv Hcancel. clearbody v pending.
  generalize dependent (Qabs v). intros speed.
  destruct (Qltb_spec 4 speed) as [Hfast|Hslow].
  - destruct s1 as [scr st sl js el nd e mx rc ct cb rs ws nt ns cp].
    cbn in Hrd, Hscr, Hns, Hev, Hnt. subst.
    unfold lift, setMax, dom_read, bind, get, modify, ret. cbn.
    eexists. split; [reflexivity|]. cbn.
    destruct (max_truthy mx); cbn; repeat split; intros;
      try reflexivity; exfalso; lra.
  - destruct s1 as [scr st sl js el nd e mx rc ct cb rs ws nt ns cp].
    cbn in Hrd, Hscr, Hns, Hev, Hnt. subst.
    unfold ret. cbn.
    eexists. split; [reflexivity|]. cbn.
    repeat split; intros; try reflexivity; exfalso; lra.
Qed.


Lemma release_velocity_witness :
  exists w',
    jsScrollTouchEnd (Fin 288) (Fin 50) dragged_slowly = Ok tt w' /\
    isScrolling (view w') = true /\
    notified (view w') = notified (view dragged_slowly).
Proof.
  destruct (release_velocity dragged_slowly 288 50 300 0 0)
    as (w' & Hend & _ & _ & Hscr & Hns & _).
  - reflexivity.
  - cbn. lia.
  - reflexivity.
  - discriminate.
  - exists w'. split; [exact Hend|]. split; [exact Hscr|exact Hns].
Defined.

Lemma exists_last_or_nil {A : Type} (l : list A) :
  l = [] \/ exists l' a, l = l' ++ [a].
Proof.
  destruct l as [|a l]; [left; reflexivity|right].
  destruct (exists_last (l := a :: l)) as (l' & b & Heq); [discriminate|].
  exists l', b. exact Heq.
Qed.

Lemma scan_stop (tr : num) (ps : list (num * num)) (k startPos : nat) :
  gt (sample_time ps k) tr = false ->
  scan tr ps k startPos = startPos.
Proof. intro Hk. destruct k; cbn [scan]; rewrite Hk; reflexivity. Qed.

(** X24. The loop over the samples, started at a sample newer than the
    time range, stops at the oldest sample of the unbroken run of newer
    samples that ends there: every sample from the result on is newer than
    the range, and the one before the result, if any, is not. *)
Theorem scan_window :
  forall (tr : num) (ps : list (num * num)) (k startPos : nat),
    gt (sample_time ps k) tr = true ->
    let r := scan tr ps k startPos in
    (r <= k)%nat /\
    (forall j, (r <= j <= k)%nat -> gt (sample_time ps j) tr = true) /\
    (r = 0%nat \/ gt (sample_time ps (Nat.pred r)) tr = false).
Proof.
  intros tr ps k. induction k as [|k IH]; intros startPos Hk.
  - cbn [scan]. rewrite Hk. cbn zeta. split; [lia|]. split; [|left; reflexivity].
    intros j Hj. assert (j = 0%nat) as -> by lia. exact Hk.
  - cbn [scan]. rewrite Hk. cbn zeta.
    destruct (gt (sample_time ps k) tr) eqn:Hprev.
    + destruct (IH (S k) eq_refl) as (Hle & Hrun & Hbefore).
      split; [lia|]. split; [|exact Hbefore].
      intros j Hj. destruct (Nat.eq_dec j (S k)) as [->|Hne]; [exact Hk|].
      apply Hrun. lia.
    + rewrite (scan_stop tr ps k (S k) Hprev).
      split; [lia|]. split; [|right; exact Hprev].
      intros j Hj. assert (j = S k) as -> by lia. exact Hk.
Qed.

Lemma scan_window_witness :
  scan (Fin 76) paused_samples 2 2 = 1%nat /\
  gt (sample_time paused_samples 0) (Fin 76) = false.
Proof.
  destruct (scan_window (Fin 76) paused_samples 2 2) as (_ & _ & Hbefore).
  - reflexivity.
  - split; [reflexivity|].
    destruct Hbefore as [Hzero|Hb]; [discriminate Hzero|exact Hb].
Defined.

(** X25. When a touch ends with no sample taken, or with the latest
    sample at least 100 ms old, the scroll ends at once: [isScrolling] is
    cleared, the velocity is zero, one scroll end is emitted, whether or
    not a scroll was in progress, and no deceleration frame is queued. *)
Theorem release_after_pause :
  forall (w : TouchView) (y ts : Q),
    (forall p, latest (positions w) = Some p ->
               exists tp, snd p = Fin tp /\ tp <= ts - 100) ->
    exists w',
      jsScrollTouchEnd (Fin y) (Fin ts) w = Ok tt w' /\
      positions w' = [] /\
      isScrolling (view w') = false /\
      ev_velocityY (ev (view w')) = Fin 0 /\
      scroll_ends (notified (view w')) = S (scroll_ends (notified (view w))) /\
      scroll_starts (notified (view w')) = scroll_starts (notified (view w)) /\
      reads (view w')
        = match rafCancel (view w) with
          | Some h => filter (fun r => negb (Pos.eqb r h)) (reads (view w))
          | None => reads (view w)
          end.
Proof.
  intros w y ts Hold.
  destruct w as [s ps sy dy tw]. cbn [positions view] in *.
  destruct (dom_cancel_fields (rafCancel s) s)
    as (s1 & Hcancel & Hrd & Hscr & Hns & Hev & Hnt & _).
  assert (Hnow : gt (Fin ts) (sub (Fin ts) (Fin 100)) = true).
  { cbn. apply Qltb_true. lra. }
  unfold jsScrollTouchEnd, bind at 1, get at 1. cbn [positions view].
  unfold bind at 1, lift at 1. cbn [view]. rewrite Hcancel. cbn [set_view].
  destruct (exists_last_or_nil ps) as [->|(ps0 & [yp tp0] & ->)].
  - cbn [List.length Nat.eqb andb].
    destruct s1 as [scr st sl js el nd e mx rc ct cb rs ws nt ns cp].
    cbn in Hrd, Hscr, Hns, Hev, Hnt. subst.
    destruct (isScrolling s).
    + unfold lift, end_scroll, bind, modify. cbn.
      eexists. split; [reflexivity|]. cbn.
      unfold scroll_ends, scroll_starts. cbn. repeat split.
    + unfold push, lift, bind, get, modify. cbn.
      cbn in Hnow. rewrite Hnow. cbn.
      eexists. split; [reflexivity|]. cbn.
      unfold scroll_ends, scroll_starts. cbn. repeat split.
  - destruct (Hold (yp, tp0) (latest_snoc ps0 (yp, tp0))) as (tp & Htp & Hage).
    cbn [snd] in Htp. subst tp0.
    assert (Hlen : Nat.eqb (List.length (ps0 ++ [(yp, Fin tp)])) 0 = false).
    { apply Nat.eqb_neq. rewrite length_app. cbn. lia. }
    rewrite Hlen. cbn [andb].
    unfold push, bind, get, modify. cbn [positions set_positions set_view view].
    rewrite !length_app. cbn [List.length]. rewrite !Nat.add_sub, Nat.add_1_r.
    set (ps' := (ps0 ++ [(yp, Fin tp)]) ++ [(Fin y, Fin ts)]).
    assert (Hend : sample_time ps' (S (List.length ps0)) = Fin ts).
    { unfold ps'. replace (S (List.length ps0)) with (List.length (ps0 ++ [(yp, Fin tp)]))
        by (rewrite length_app; cbn; lia).
      apply (sample_latest (ps0 ++ [(yp, Fin tp)]) (Fin y, Fin ts)). }
    assert (Hprev : sample_time ps' (List.length ps0) = Fin tp).
    { unfold ps'.
      apply (sample_earlier (ps0 ++ [(yp, Fin tp)]) (Fin y, Fin ts) (yp, Fin tp)).
      rewrite nth_error_app2, Nat.sub_diag; [reflexivity|lia]. }
    assert (Hscan : scan (sub (Fin ts) (Fin 100)) ps'
                      (S (List.length ps0)) (S (List.length ps0))
                    = S (List.length ps0)).
    { cbn [scan]. rewrite Hend, Hnow. apply scan_stop. rewrite Hprev.
      cbn. apply Qltb_false. lra. }
    rewrite Hscan, Nat.eqb_refl. cbn [negb].
    destruct s1 as [scr st sl js el nd e mx rc ct cb rs ws nt ns cp].
    cbn in Hrd, Hscr, Hns, Hev, Hnt. subst.
    unfold lift, bind, modify. cbn.
    eexists. split; [reflexivity|]. cbn.
    unfold scroll_ends, scroll_starts. cbn. repeat split.
Qed.

Lemma release_after_pause_witness :
  exists w',
    jsScrollTouchEnd (Fin 288) (Fin 500) dragged_slowly = Ok tt w' /\
    isScrolling (view w') = false.
Proof.
  destruct (release_after_pause dragged_slowly 288 500) as (w' & Hend & _ & Hscr & _).
  - intros p Hp. inversion Hp. subst p. exists 48. split; [reflexivity|discriminate].
  - exists w'. split; [exact Hend|exact Hscr].
Defined.


End ScrollTouchFacts.
